(** * Employee task tracker: storage layer, API handlers and their properties

    A shallow embedding of the server side of the task tracker:
    - [Schema]   : shared/schema.ts (row types, insert payloads, zod rules);
    - [Sqlite]   : the two tables of database/migrations.ts with their
                   constraints, and the statements the server prepares;
    - [Storage]  : server/storage.ts, class SQLiteStorage;
    - [Seed]     : database/seed.ts;
    - [Js]       : the JavaScript built-ins the handlers rely on
                   (parseInt, Math.round and arithmetic on Numbers);
    - [Routes]   : server/routes.ts.

    Conventions.  Row identifiers and the numbers carried by validated
    payloads are integers ([Z]).  A [string] is the UTF-8 text of a TEXT
    column or of a JavaScript string; TEXT is compared bytewise, as SQLite's
    BINARY collation does; CURRENT_TIMESTAMP is a TEXT value handed to each
    writing statement as [now].  Every statement
    runs in autocommit mode on a synchronous connection, so a statement that
    raises leaves the database as it was before that statement. *)

From Stdlib Require Import ZArith List String Ascii Bool Lia.
From Stdlib Require Import Permutation Sorted.
From Stdlib Require Import Floats.SpecFloat.
Import ListNotations.

Local Open Scope string_scope.
Local Open Scope list_scope.
Local Open Scope Z_scope.

(* ================================================================== *)
(** ** Generic list helpers: stable insertion sort, maxima *)
(* ================================================================== *)

Section Sorting.
Context {A : Type}.
Variable leb : A -> A -> bool.

(** [insert_by] puts [x] in front of the first element that is not before
    it; [sort_by] inserts from the right, so rows that compare equal keep
    their scan order (SQL leaves the order of such rows open). *)
Fixpoint insert_by (x : A) (l : list A) : list A :=
  match l with
  | [] => [x]
  | y :: l' => if leb x y then x :: y :: l' else y :: insert_by x l'
  end.

Fixpoint sort_by (l : list A) : list A :=
  match l with
  | [] => []
  | x :: l' => insert_by x (sort_by l')
  end.

End Sorting.

(** Largest element of a list of row ids, 0 for the empty table. *)
Definition max_rowid (ids : list Z) : Z := fold_right Z.max 0 ids.

(* ================================================================== *)
(** ** shared/schema.ts *)
(* ================================================================== *)

Module Schema.

(** [TaskStatus] and [TaskPriority], with the TEXT stored in the column. *)
Inductive TaskStatus := PENDING | IN_PROGRESS | COMPLETED.
Inductive TaskPriority := LOW | MEDIUM | HIGH.

Definition status_text (s : TaskStatus) : string :=
  match s with
  | PENDING => "pending"
  | IN_PROGRESS => "in-progress"
  | COMPLETED => "completed"
  end.

Definition priority_text (p : TaskPriority) : string :=
  match p with
  | LOW => "low"
  | MEDIUM => "medium"
  | HIGH => "high"
  end.

Definition status_eqb (a b : TaskStatus) : bool :=
  match a, b with
  | PENDING, PENDING | IN_PROGRESS, IN_PROGRESS | COMPLETED, COMPLETED => true
  | _, _ => false
  end.

(** A row of [employees]. *)
Record Employee := mkEmployee {
  e_id : Z;
  e_name : string;
  e_email : string;
  e_department : string;
  e_position : string;
  e_createdAt : string
}.

(** A row of [tasks]; [None] is SQL NULL. *)
Record Task := mkTask {
  t_id : Z;
  t_title : string;
  t_description : option string;
  t_status : TaskStatus;
  t_employeeId : Z;
  t_dueDate : option string;
  t_priority : TaskPriority;
  t_createdAt : string;
  t_updatedAt : string
}.

(** [InsertEmployee]: the output type of [insertEmployeeSchema]. *)
Record InsertEmployee := mkInsertEmployee {
  ie_name : string;
  ie_email : string;
  ie_department : string;
  ie_position : string
}.

(** [Partial<InsertEmployee>]: [None] is a property that is [undefined]. *)
Record PartialInsertEmployee := mkPartialInsertEmployee {
  pe_name : option string;
  pe_email : option string;
  pe_department : option string;
  pe_position : option string
}.

(** [InsertTask].  For the two nullable columns the outer [option] is
    "property present", the inner one distinguishes [null] from a string. *)
Record InsertTask := mkInsertTask {
  it_title : string;
  it_description : option (option string);
  it_status : option TaskStatus;
  it_employeeId : Z;
  it_dueDate : option (option string);
  it_priority : option TaskPriority
}.

(** [Partial<InsertTask>]. *)
Record PartialInsertTask := mkPartialInsertTask {
  pt_title : option string;
  pt_description : option (option string);
  pt_status : option TaskStatus;
  pt_employeeId : option Z;
  pt_dueDate : option (option string);
  pt_priority : option TaskPriority
}.

Definition empty_task_patch : PartialInsertTask :=
  mkPartialInsertTask None None None None None None.

End Schema.
Import Schema.

(* ================================================================== *)
(** ** The database: config/database.ts and database/migrations.ts *)
(* ================================================================== *)

Module Sqlite.

(** The two tables in rowid order, and the [sqlite_sequence] entries that
    AUTOINCREMENT keeps for them (0 while a table has no entry). *)
Record database := mkDb {
  employees : list Employee;
  employees_seq : Z;
  tasks : list Task;
  tasks_seq : Z
}.

(** State of a fresh file once [runMigrations] has created the tables. *)
Definition empty_db : database := mkDb [] 0 [] 0.

(** The constraint failures the schema can raise.  [status] and [priority]
    are typed by their enumerations, so the CHECK constraints always pass;
    NOT NULL columns always receive a value. *)
Inductive SqliteError :=
| UNIQUE_employees_email
| FOREIGN_KEY.

Definition message (e : SqliteError) : string :=
  match e with
  | UNIQUE_employees_email => "UNIQUE constraint failed: employees.email"
  | FOREIGN_KEY => "FOREIGN KEY constraint failed"
  end.

(** Result of a call that may raise. *)
Inductive outcome (A : Type) :=
| Return (a : A)
| Throw (e : SqliteError).
Arguments Return {A} a.
Arguments Throw {A} e.

(** Computations over the connection. *)
Definition M (A : Type) : Type := database -> outcome A * database.

Definition ret {A} (a : A) : M A := fun db => (Return a, db).
Definition throw {A} (e : SqliteError) : M A := fun db => (Throw e, db).
Definition bind {A B} (m : M A) (k : A -> M B) : M B :=
  fun db =>
    match m db with
    | (Return a, db') => k a db'
    | (Throw e, db') => (Throw e, db')
    end.
Definition query {A} (q : database -> A) : M A := fun db => (Return (q db), db).

(** What [Statement.run] returns. *)
Record RunResult := mkRun { changes : Z; lastInsertRowid : Z }.

(** AUTOINCREMENT: one more than the largest rowid the table ever held. *)
Definition next_rowid (seq : Z) (ids : list Z) : Z :=
  Z.max seq (max_rowid ids) + 1.

Definition has_employee (db : database) (id : Z) : bool :=
  existsb (fun e => e_id e =? id) (employees db).

(** *** Statements on [employees] *)

(** [SELECT * FROM employees WHERE id = ?] *)
Definition select_employee (id : Z) (db : database) : option Employee :=
  find (fun e => e_id e =? id) (employees db).

(** [INSERT INTO employees (name, email, department, position) VALUES (?, ?, ?, ?)] *)
Definition insert_employee (name email department position now : string)
  : M RunResult :=
  fun db =>
    if existsb (fun e => String.eqb (e_email e) email) (employees db)
    then (Throw UNIQUE_employees_email, db)
    else
      let id := next_rowid (employees_seq db) (map e_id (employees db)) in
      (Return (mkRun 1 id),
       mkDb (employees db ++ [mkEmployee id name email department position now])
            id (tasks db) (tasks_seq db)).

Definition set_or_keep {A} (new : option A) (old : A) : A :=
  match new with Some v => v | None => old end.

Definition apply_employee_sets (p : PartialInsertEmployee) (e : Employee)
  : Employee :=
  mkEmployee (e_id e)
             (set_or_keep (pe_name p) (e_name e))
             (set_or_keep (pe_email p) (e_email e))
             (set_or_keep (pe_department p) (e_department e))
             (set_or_keep (pe_position p) (e_position e))
             (e_createdAt e).

(** [UPDATE employees SET <the supplied columns> WHERE id = ?].
    The UNIQUE index on [email] rejects the statement when the new email is
    held by a row other than the one being written. *)
Definition update_employee (id : Z) (p : PartialInsertEmployee) : M RunResult :=
  fun db =>
    if has_employee db id then
      let clash :=
        match pe_email p with
        | Some em =>
            existsb (fun e => negb (e_id e =? id) && String.eqb (e_email e) em)
                    (employees db)
        | None => false
        end in
      if clash then (Throw UNIQUE_employees_email, db)
      else
        (Return (mkRun 1 0),
         mkDb (map (fun e => if e_id e =? id then apply_employee_sets p e else e)
                   (employees db))
              (employees_seq db) (tasks db) (tasks_seq db))
    else (Return (mkRun 0 0), db).

(** [DELETE FROM employees WHERE id = ?], with foreign keys enabled:
    [ON DELETE CASCADE] removes the tasks of the deleted row in the same
    statement.  [changes] counts the employee row only. *)
Definition delete_employee (id : Z) : M RunResult :=
  fun db =>
    if has_employee db id then
      (Return (mkRun 1 0),
       mkDb (filter (fun e => negb (e_id e =? id)) (employees db))
            (employees_seq db)
            (filter (fun t => negb (t_employeeId t =? id)) (tasks db))
            (tasks_seq db))
    else (Return (mkRun 0 0), db).

(** *** Statements on [tasks] *)

(** [SELECT * FROM tasks WHERE id = ?] *)
Definition select_task (id : Z) (db : database) : option Task :=
  find (fun t => t_id t =? id) (tasks db).

(** [INSERT INTO tasks (title, description, status, employee_id, due_date, priority)
     VALUES (?, ?, ?, ?, ?, ?)]; both timestamps take their default. *)
Definition insert_task (title : string) (description : option string)
    (status : TaskStatus) (employee_id : Z) (due_date : option string)
    (priority : TaskPriority) (now : string) : M RunResult :=
  fun db =>
    if has_employee db employee_id then
      let id := next_rowid (tasks_seq db) (map t_id (tasks db)) in
      (Return (mkRun 1 id),
       mkDb (employees db) (employees_seq db)
            (tasks db ++ [mkTask id title description status employee_id
                                 due_date priority now now])
            id)
    else (Throw FOREIGN_KEY, db).

Definition apply_task_sets (p : PartialInsertTask) (now : string) (t : Task)
  : Task :=
  mkTask (t_id t)
         (set_or_keep (pt_title p) (t_title t))
         (set_or_keep (pt_description p) (t_description t))
         (set_or_keep (pt_status p) (t_status t))
         (set_or_keep (pt_employeeId p) (t_employeeId t))
         (set_or_keep (pt_dueDate p) (t_dueDate t))
         (set_or_keep (pt_priority p) (t_priority t))
         (t_createdAt t)
         now.

(** [UPDATE tasks SET updated_at = CURRENT_TIMESTAMP, <the supplied columns>
     WHERE id = ?].  A new [employee_id] must have a parent row. *)
Definition update_task (id : Z) (p : PartialInsertTask) (now : string)
  : M RunResult :=
  fun db =>
    if existsb (fun t => t_id t =? id) (tasks db) then
      let orphan :=
        match pt_employeeId p with
        | Some eid => negb (has_employee db eid)
        | None => false
        end in
      if orphan then (Throw FOREIGN_KEY, db)
      else
        (Return (mkRun 1 0),
         mkDb (employees db) (employees_seq db)
              (map (fun t => if t_id t =? id then apply_task_sets p now t else t)
                   (tasks db))
              (tasks_seq db))
    else (Return (mkRun 0 0), db).

(** [DELETE FROM tasks WHERE id = ?] *)
Definition delete_task (id : Z) : M RunResult :=
  fun db =>
    if existsb (fun t => t_id t =? id) (tasks db) then
      (Return (mkRun 1 0),
       mkDb (employees db) (employees_seq db)
            (filter (fun t => negb (t_id t =? id)) (tasks db))
            (tasks_seq db))
    else (Return (mkRun 0 0), db).

End Sqlite.
Import Sqlite.

Declare Scope sql_scope.
Delimit Scope sql_scope with sql.
Notation "x <- m ;; k" := (bind m (fun x => k))
  (at level 61, m at next level, right associativity) : sql_scope.

(* ================================================================== *)
(** ** JavaScript built-ins used by the server *)
(* ================================================================== *)

Module Js.

(** *** Numbers: IEEE 754 binary64 *)

Definition prec : Z := 53.
Definition emax : Z := 1024.

(** The Number with the value of an integer (the conversion of a COUNT
    result, or of a numeric literal). *)
Definition of_int (z : Z) : spec_float := binary_normalize prec emax z 0 false.

(** [x / y] and [x * y] *)
Definition div (x y : spec_float) : spec_float := SFdiv prec emax x y.
Definition mul (x y : spec_float) : spec_float := SFmul prec emax x y.

(** [Math.round(x)]: the integer closest to [x], the larger one when two are
    equally close, that is [floor (x + 1/2)] computed exactly.  [None] stands
    for the results that are not integers (NaN and the infinities). *)
Definition Math_round (x : spec_float) : option Z :=
  match x with
  | S754_zero _ => Some 0
  | S754_finite s m e =>
      let sm := if s then Z.neg m else Z.pos m in
      Some (if 0 <=? e then sm * 2 ^ e
            else (2 * sm + 2 ^ (- e)) / 2 ^ (- e + 1))
  | S754_infinity _ | S754_nan => None
  end.

(** *** Strings *)

Definition code (c : ascii) : Z := Z.of_N (N_of_ascii c).

(** [s.length]: the number of UTF-16 code units of a string given in
    UTF-8.  Every character starts with one byte that is not a continuation
    byte (10xxxxxx); a character of four bytes (11110xxx) takes two units. *)
Fixpoint length (s : string) : nat :=
  match s with
  | EmptyString => 0%nat
  | String c s' =>
      let n := code c in
      let units :=
        if (128 <=? n) && (n <=? 191) then 0%nat
        else if 240 <=? n then 2%nat else 1%nat in
      (units + length s')%nat
  end.

(** [String.prototype.includes] *)
Fixpoint includes (s sub : string) : bool :=
  String.prefix sub s ||
  match s with
  | EmptyString => false
  | String _ s' => includes s' sub
  end.

(** White space skipped by parseInt (StrWhiteSpaceChar).  Strings are
    UTF-8, so the characters beyond ASCII take two or three bytes:
    U+00A0; U+1680, U+2000 to U+200A, U+2028, U+2029, U+202F, U+205F,
    U+3000 and U+FEFF. *)
Definition is_white_space (c : ascii) : bool :=
  let n := code c in ((9 <=? n) && (n <=? 13)) || (n =? 32).

Definition is_white_space2 (c1 c2 : ascii) : bool :=
  (code c1 =? 194) && (code c2 =? 160).

Definition is_white_space3 (c1 c2 c3 : ascii) : bool :=
  let '(a, b, c) := (code c1, code c2, code c3) in
  ((a =? 225) && (b =? 154) && (c =? 128))
  || ((a =? 226) && (b =? 128)
      && (((128 <=? c) && (c <=? 138)) || (c =? 168) || (c =? 169) || (c =? 175)))
  || ((a =? 226) && (b =? 129) && (c =? 159))
  || ((a =? 227) && (b =? 128) && (c =? 128))
  || ((a =? 239) && (b =? 187) && (c =? 191)).

Fixpoint trim_start (s : string) : string :=
  match s with
  | EmptyString => EmptyString
  | String c1 s1 =>
      if is_white_space c1 then trim_start s1
      else
        match s1 with
        | EmptyString => s
        | String c2 s2 =>
            if is_white_space2 c1 c2 then trim_start s2
            else
              match s2 with
              | EmptyString => s
              | String c3 s3 =>
                  if is_white_space3 c1 c2 c3 then trim_start s3 else s
              end
        end
  end.

(** Value of a character as a digit, in any radix up to 36. *)
Definition digit_value (c : ascii) : option Z :=
  let n := code c in
  if (48 <=? n) && (n <=? 57) then Some (n - 48)
  else if (97 <=? n) && (n <=? 122) then Some (n - 97 + 10)
  else if (65 <=? n) && (n <=? 90) then Some (n - 65 + 10)
  else None.

Definition is_digit (radix : Z) (c : ascii) : bool :=
  match digit_value c with
  | Some d => d <? radix
  | None => false
  end.

(** Value of the longest prefix of [s] made of radix-[radix] digits, read
    after the digits already accumulated in [acc]; [None] while no digit
    has been read. *)
Fixpoint digits_prefix (radix : Z) (s : string) (acc : option Z) : option Z :=
  match s with
  | EmptyString => acc
  | String c s' =>
      match digit_value c with
      | Some d =>
          if d <? radix
          then digits_prefix radix s'
                 (Some (radix * match acc with Some a => a | None => 0 end + d))
          else acc
      | None => acc
      end
  end.

Definition strip_sign (s : string) : Z * string :=
  match s with
  | String "-" r => (-1, r)
  | String "+" r => (1, r)
  | _ => (1, s)
  end.

Definition strip_hex_prefix (s : string) : Z * string :=
  match s with
  | String "0" (String "x" r) => (16, r)
  | String "0" (String "X" r) => (16, r)
  | _ => (10, s)
  end.

(** [parseInt(s)] with no radix argument.  [None] is NaN, the one result
    for which [isNaN] holds.  The integer is kept exact: it is the Number
    JavaScript returns when its magnitude is at most 2^53.  Beyond that
    JavaScript rounds to the nearest binary64 (to Infinity in the end),
    which changes the number read but not whether one is read. *)
Definition parseInt (s : string) : option Z :=
  let '(sign, s1) := strip_sign (trim_start s) in
  let '(radix, s2) := strip_hex_prefix s1 in
  option_map (Z.mul sign) (digits_prefix radix s2 None).

End Js.

(* ================================================================== *)
(** ** server/storage.ts *)
(* ================================================================== *)

Module Storage.

Local Open Scope sql_scope.

(** Row of [getAllTasks]: [t.*] and [e.name as employeeName]. *)
Record TaskWithEmployeeName := mkTaskRow {
  tr_task : Task;
  tr_employeeName : string
}.

(** Row of [getTaskById]. *)
Record TaskWithEmployee := mkTaskDetail {
  td_task : Task;
  td_employeeName : string;
  td_employeeEmail : string
}.

Record TaskFilters := mkFilters {
  f_status : option string;
  f_employeeId : option Z
}.

Record EmployeeTaskCount := mkCount {
  c_employeeId : Z;
  c_employeeName : string;
  c_taskCount : Z
}.

Record TasksByStatus := mkByStatus {
  s_pending : Z;
  s_in_progress : Z;
  s_completed : Z
}.

Record DashboardStats := mkStats {
  totalTasks : Z;
  completedTasks : Z;
  completionRate : option Z;
  tasksByStatus : TasksByStatus;
  tasksByEmployee : list EmployeeTaskCount
}.

(** [ORDER BY name] *)
Definition by_name (a b : Employee) : bool := String.leb (e_name a) (e_name b).

(** [ORDER BY created_at DESC] *)
Definition newest_first (a b : Task) : bool :=
  String.leb (t_createdAt b) (t_createdAt a).

Definition getAllEmployees (db : database) : list Employee :=
  sort_by by_name (employees db).

Definition getEmployeeById (id : Z) (db : database) : option Employee :=
  select_employee id db.

Definition getEmployeeWithTasks (id : Z) (db : database)
  : option (Employee * list Task) :=
  match getEmployeeById id db with
  | None => None
  | Some employee =>
      Some (employee,
            sort_by newest_first
              (filter (fun t => t_employeeId t =? id) (tasks db)))
  end.

Definition createEmployee (employee : InsertEmployee) (now : string)
  : M (option Employee) :=
  result <- insert_employee (ie_name employee) (ie_email employee)
              (ie_department employee) (ie_position employee) now ;;
  query (getEmployeeById (lastInsertRowid result)).

Definition no_employee_field (p : PartialInsertEmployee) : bool :=
  match pe_name p, pe_email p, pe_department p, pe_position p with
  | None, None, None, None => true
  | _, _, _, _ => false
  end.

Definition updateEmployee (id : Z) (employee : PartialInsertEmployee)
  : M (option Employee) :=
  existing <- query (getEmployeeById id) ;;
  match existing with
  | None => ret None
  | Some e =>
      if no_employee_field employee then ret (Some e)
      else
        _ <- update_employee id employee ;;
        query (getEmployeeById id)
  end.

Definition deleteEmployee (id : Z) : M bool :=
  result <- delete_employee id ;;
  ret (0 <? changes result).

(** A filter value that is [undefined], or falsy, adds no condition. *)
Definition status_condition (f : option string) (t : Task) : bool :=
  match f with
  | Some s => if String.eqb s "" then true else String.eqb (status_text (t_status t)) s
  | None => true
  end.

Definition employee_condition (f : option Z) (t : Task) : bool :=
  match f with
  | Some i => if i =? 0 then true else t_employeeId t =? i
  | None => true
  end.

(** [FROM tasks t JOIN employees e ON t.employee_id = e.id] *)
Definition join_employees (db : database) (ts : list Task)
  : list (Task * Employee) :=
  flat_map (fun t =>
              map (fun e => (t, e))
                  (filter (fun e => t_employeeId t =? e_id e) (employees db)))
           ts.

Definition getAllTasks (filters : option TaskFilters) (db : database)
  : list TaskWithEmployeeName :=
  let st := match filters with Some f => f_status f | None => None end in
  let ei := match filters with Some f => f_employeeId f | None => None end in
  map (fun te => mkTaskRow (fst te) (e_name (snd te)))
      (sort_by (fun a b => newest_first (fst a) (fst b))
         (filter (fun te => status_condition st (fst te)
                            && employee_condition ei (fst te))
                 (join_employees db (tasks db)))).

Definition getTaskById (id : Z) (db : database) : option TaskWithEmployee :=
  match join_employees db (filter (fun t => t_id t =? id) (tasks db)) with
  | [] => None
  | (t, e) :: _ => Some (mkTaskDetail t (e_name e) (e_email e))
  end.

(** [v || null] on an optional, nullable string. *)
Definition or_null (v : option (option string)) : option string :=
  match v with
  | Some (Some s) => if String.eqb s "" then None else Some s
  | Some None | None => None
  end.

Definition createTask (task : InsertTask) (now : string) : M (option Task) :=
  result <- insert_task (it_title task)
              (or_null (it_description task))
              (match it_status task with Some s => s | None => PENDING end)
              (it_employeeId task)
              (or_null (it_dueDate task))
              (match it_priority task with Some p => p | None => MEDIUM end)
              now ;;
  query (select_task (lastInsertRowid result)).

Definition updateTask (id : Z) (task : PartialInsertTask) (now : string)
  : M (option Task) :=
  existing <- query (select_task id) ;;
  match existing with
  | None => ret None
  | Some _ =>
      _ <- update_task id task now ;;
      query (select_task id)
  end.

Definition deleteTask (id : Z) : M bool :=
  result <- delete_task id ;;
  ret (0 <? changes result).

(** [SELECT COUNT FROM tasks WHERE status = ...] *)
Definition count_status (s : TaskStatus) (db : database) : Z :=
  Z.of_nat (List.length (filter (fun t => status_eqb (t_status t) s) (tasks db))).

(** [COUNT(t.id)] of the group of employee [e] in the LEFT JOIN. *)
Definition task_count (db : database) (e : Employee) : Z :=
  Z.of_nat (List.length (filter (fun t => e_id e =? t_employeeId t) (tasks db))).

(** [ORDER BY taskCount DESC] *)
Definition most_tasks_first (a b : EmployeeTaskCount) : bool :=
  c_taskCount b <=? c_taskCount a.

(** [Math.round((completedTasks / totalTasks) * 100)] *)
Definition percentage (completed total : Z) : option Z :=
  Js.Math_round
    (Js.mul (Js.div (Js.of_int completed) (Js.of_int total)) (Js.of_int 100)).

Definition getDashboardStats (db : database) : DashboardStats :=
  let total := Z.of_nat (List.length (tasks db)) in
  let completed := count_status COMPLETED db in
  let pending := count_status PENDING db in
  let inProgress := count_status IN_PROGRESS db in
  let byEmployee :=
    sort_by most_tasks_first
      (map (fun e => mkCount (e_id e) (e_name e) (task_count db e))
           (employees db)) in
  mkStats total completed
          (if 0 <? total then percentage completed total else Some 0)
          (mkByStatus pending inProgress completed)
          byEmployee.

End Storage.
Import Storage.

(* ================================================================== *)
(** ** server/database/seed.ts *)
(* ================================================================== *)

Module Seed.

Local Open Scope sql_scope.

Definition employees : list (string * string * string * string) :=
  [ ("Raj Patel", "raj.patel@company.com", "Engineering", "Senior Developer");
    ("Priya Sharma", "priya.sharma@company.com", "Marketing", "Content Manager");
    ("Arjun Singh", "arjun.singh@company.com", "Sales", "Sales Representative");
    ("Divya Gupta", "divya.gupta@company.com", "HR", "HR Manager");
    ("Aditya Kumar", "aditya.kumar@company.com", "Engineering", "Frontend Developer");
    ("Neha Malhotra", "neha.malhotra@company.com", "Design", "UI/UX Designer");
    ("Rohan Verma", "rohan.verma@company.com", "Product", "Product Manager");
    ("Anjali Nair", "anjali.nair@company.com", "Finance", "Financial Analyst") ].

Definition tasks
  : list (string * string * TaskStatus * Z * string * TaskPriority) :=
  [ ("Fix login authentication bug", "Users cannot login with special characters in password", IN_PROGRESS, 1, "2025-02-01", HIGH);
    ("Implement user dashboard", "Create main dashboard with key metrics", PENDING, 1, "2025-02-15", HIGH);
    ("Code review for API endpoints", "Review and approve new REST API endpoints", COMPLETED, 1, "2025-01-20", MEDIUM);
    ("Create Q1 marketing campaign", "Design and launch Q1 digital marketing campaign", IN_PROGRESS, 2, "2025-02-28", HIGH);
    ("Update social media content", "Refresh company social media profiles", PENDING, 2, "2025-02-10", LOW);
    ("Write blog post on new features", "Technical blog post about latest product updates", COMPLETED, 2, "2025-01-15", MEDIUM);
    ("Contact enterprise leads", "Follow up with potential enterprise clients", IN_PROGRESS, 3, "2025-02-05", HIGH);
    ("Prepare sales presentation", "Create Q1 sales deck for team meeting", PENDING, 3, "2025-02-20", MEDIUM);
    ("Update CRM records", "Clean and update customer database", COMPLETED, 3, "2025-01-18", LOW);
    ("Conduct employee interviews", "Interview candidates for open positions", IN_PROGRESS, 4, "2025-02-08", HIGH);
    ("Update employee handbook", "Review and update company policies", PENDING, 4, "2025-03-01", MEDIUM);
    ("Plan team building event", "Organize quarterly team building activity", COMPLETED, 4, "2025-01-25", LOW);
    ("Optimize database queries", "Improve performance of slow database operations", PENDING, 5, "2025-02-12", HIGH);
    ("Build responsive components", "Create mobile-responsive UI components", IN_PROGRESS, 5, "2025-02-18", MEDIUM);
    ("Fix CSS styling issues", "Resolve cross-browser compatibility problems", COMPLETED, 5, "2025-01-22", LOW);
    ("Design new landing page", "Create mockups for product landing page", IN_PROGRESS, 6, "2025-02-14", HIGH);
    ("Create icon set", "Design custom icons for the application", PENDING, 6, "2025-02-25", MEDIUM);
    ("User research interviews", "Conduct UX research with target users", COMPLETED, 6, "2025-01-28", MEDIUM);
    ("Write product requirements", "Document PRD for new feature release", IN_PROGRESS, 7, "2025-02-10", HIGH);
    ("Analyze user feedback", "Review and categorize customer feedback", PENDING, 7, "2025-02-22", MEDIUM);
    ("Roadmap planning session", "Plan product roadmap for Q2", COMPLETED, 7, "2025-01-30", HIGH);
    ("Prepare financial report", "Create monthly financial summary", PENDING, 8, "2025-02-05", HIGH);
    ("Budget analysis for Q1", "Analyze department budget allocations", IN_PROGRESS, 8, "2025-02-15", MEDIUM);
    ("Audit expense reports", "Review and approve team expenses", COMPLETED, 8, "2025-01-20", LOW) ].

(** [for (const x of xs) stmt.run(...x)]: stops at the first statement
    that raises. *)
Fixpoint for_of {A} (xs : list A) (run : A -> M RunResult) : M unit :=
  match xs with
  | [] => ret tt
  | x :: xs' => _ <- run x ;; for_of xs' run
  end.

(** [seedDatabase()], with the CURRENT_TIMESTAMP read by its statements. *)
Definition seedDatabase (now : string) : M unit :=
  employeeCount <- query (fun db => Z.of_nat (List.length (Sqlite.employees db))) ;;
  if 0 <? employeeCount then ret tt
  else
    _ <- for_of employees
           (fun '(name, email, department, position) =>
              insert_employee name email department position now) ;;
    for_of tasks
      (fun '(title, description, status, employee_id, due_date, priority) =>
         insert_task title (Some description) status employee_id
                     (Some due_date) priority now).

End Seed.

(* ================================================================== *)
(** ** server/routes.ts *)
(* ================================================================== *)

Module Routes.

Local Open Scope sql_scope.

(** *** Request bodies *)

(** A parsed JSON body.  A number is the fraction [num / den]. *)
#[local] Unset Elimination Schemes.
Inductive json :=
| JNull
| JBool (b : bool)
| JNumber (num : Z) (den : positive)
| JString (s : string)
| JArray (items : list json)
| JObject (props : list (string * json)).
#[local] Set Elimination Schemes.

(** [obj[key]]; [None] is [undefined].  A later duplicate key wins, as in
    [JSON.parse]. *)
Fixpoint prop (props : list (string * json)) (key : string) : option json :=
  match props with
  | [] => None
  | (k, v) :: rest =>
      match prop rest key with
      | Some v' => Some v'
      | None => if String.eqb k key then Some v else None
      end
  end.

(** The type name zod reports in "Expected ..., received ...". *)
Definition received (v : json) : string :=
  match v with
  | JNull => "null"
  | JBool _ => "boolean"
  | JNumber _ _ => "number"
  | JString _ => "string"
  | JArray _ => "array"
  | JObject _ => "object"
  end.

(** *** Responses *)

Inductive ResBody :=
| ErrorBody (error : string)
| MessageBody (message : string)
| EmployeesBody (rows : list Employee)
| EmployeeWithTasksBody (employee : Employee) (tasks : list Task)
| EmployeeBody (employee : option Employee)
| TasksBody (rows : list TaskWithEmployeeName)
| TaskDetailBody (row : TaskWithEmployee)
| TaskBody (task : option Task)
| StatsBody (stats : DashboardStats).

Record Response := mkResponse { res_status : Z; res_body : ResBody }.

Definition error (status : Z) (msg : string) : Response :=
  mkResponse status (ErrorBody msg).

(** [try { ... } catch (error) { ... }] around a handler body. *)
Definition try_catch (body : M Response) (handler : SqliteError -> Response)
  : database -> Response * database :=
  fun db =>
    match body db with
    | (Return r, db') => (r, db')
    | (Throw e, db') => (handler e, db')
    end.

(** *** Validation (zod) *)

Inductive SafeParse (A : Type) :=
| Success (data : A)
| Failure (errors : list string).
Arguments Success {A} data.
Arguments Failure {A} errors.

(** Outcome of one property: its issues, and its value when there are none. *)
Definition checked (A : Type) : Type := list string * option A.

Definition issue {A} (msg : string) : checked A := ([msg], None).
Definition valid {A} (a : A) : checked A := ([], Some a).

Definition check (cond : bool) (msg : string) : list string :=
  if cond then [] else [msg].

Definition with_checks {A} (issues : list string) (a : A) : checked A :=
  match issues with
  | [] => valid a
  | _ => (issues, None)
  end.

Definition expected (type : string) (v : json) : string :=
  "Expected " ++ type ++ ", received " ++ received v.

Section Validation.

(** The pattern behind zod's [.email()], which is not part of this
    repository. *)
Variable email_format : string -> bool.

(** [z.string({ required_error }).min(1, required).max(n, too_long)];
    [max = None] when there is no upper bound. *)
Definition required_string (required : string)
    (max : option (nat * string)) (v : option json) : checked string :=
  match v with
  | None => issue required
  | Some (JString s) =>
      with_checks
        (check (1 <=? Js.length s)%nat required ++
         match max with
         | Some (n, too_long) => check (Js.length s <=? n)%nat too_long
         | None => []
         end) s
  | Some other => issue (expected "string" other)
  end.

Definition email_string (v : option json) : checked string :=
  match v with
  | None => issue "Email is required"
  | Some (JString s) =>
      with_checks
        (check (1 <=? Js.length s)%nat "Email is required" ++
         check (email_format s) "Invalid email format") s
  | Some other => issue (expected "string" other)
  end.

(** [.partial()] makes a property optional: [undefined] is accepted and
    stays [undefined]. *)
Definition optional {A} (rule : option json -> checked A) (v : option json)
  : checked (option A) :=
  match v with
  | None => valid None
  | Some _ =>
      match rule v with
      | (issues, Some a) => (issues, Some (Some a))
      | (issues, None) => (issues, None)
      end
  end.

(** [z.string().max(1000, ...).optional().nullable()] and the like. *)
Definition nullable_string (ok : string -> bool) (msg : string)
    (v : option json) : checked (option (option string)) :=
  match v with
  | None => valid None
  | Some JNull => valid (Some None)
  | Some (JString s) => with_checks (check (ok s) msg) (Some (Some s))
  | Some other => issue (expected "string" other)
  end.

Definition is_decimal (c : ascii) : bool :=
  (48 <=? Js.code c) && (Js.code c <=? 57).

(** [/^\d{4}-\d{2}-\d{2}$/] *)
Definition due_date_format (s : string) : bool :=
  match s with
  | String y1 (String y2 (String y3 (String y4 (String "-"
    (String m1 (String m2 (String "-" (String d1 (String d2 EmptyString))))))))) =>
      forallb is_decimal [y1; y2; y3; y4; m1; m2; d1; d2]
  | _ => false
  end.

Definition status_of_text (s : string) : option TaskStatus :=
  if String.eqb s "pending" then Some PENDING
  else if String.eqb s "in-progress" then Some IN_PROGRESS
  else if String.eqb s "completed" then Some COMPLETED
  else None.

Definition priority_of_text (s : string) : option TaskPriority :=
  if String.eqb s "low" then Some LOW
  else if String.eqb s "medium" then Some MEDIUM
  else if String.eqb s "high" then Some HIGH
  else None.

(** [z.enum([...], { errorMap })] on a value that is present. *)
Definition enum_value {A} (of_text : string -> option A) (msg : string)
    (v : option json) : checked A :=
  match v with
  | Some (JString s) =>
      match of_text s with
      | Some a => valid a
      | None => issue msg
      end
  | _ => issue msg
  end.

(** [.optional().default(d)] *)
Definition with_default {A} (rule : option json -> checked A) (d : A)
    (v : option json) : checked A :=
  match v with
  | None => valid d
  | Some _ => rule v
  end.

(** [z.number({ required_error, invalid_type_error }).int(...).positive(...)] *)
Definition employee_id_number (v : option json) : checked Z :=
  match v with
  | None => issue "Employee ID is required"
  | Some (JNumber num den) =>
      with_checks
        (check (num mod Z.pos den =? 0) "Employee ID must be an integer" ++
         check (0 <? num) "Employee ID must be positive")
        (num / Z.pos den)
  | Some _ => issue "Employee ID must be a number"
  end.

Definition status_message : string :=
  "Status must be 'pending', 'in-progress', or 'completed'".
Definition priority_message : string :=
  "Priority must be 'low', 'medium', or 'high'".

Definition name_rule := required_string "Name is required"
  (Some (100%nat, "Name must be less than 100 characters")).
Definition department_rule := required_string "Department is required" None.
Definition position_rule := required_string "Position is required" None.
Definition title_rule := required_string "Title is required"
  (Some (200%nat, "Title must be less than 200 characters")).
Definition description_rule := nullable_string
  (fun s => (Js.length s <=? 1000)%nat)
  "Description must be less than 1000 characters".
Definition due_date_rule := nullable_string due_date_format
  "Due date must be in YYYY-MM-DD format".
Definition status_rule := enum_value status_of_text status_message.
Definition priority_rule := enum_value priority_of_text priority_message.

(** [insertEmployeeSchema.safeParse(body)] *)
Definition insertEmployeeSchema (body : json) : SafeParse InsertEmployee :=
  match body with
  | JObject o =>
      match name_rule (prop o "name"), email_string (prop o "email"),
            department_rule (prop o "department"),
            position_rule (prop o "position") with
      | ([], Some n), ([], Some e), ([], Some d), ([], Some p) =>
          Success (mkInsertEmployee n e d p)
      | (i1, _), (i2, _), (i3, _), (i4, _) => Failure (i1 ++ i2 ++ i3 ++ i4)
      end
  | other => Failure [expected "object" other]
  end.

(** [insertEmployeeSchema.partial().safeParse(body)] *)
Definition partialEmployeeSchema (body : json)
  : SafeParse PartialInsertEmployee :=
  match body with
  | JObject o =>
      match optional name_rule (prop o "name"),
            optional email_string (prop o "email"),
            optional department_rule (prop o "department"),
            optional position_rule (prop o "position") with
      | ([], Some n), ([], Some e), ([], Some d), ([], Some p) =>
          Success (mkPartialInsertEmployee n e d p)
      | (i1, _), (i2, _), (i3, _), (i4, _) => Failure (i1 ++ i2 ++ i3 ++ i4)
      end
  | other => Failure [expected "object" other]
  end.

(** [insertTaskSchema.safeParse(body)] *)
Definition insertTaskSchema (body : json) : SafeParse InsertTask :=
  match body with
  | JObject o =>
      match title_rule (prop o "title"),
            description_rule (prop o "description"),
            with_default status_rule PENDING (prop o "status"),
            employee_id_number (prop o "employeeId"),
            due_date_rule (prop o "dueDate"),
            with_default priority_rule MEDIUM (prop o "priority") with
      | ([], Some t), ([], Some d), ([], Some s), ([], Some e),
        ([], Some dd), ([], Some p) =>
          Success (mkInsertTask t d (Some s) e dd (Some p))
      | (i1, _), (i2, _), (i3, _), (i4, _), (i5, _), (i6, _) =>
          Failure (i1 ++ i2 ++ i3 ++ i4 ++ i5 ++ i6)
      end
  | other => Failure [expected "object" other]
  end.

(** [insertTaskSchema.partial().safeParse(body)] *)
Definition partialTaskSchema (body : json) : SafeParse PartialInsertTask :=
  match body with
  | JObject o =>
      match optional title_rule (prop o "title"),
            description_rule (prop o "description"),
            optional status_rule (prop o "status"),
            optional employee_id_number (prop o "employeeId"),
            due_date_rule (prop o "dueDate"),
            optional priority_rule (prop o "priority") with
      | ([], Some t), ([], Some d), ([], Some s), ([], Some e),
        ([], Some dd), ([], Some p) =>
          Success (mkPartialInsertTask t d s e dd p)
      | (i1, _), (i2, _), (i3, _), (i4, _), (i5, _), (i6, _) =>
          Failure (i1 ++ i2 ++ i3 ++ i4 ++ i5 ++ i6)
      end
  | other => Failure [expected "object" other]
  end.

(** [validationResult.error.errors.map(e => e.message).join(", ")] *)
Definition validation_error (errors : list string) : Response :=
  error 400 (String.concat ", " errors).

(** *** Handlers *)

(** [app.get("/api/employees")] *)
Definition GET_employees : database -> Response * database :=
  try_catch
    (employees <- query getAllEmployees ;;
     ret (mkResponse 200 (EmployeesBody employees)))
    (fun _ => error 500 "Failed to fetch employees").

(** [app.get("/api/employees/:id")] *)
Definition GET_employees_id (id_param : string)
  : database -> Response * database :=
  try_catch
    (match Js.parseInt id_param with
     | None => ret (error 400 "Invalid employee ID")
     | Some id =>
         employee <- query (getEmployeeWithTasks id) ;;
         match employee with
         | None => ret (error 404 "Employee not found")
         | Some (e, ts) => ret (mkResponse 200 (EmployeeWithTasksBody e ts))
         end
     end)
    (fun _ => error 500 "Failed to fetch employee").

Definition unique_or (fallback : string) (e : SqliteError) : Response :=
  if Js.includes (message e) "UNIQUE constraint"
  then error 400 "Email already exists"
  else error 500 fallback.

(** [app.post("/api/employees")] *)
Definition POST_employees (body : json) (now : string)
  : database -> Response * database :=
  try_catch
    (match insertEmployeeSchema body with
     | Failure errors => ret (validation_error errors)
     | Success data =>
         employee <- createEmployee data now ;;
         ret (mkResponse 201 (EmployeeBody employee))
     end)
    (unique_or "Failed to create employee").

(** [app.put("/api/employees/:id")] *)
Definition PUT_employees_id (id_param : string) (body : json)
  : database -> Response * database :=
  try_catch
    (match Js.parseInt id_param with
     | None => ret (error 400 "Invalid employee ID")
     | Some id =>
         match partialEmployeeSchema body with
         | Failure errors => ret (validation_error errors)
         | Success data =>
             employee <- updateEmployee id data ;;
             match employee with
             | None => ret (error 404 "Employee not found")
             | Some e => ret (mkResponse 200 (EmployeeBody (Some e)))
             end
         end
     end)
    (unique_or "Failed to update employee").

(** [app.delete("/api/employees/:id")] *)
Definition DELETE_employees_id (id_param : string)
  : database -> Response * database :=
  try_catch
    (match Js.parseInt id_param with
     | None => ret (error 400 "Invalid employee ID")
     | Some id =>
         deleted <- deleteEmployee id ;;
         if deleted
         then ret (mkResponse 200 (MessageBody "Employee deleted successfully"))
         else ret (error 404 "Employee not found")
     end)
    (fun _ => error 500 "Failed to delete employee").

(** A query-string value is truthy when it is present and not empty. *)
Definition truthy (v : option string) : bool :=
  match v with
  | Some s => negb (String.eqb s "")
  | None => false
  end.

(** [app.get("/api/tasks")], with [req.query.status] and
    [req.query.employee_id]. *)
Definition GET_tasks (status employee_id : option string)
  : database -> Response * database :=
  try_catch
    (let employeeId :=
       match employee_id with
       | Some s => if truthy employee_id then Some (Js.parseInt s) else None
       | None => None
       end in
     if truthy status &&
        negb (existsb (String.eqb (match status with Some s => s | None => "" end))
                      ["pending"; "in-progress"; "completed"])
     then ret (error 400 "Invalid status value")
     else
       match employeeId with
       | Some None => ret (error 400 "Invalid employee_id")
       | Some (Some i) =>
           tasks <- query (getAllTasks (Some (mkFilters status (Some i)))) ;;
           ret (mkResponse 200 (TasksBody tasks))
       | None =>
           tasks <- query (getAllTasks (Some (mkFilters status None))) ;;
           ret (mkResponse 200 (TasksBody tasks))
       end)
    (fun _ => error 500 "Failed to fetch tasks").

(** [app.get("/api/tasks/:id")] *)
Definition GET_tasks_id (id_param : string)
  : database -> Response * database :=
  try_catch
    (match Js.parseInt id_param with
     | None => ret (error 400 "Invalid task ID")
     | Some id =>
         task <- query (getTaskById id) ;;
         match task with
         | None => ret (error 404 "Task not found")
         | Some t => ret (mkResponse 200 (TaskDetailBody t))
         end
     end)
    (fun _ => error 500 "Failed to fetch task").

(** [app.post("/api/tasks")] *)
Definition POST_tasks (body : json) (now : string)
  : database -> Response * database :=
  try_catch
    (match insertTaskSchema body with
     | Failure errors => ret (validation_error errors)
     | Success data =>
         employee <- query (getEmployeeById (it_employeeId data)) ;;
         match employee with
         | None => ret (error 400 "Employee not found")
         | Some _ =>
             task <- createTask data now ;;
             ret (mkResponse 201 (TaskBody task))
         end
     end)
    (fun _ => error 500 "Failed to create task").

(** [if (data.employeeId) { if (!storage.getEmployeeById(...)) ... }]:
    the lookup is made for an [employeeId] that is present and not 0. *)
Definition employee_missing (employeeId : option Z) (db : database) : bool :=
  match employeeId with
  | Some eid =>
      if eid =? 0 then false
      else match getEmployeeById eid db with
           | Some _ => false
           | None => true
           end
  | None => false
  end.

(** [app.put("/api/tasks/:id")] *)
Definition PUT_tasks_id (id_param : string) (body : json) (now : string)
  : database -> Response * database :=
  try_catch
    (match Js.parseInt id_param with
     | None => ret (error 400 "Invalid task ID")
     | Some id =>
         match partialTaskSchema body with
         | Failure errors => ret (validation_error errors)
         | Success data =>
             missing <- query (employee_missing (pt_employeeId data)) ;;
             if missing then ret (error 400 "Employee not found")
             else
               task <- updateTask id data now ;;
               match task with
               | None => ret (error 404 "Task not found")
               | Some t => ret (mkResponse 200 (TaskBody (Some t)))
               end
         end
     end)
    (fun _ => error 500 "Failed to update task").

(** [app.delete("/api/tasks/:id")] *)
Definition DELETE_tasks_id (id_param : string)
  : database -> Response * database :=
  try_catch
    (match Js.parseInt id_param with
     | None => ret (error 400 "Invalid task ID")
     | Some id =>
         deleted <- deleteTask id ;;
         if deleted
         then ret (mkResponse 200 (MessageBody "Task deleted successfully"))
         else ret (error 404 "Task not found")
     end)
    (fun _ => error 500 "Failed to delete task").

(** [app.get("/api/dashboard")] *)
Definition GET_dashboard : database -> Response * database :=
  try_catch
    (stats <- query getDashboardStats ;;
     ret (mkResponse 200 (StatsBody stats)))
    (fun _ => error 500 "Failed to fetch dashboard stats").

End Validation.

End Routes.

(* ================================================================== *)
(** ** Consistent and reachable database states *)
(* ================================================================== *)

(** What the PRIMARY KEY, UNIQUE and FOREIGN KEY clauses of the migrations
    demand. *)
Record consistent (db : database) : Prop := mkConsistent {
  pk_employees : NoDup (map e_id (employees db));
  unique_email : NoDup (map e_email (employees db));
  pk_tasks : NoDup (map t_id (tasks db));
  fk_tasks : forall t, In t (tasks db) -> has_employee db (t_employeeId t) = true
}.

(** The calls that write to the database: the mutating methods of
    [SQLiteStorage] and the seeding done when the server starts. *)
Inductive call :=
| CreateEmployee (employee : InsertEmployee) (now : string)
| UpdateEmployee (id : Z) (employee : PartialInsertEmployee)
| DeleteEmployee (id : Z)
| CreateTask (task : InsertTask) (now : string)
| UpdateTask (id : Z) (task : PartialInsertTask) (now : string)
| DeleteTask (id : Z)
| SeedDatabase (now : string).

Definition run (c : call) (db : database) : database :=
  match c with
  | CreateEmployee employee now => snd (createEmployee employee now db)
  | UpdateEmployee id employee => snd (updateEmployee id employee db)
  | DeleteEmployee id => snd (deleteEmployee id db)
  | CreateTask task now => snd (createTask task now db)
  | UpdateTask id task now => snd (updateTask id task now db)
  | DeleteTask id => snd (deleteTask id db)
  | SeedDatabase now => snd (Seed.seedDatabase now db)
  end.

(** States the server can be in: the freshly migrated file, and whatever a
    sequence of calls makes of it. *)
Inductive reachable : database -> Prop :=
| reachable_empty : reachable empty_db
| reachable_call c db : reachable db -> reachable (run c db).

(** A computation keeps the database consistent. *)
Definition preserves {A} (m : M A) : Prop :=
  forall db, consistent db -> consistent (snd (m db)).

(** The seeded database, used in examples. *)
Definition seeded_db : database :=
  Eval vm_compute in snd (Seed.seedDatabase "2025-01-01 00:00:00" empty_db).

(* ================================================================== *)
(** ** Vocabulary of the statements, and example data *)
(* ================================================================== *)

Definition contains_at (s : string) : bool := Js.includes s "@".

Definition raj_again : Routes.json :=
  Routes.JObject [ ("name", Routes.JString "Raj P.");
                   ("email", Routes.JString "raj.patel@company.com");
                   ("department", Routes.JString "Engineering");
                   ("position", Routes.JString "Developer") ].

Definition task_for_99 : Routes.json :=
  Routes.JObject [ ("title", Routes.JString "Audit the archive");
                   ("employeeId", Routes.JNumber 99 1) ].

(** The value a column takes from an optional property with a default. *)
Definition supplied_or {A} (supplied : option A) (default stored : A) : Prop :=
  match supplied with
  | Some v => stored = v
  | None => stored = default
  end.

(** The value a nullable TEXT column takes: the string supplied when it is
    not empty; NULL when the property is absent, [null] or the empty string. *)
Definition text_or_null (supplied : option (option string))
    (stored : option string) : Prop :=
  match supplied with
  | Some (Some s) => if string_dec s "" then stored = None else stored = Some s
  | Some None | None => stored = None
  end.

Definition call_with_empty_description : Routes.json :=
  Routes.JObject [ ("title", Routes.JString "Call the client");
                   ("employeeId", Routes.JNumber 1 1);
                   ("description", Routes.JString "") ].

(** The tasks a filter asks for: those with the given status and the given
    employee, each condition applying only when it is given. *)
Definition passes (status : option string) (employeeId : option Z) (t : Task)
  : bool :=
  match status with
  | Some s => String.eqb (status_text (t_status t)) s
  | None => true
  end &&
  match employeeId with
  | Some i => t_employeeId t =? i
  | None => true
  end.

Definition first_is_digit (radix : Z) (s : string) : bool :=
  match s with
  | String c _ => Js.is_digit radix c
  | EmptyString => false
  end.

(** [s] starts, after white space and an optional sign, with a decimal
    digit, or with "0x" or "0X" and a hexadecimal digit. *)
Definition integer_prefix (s : string) : bool :=
  let '(_, s1) := Js.strip_sign (Js.trim_start s) in
  let '(radix, s2) := Js.strip_hex_prefix s1 in
  first_is_digit radix s2.

Fixpoint all_decimal (s : string) : bool :=
  match s with
  | EmptyString => true
  | String c r => Routes.is_decimal c && all_decimal r
  end.

(** [s] is a numeric value: a non-empty string of decimal digits. *)
Definition numeric_string (s : string) : bool :=
  negb (String.eqb s "") && all_decimal s.

(** Position of the fraction [R / D] in the unit interval, as the rounding
    functions record it. *)
Definition location_of (R D : Z) : location :=
  if R =? 0 then loc_Exact else loc_Inexact (2 * R ?= D).

(** The record [mrs] stands for a number whose integer part is [shr_m mrs]
    and whose fractional part is [R / D]. *)
Definition tracks (mrs : shr_record) (D R : Z) : Prop :=
  0 <= shr_m mrs /\ 0 <= R < D /\ loc_of_shr_record mrs = location_of R D.

(** [round(num / den)] on the exact quotient, halves going up: what
    [Math.round] gives when the quotient is known exactly. *)
Definition round_half_up (num den : Z) : Z := (2 * num + den) / (2 * den).

(** One employee with 200 tasks, the first 29 of them completed. *)
Definition busy_calls : list call :=
  CreateEmployee (mkInsertEmployee "Asha Rao" "asha.rao@company.com" "Support" "Agent")
                 "2025-01-01 00:00:00"
  :: map (fun i => CreateTask
                     (mkInsertTask "Ticket" None
                        (Some (if (i <=? 29)%nat then COMPLETED else PENDING))
                        1 None None)
                     "2025-01-02 00:00:00")
         (seq 1 200).

Definition run_all (calls : list call) (db : database) : database :=
  fold_left (fun db c => run c db) calls db.

Definition busy_db : database := Eval vm_compute in run_all busy_calls empty_db.

(* ================================================================== *)
(** ** client/src/lib/api.ts *)
(* ================================================================== *)

Module Client.

Definition digit_char (d : Z) : ascii := ascii_of_N (Z.to_N (48 + d)).

(** The decimal digits of a non-negative integer, most significant first,
    put in front of [acc]. *)
Fixpoint decimal_digits (fuel : nat) (n : Z) (acc : string) : string :=
  match fuel with
  | O => acc
  | S fuel' =>
      let acc' := String (digit_char (n mod 10)) acc in
      if n <? 10 then acc' else decimal_digits fuel' (n / 10) acc'
  end.

(** [String(n)], and [n] in a template literal, for a safe integer [n]:
    one of magnitude below 2^53, where every integer is a Number and
    JavaScript prints each of its digits.  Beyond that a Number prints the
    shortest digits that read back as itself, which this function does not
    follow. *)
Definition Number_toString (n : Z) : string :=
  if n <? 0
  then String "-" (decimal_digits (S (Z.to_nat (Z.log2 (- n)))) (- n) "")
  else decimal_digits (S (Z.to_nat (Z.log2 n))) n "".

(** The query parameters [taskService.getAll(filters)] appends, as the
    server reads them back from [req.query]: [status] and [employee_id]. *)
Definition tasks_query (filters : option TaskFilters)
  : option string * option string :=
  match filters with
  | None => (None, None)
  | Some f =>
      (match f_status f with
       | Some s => if String.eqb s "" then None else Some s
       | None => None
       end,
       match f_employeeId f with
       | Some i => if i =? 0 then None else Some (Number_toString i)
       | None => None
       end)
  end.

End Client.

(* ================================================================== *)
(** ** The routes as one dispatcher *)
(* ================================================================== *)

(** The requests [registerRoutes] serves (the health probe apart), with the
    path parameter, query values and body each one reads. *)
Inductive request :=
| ReqGetEmployees
| ReqGetEmployee (id : string)
| ReqPostEmployee (body : Routes.json) (now : string)
| ReqPutEmployee (id : string) (body : Routes.json)
| ReqDeleteEmployee (id : string)
| ReqGetTasks (status employee_id : option string)
| ReqGetTask (id : string)
| ReqPostTask (body : Routes.json) (now : string)
| ReqPutTask (id : string) (body : Routes.json) (now : string)
| ReqDeleteTask (id : string)
| ReqGetDashboard.

Definition handle (email_format : string -> bool) (r : request)
  : database -> Routes.Response * database :=
  match r with
  | ReqGetEmployees => Routes.GET_employees
  | ReqGetEmployee id => Routes.GET_employees_id id
  | ReqPostEmployee body now => Routes.POST_employees email_format body now
  | ReqPutEmployee id body => Routes.PUT_employees_id email_format id body
  | ReqDeleteEmployee id => Routes.DELETE_employees_id id
  | ReqGetTasks status employee_id => Routes.GET_tasks status employee_id
  | ReqGetTask id => Routes.GET_tasks_id id
  | ReqPostTask body now => Routes.POST_tasks body now
  | ReqPutTask id body now => Routes.PUT_tasks_id id body now
  | ReqDeleteTask id => Routes.DELETE_tasks_id id
  | ReqGetDashboard => Routes.GET_dashboard
  end.

(** The database after a sequence of requests. *)
Definition serve (email_format : string -> bool) (rs : list request)
    (db : database) : database :=
  fold_left (fun db r => snd (handle email_format r db)) rs db.

(** Row ids are positive and at most the AUTOINCREMENT counter of their
    table. *)
Definition rowids_assigned (db : database) : Prop :=
  (forall e, In e (employees db) -> 1 <= e_id e <= employees_seq db)
  /\ (forall t, In t (tasks db) -> 1 <= t_id t <= tasks_seq db)
  /\ 0 <= employees_seq db /\ 0 <= tasks_seq db.

(** The sum of the task counts of the dashboard. *)
Definition total_count (rows : list EmployeeTaskCount) : Z :=
  fold_right (fun r acc => c_taskCount r + acc) 0 rows.

(** [db'] comes after [db]: the AUTOINCREMENT counters have not gone back,
    and every row of [db'] either has the id of a row of [db] or an id
    above the counter of [db]. *)
Definition grows (db db' : database) : Prop :=
  employees_seq db <= employees_seq db'
  /\ tasks_seq db <= tasks_seq db'
  /\ (forall e, In e (employees db') ->
        (exists e0, In e0 (employees db) /\ e_id e0 = e_id e)
        \/ employees_seq db < e_id e)
  /\ (forall t, In t (tasks db') ->
        (exists t0, In t0 (tasks db) /\ t_id t0 = t_id t)
        \/ tasks_seq db < t_id t).

Definition advances (db db' : database) : Prop :=
  grows db db' /\ (rowids_assigned db -> rowids_assigned db').

(** Every run of a computation ends in a state related to its start. *)
Definition steps {A} (P : database -> database -> Prop) (m : M A) : Prop :=
  forall db, P db (snd (m db)).

(** One employee whose only task is completed. *)
Definition finished_db : database :=
  Eval vm_compute in
    run_all [ CreateEmployee
                (mkInsertEmployee "Asha Rao" "asha.rao@company.com" "Support" "Agent")
                "2025-01-01 00:00:00";
              CreateTask (mkInsertTask "Ticket" None (Some COMPLETED) 1 None None)
                "2025-01-02 00:00:00" ]
            empty_db.

(** A database whose only employee has been deleted. *)
Definition wiped_db : database :=
  Eval vm_compute in
    run_all [ CreateEmployee
                (mkInsertEmployee "Asha Rao" "asha.rao@company.com" "Support" "Agent")
                "2025-01-01 00:00:00";
              DeleteEmployee 1 ]
            empty_db.

(** The two loops of [seedDatabase], and the columns of their rows. *)
Definition seed_employee (now : string)
  : string * string * string * string -> M RunResult :=
  fun '(name, email, department, position) =>
    insert_employee name email department position now.

Definition seed_task (now : string)
  : string * string * TaskStatus * Z * string * TaskPriority -> M RunResult :=
  fun '(title, description, status, employee_id, due_date, priority) =>
    insert_task title (Some description) status employee_id
                (Some due_date) priority now.

Definition seed_email (row : string * string * string * string) : string :=
  snd (fst (fst row)).

Definition seed_employee_id
  (row : string * string * TaskStatus * Z * string * TaskPriority) : Z :=
  snd (fst (fst row)).

(** A request either leaves the database as it is, or it is answered 200 or
    201 and the database is the one a storage call leaves. *)
Definition served (db : database) (out : Routes.Response * database) : Prop :=
  (In (Routes.res_status (fst out)) [400; 404; 200; 201] /\ snd out = db)
  \/ (In (Routes.res_status (fst out)) [200; 201]
      /\ exists c, snd out = run c db).

(** The values of [status] that GET /api/tasks lets through: none, the
    empty string, and the three of the enumeration. *)
Definition status_accepted (status : option string) : bool :=
  match status with
  | Some s =>
      String.eqb s "" ||
      existsb (String.eqb s) ["pending"; "in-progress"; "completed"]
  | None => true
  end.

(* ================================================================== *)
(** * Properties *)
(* ================================================================== *)

(** ** Sorting *)

Section SortingFacts.
Context {A : Type}.
Variable leb : A -> A -> bool.

Lemma insert_by_perm x l : Permutation (x :: l) (insert_by leb x l).
Proof.
  induction l as [|y l IH]; simpl.
  - apply Permutation_refl.
  - destruct (leb x y).
    + apply Permutation_refl.
    + eapply perm_trans; [apply perm_swap|].
      now apply perm_skip.
Qed.

Lemma sort_by_perm l : Permutation l (sort_by leb l).
Proof.
  induction l as [|x l IH]; simpl.
  - constructor.
  - eapply perm_trans; [apply perm_skip, IH|].
    apply insert_by_perm.
Qed.

Lemma sort_by_In x l : In x (sort_by leb l) <-> In x l.
Proof.
  split; intros H.
  - eapply Permutation_in; [apply Permutation_sym, sort_by_perm|exact H].
  - eapply Permutation_in; [apply sort_by_perm|exact H].
Qed.

Hypothesis leb_total : forall a b, leb a b = true \/ leb b a = true.

Lemma insert_by_sorted x l :
  Sorted (fun a b => leb a b = true) l ->
  Sorted (fun a b => leb a b = true) (insert_by leb x l).
Proof.
  induction l as [|y l IH]; simpl; intros Hs.
  - repeat constructor.
  - inversion Hs as [|? ? Hs' Hhd]; subst.
    destruct (leb x y) eqn:E.
    + constructor; [exact Hs|]. now constructor.
    + assert (Hyx : leb y x = true).
      { destruct (leb_total x y) as [H|H]; [congruence|exact H]. }
      constructor; [now apply IH|].
      destruct l as [|z l]; simpl.
      * now constructor.
      * destruct (leb x z); constructor; trivial.
        now inversion Hhd.
Qed.

Lemma sort_by_sorted l : Sorted (fun a b => leb a b = true) (sort_by leb l).
Proof.
  induction l as [|x l IH]; simpl.
  - constructor.
  - now apply insert_by_sorted.
Qed.
End SortingFacts.

Lemma max_rowid_ge ids i : In i ids -> i <= max_rowid ids.
Proof.
  induction ids as [|j ids IH]; simpl; [tauto|].
  intros [->|H]; [lia|]. specialize (IH H). lia.
Qed.

(* ================================================================== *)
(** ** The monad *)
(* ================================================================== *)

Lemma preserves_ret {A} (a : A) : preserves (ret a).
Proof. intros db H; exact H. Qed.

Lemma preserves_query {A} (q : database -> A) : preserves (query q).
Proof. intros db H; exact H. Qed.

Lemma preserves_bind {A B} (m : M A) (k : A -> M B) :
  preserves m -> (forall a, preserves (k a)) -> preserves (bind m k).
Proof.
  intros Hm Hk db H. unfold bind.
  specialize (Hm db H).
  destruct (m db) as [[a|e] db']; simpl in *.
  - now apply Hk.
  - exact Hm.
Qed.

Create HintDb preserve.
#[local] Hint Resolve preserves_ret preserves_query : preserve.

(* ================================================================== *)
(** ** The statements keep the keys *)
(* ================================================================== *)

Lemma has_employee_In db id :
  has_employee db id = true <-> exists e, In e (employees db) /\ e_id e = id.
Proof.
  unfold has_employee. rewrite existsb_exists.
  split; intros [e [He Hid]]; exists e; split; trivial.
  - now apply Z.eqb_eq.
  - now apply Z.eqb_eq.
Qed.

Lemma next_rowid_fresh seq ids : ~ In (next_rowid seq ids) ids.
Proof.
  intros H. apply max_rowid_ge in H. unfold next_rowid in H. lia.
Qed.

Lemma NoDup_snoc {A} (l : list A) (x : A) :
  NoDup l -> ~ In x l -> NoDup (l ++ [x]).
Proof.
  intros Hl Hx. apply NoDup_app; trivial.
  - repeat constructor. intros [].
  - intros a Ha [<-|[]]. contradiction.
Qed.

Lemma NoDup_map_filter {Row K} (key : Row -> K) (keep : Row -> bool) rows :
  NoDup (map key rows) -> NoDup (map key (filter keep rows)).
Proof.
  induction rows as [|r rows IH]; simpl; intros H; [constructor|].
  apply NoDup_cons_iff in H. destruct H as [Hfresh Hrest].
  destruct (keep r); simpl; [apply NoDup_cons|]; auto.
  intros Hin. apply Hfresh.
  apply in_map_iff in Hin. destruct Hin as [r' [Hkey Hin]].
  apply filter_In in Hin. apply in_map_iff. exists r'. tauto.
Qed.

Lemma preserves_insert_employee name email department position now :
  preserves (insert_employee name email department position now).
Proof.
  intros db [Hpe Hue Hpt Hfk]. unfold insert_employee.
  destruct (existsb _ _) eqn:Htaken; simpl; [now constructor|].
  constructor; simpl.
  - rewrite map_app. simpl. apply NoDup_snoc; trivial. apply next_rowid_fresh.
  - rewrite map_app. simpl. apply NoDup_snoc; trivial.
    intros Hin. apply in_map_iff in Hin. destruct Hin as [e [Heq He]].
    assert (existsb (fun e => String.eqb (e_email e) email) (employees db) = true).
    { apply existsb_exists. exists e. split; trivial. now apply String.eqb_eq. }
    congruence.
  - exact Hpt.
  - intros t Ht. specialize (Hfk t Ht).
    apply has_employee_In in Hfk. destruct Hfk as [e [He Hid]].
    apply has_employee_In. exists e. simpl. split; trivial.
    apply in_or_app. now left.
Qed.

Lemma map_id_update {A} (key : A -> Z) (f : A -> A) (id : Z) (l : list A) :
  (forall a, key (f a) = key a) ->
  map key (map (fun a => if key a =? id then f a else a) l) = map key l.
Proof.
  intros Hf. rewrite map_map. apply map_ext.
  intros a. destruct (key a =? id); auto.
Qed.

(** Writing a new email into the row [id] keeps the emails distinct when no
    other row holds it. *)
Lemma update_email_NoDup id p rows :
  NoDup (map e_id rows) -> NoDup (map e_email rows) ->
  (forall em, pe_email p = Some em ->
     forall e, In e rows -> e_id e <> id -> e_email e <> em) ->
  NoDup (map e_email
           (map (fun e => if e_id e =? id then apply_employee_sets p e else e) rows)).
Proof.
  intros Hid Hem Hfree.
  destruct (pe_email p) as [em|] eqn:Hp.
  - specialize (Hfree em eq_refl).
    induction rows as [|e rows IH]; simpl; [constructor|].
    simpl in Hid, Hem.
    apply NoDup_cons_iff in Hid. destruct Hid as [Hid_fresh Hid].
    apply NoDup_cons_iff in Hem. destruct Hem as [Hem_fresh Hem].
    assert (IH' := IH Hid Hem (fun e' He' => Hfree e' (or_intror He'))).
    constructor; [|exact IH'].
    rewrite map_map. intros Hin. apply in_map_iff in Hin.
    destruct Hin as [e' [Heq He']].
    destruct (Z.eqb_spec (e_id e) id) as [Heid|Heid].
    + (* the head is the row written: the others keep their email *)
      assert (Hne : e_id e' <> id).
      { intros Heq'. apply Hid_fresh. rewrite Heid, <- Heq'. now apply in_map. }
      destruct (Z.eqb_spec (e_id e') id); [contradiction|].
      unfold apply_employee_sets in Heq. simpl in Heq. rewrite Hp in Heq.
      simpl in Heq. now apply (Hfree e' (or_intror He') Hne).
    + destruct (Z.eqb_spec (e_id e') id) as [Heid'|Heid'].
      * unfold apply_employee_sets in Heq. simpl in Heq. rewrite Hp in Heq.
        simpl in Heq. symmetry in Heq.
        now apply (Hfree e (or_introl eq_refl) Heid).
      * apply Hem_fresh. rewrite <- Heq. now apply in_map.
  - rewrite map_map.
    erewrite map_ext; [exact Hem|].
    intros e. destruct (e_id e =? id); [|reflexivity].
    unfold apply_employee_sets. simpl. now rewrite Hp.
Qed.

Lemma preserves_update_employee id p : preserves (update_employee id p).
Proof.
  intros db [Hpe Hue Hpt Hfk]. unfold update_employee.
  destruct (has_employee db id); simpl; [|now constructor].
  destruct (match pe_email p with Some _ => _ | None => _ end) eqn:Hclash; simpl;
    [now constructor|].
  constructor; simpl.
  - now rewrite (map_id_update e_id (apply_employee_sets p)).
  - apply update_email_NoDup; trivial.
    intros em Hp e He Hne Heq. rewrite Hp in Hclash.
    assert (existsb (fun e => negb (e_id e =? id) && String.eqb (e_email e) em)
              (employees db) = true); [|congruence].
    apply existsb_exists. exists e. split; trivial.
    apply andb_true_iff. split.
    + now apply negb_true_iff, Z.eqb_neq.
    + now apply String.eqb_eq.
  - exact Hpt.
  - intros t Ht. specialize (Hfk t Ht).
    unfold has_employee in *. simpl.
    rewrite existsb_exists in *. destruct Hfk as [e [He Hid]].
    exists (if e_id e =? id then apply_employee_sets p e else e). split.
    + apply in_map_iff. now exists e.
    + destruct (e_id e =? id); exact Hid.
Qed.

Lemma preserves_delete_employee id : preserves (delete_employee id).
Proof.
  intros db [Hpe Hue Hpt Hfk]. unfold delete_employee.
  destruct (has_employee db id); simpl; [|now constructor].
  constructor; simpl.
  - now apply NoDup_map_filter.
  - now apply NoDup_map_filter.
  - now apply NoDup_map_filter.
  - intros t Ht. apply filter_In in Ht. destruct Ht as [Ht Hne].
    specialize (Hfk t Ht). apply has_employee_In in Hfk.
    destruct Hfk as [e [He Hid]].
    apply has_employee_In. exists e. simpl. split; trivial.
    apply filter_In. split; trivial. now rewrite Hid.
Qed.

Lemma preserves_insert_task title description status employee_id due_date
    priority now :
  preserves (insert_task title description status employee_id due_date priority now).
Proof.
  intros db [Hpe Hue Hpt Hfk]. unfold insert_task.
  destruct (has_employee db employee_id) eqn:Hemp; simpl; [|now constructor].
  constructor; simpl.
  - exact Hpe.
  - exact Hue.
  - rewrite map_app. simpl. apply NoDup_snoc; trivial. apply next_rowid_fresh.
  - intros t Ht. apply in_app_or in Ht. destruct Ht as [Ht|[<-|[]]].
    + now apply Hfk.
    + exact Hemp.
Qed.

Lemma preserves_update_task id p now : preserves (update_task id p now).
Proof.
  intros db [Hpe Hue Hpt Hfk]. unfold update_task.
  destruct (existsb _ (tasks db)); simpl; [|now constructor].
  destruct (pt_employeeId p) as [eid|] eqn:Heid; simpl.
  - destruct (has_employee db eid) eqn:Hemp; simpl; [|now constructor].
    constructor; simpl; trivial.
    + now rewrite (map_id_update t_id (apply_task_sets p now)).
    + intros t Ht. apply in_map_iff in Ht. destruct Ht as [t0 [<- Ht0]].
      destruct (t_id t0 =? id); [|now apply Hfk].
      unfold has_employee in *. simpl. now rewrite Heid.
  - constructor; simpl; trivial.
    + now rewrite (map_id_update t_id (apply_task_sets p now)).
    + intros t Ht. apply in_map_iff in Ht. destruct Ht as [t0 [<- Ht0]].
      specialize (Hfk t0 Ht0).
      destruct (t_id t0 =? id); trivial.
      unfold has_employee in *. simpl. now rewrite Heid.
Qed.

Lemma preserves_delete_task id : preserves (delete_task id).
Proof.
  intros db [Hpe Hue Hpt Hfk]. unfold delete_task.
  destruct (existsb _ (tasks db)); simpl; [|now constructor].
  constructor; simpl; trivial.
  - now apply NoDup_map_filter.
  - intros t Ht. apply filter_In in Ht. now apply Hfk.
Qed.

#[local] Hint Resolve preserves_insert_employee preserves_update_employee
  preserves_delete_employee preserves_insert_task preserves_update_task
  preserves_delete_task : preserve.

Lemma preserves_for_of {A} (xs : list A) (run : A -> M RunResult) :
  (forall x, preserves (run x)) -> preserves (Seed.for_of xs run).
Proof.
  intros Hrun. induction xs as [|x xs IH]; simpl.
  - apply preserves_ret.
  - apply preserves_bind; [apply Hrun|]. intros _. exact IH.
Qed.

Lemma preserves_seedDatabase now : preserves (Seed.seedDatabase now).
Proof.
  unfold Seed.seedDatabase.
  apply preserves_bind; [apply preserves_query|]. intros n.
  destruct (0 <? n); [apply preserves_ret|].
  apply preserves_bind.
  - apply preserves_for_of. intros [[[? ?] ?] ?]. auto with preserve.
  - intros _. apply preserves_for_of. intros [[[[[? ?] ?] ?] ?] ?].
    auto with preserve.
Qed.

Lemma preserves_run c : forall db, consistent db -> consistent (run c db).
Proof.
  destruct c; simpl.
  - apply preserves_bind; auto with preserve.
  - apply preserves_bind; auto with preserve.
    intros [e|]; [|auto with preserve].
    destruct (no_employee_field employee); auto with preserve.
    apply preserves_bind; auto with preserve.
  - apply preserves_bind; auto with preserve.
  - apply preserves_bind; auto with preserve.
  - apply preserves_bind; auto with preserve.
    intros [t|]; [|auto with preserve].
    apply preserves_bind; auto with preserve.
  - apply preserves_bind; auto with preserve.
  - apply preserves_seedDatabase.
Qed.

Lemma consistent_empty : consistent empty_db.
Proof. constructor; simpl; [constructor|constructor|constructor|intros t []]. Qed.

Lemma reachable_consistent db : reachable db -> consistent db.
Proof.
  induction 1 as [|c db _ IH].
  - apply consistent_empty.
  - now apply preserves_run.
Qed.

(* ================================================================== *)
(** ** Listings *)
(* ================================================================== *)

Lemma filter_all {A} (p : A -> bool) (l : list A) :
  (forall a, In a l -> p a = true) -> filter p l = l.
Proof.
  induction l as [|a l IH]; simpl; intros H; [reflexivity|].
  rewrite (H a (or_introl eq_refl)). f_equal. apply IH. auto.
Qed.

Lemma join_employees_In db ts t e :
  In (t, e) (join_employees db ts) <->
  In t ts /\ In e (employees db) /\ t_employeeId t = e_id e.
Proof.
  unfold join_employees. rewrite in_flat_map. split.
  - intros [t0 [Ht0 Hin]]. apply in_map_iff in Hin.
    destruct Hin as [e0 [Heq He0]]. inversion Heq; subst.
    apply filter_In in He0. destruct He0 as [He0 Hid].
    apply Z.eqb_eq in Hid. auto.
  - intros [Ht [He Hid]]. exists t. split; trivial.
    apply in_map_iff. exists e. split; trivial.
    apply filter_In. split; trivial. now apply Z.eqb_eq.
Qed.

(** The rows of [getAllTasks]: the tasks that pass the conditions, each with
    the name of the employee row it joins. *)
Lemma getAllTasks_In filters db r :
  In r (getAllTasks filters db) <->
  exists t e,
    r = mkTaskRow t (e_name e) /\
    In t (tasks db) /\ In e (employees db) /\ t_employeeId t = e_id e /\
    status_condition (match filters with Some f => f_status f | None => None end) t = true /\
    employee_condition (match filters with Some f => f_employeeId f | None => None end) t = true.
Proof.
  unfold getAllTasks. rewrite in_map_iff. split.
  - intros [[t e] [<- Hin]]. apply sort_by_In in Hin.
    apply filter_In in Hin. destruct Hin as [Hin Hc].
    apply join_employees_In in Hin. apply andb_true_iff in Hc.
    exists t, e. simpl in *. tauto.
  - intros [t [e [-> [Ht [He [Hid [Hs Hc]]]]]]].
    exists (t, e). split; trivial.
    apply sort_by_In. apply filter_In. split.
    + apply join_employees_In. auto.
    + simpl. now rewrite Hs, Hc.
Qed.

(* ================================================================== *)
(** ** Deleting an employee *)
(* ================================================================== *)

(** C1.  In every reachable state each task references an existing employee,
    and [deleteEmployee id] leaves exactly the employees other than [id] and
    exactly the tasks of the other employees: neither [getAllEmployees] nor
    [getAllTasks] (nor the [tasks] table itself) shows anything of [id]
    afterwards, and the state reached is again one in which every task has
    its employee. *)
Theorem deleteEmployee_cascades (db : database) :
  reachable db ->
  (forall t, In t (tasks db) ->
     exists e, In e (employees db) /\ e_id e = t_employeeId t)
  /\
  forall id,
    let db' := snd (deleteEmployee id db) in
    fst (deleteEmployee id db) = Return (has_employee db id)
    /\ employees db' = filter (fun e => negb (e_id e =? id)) (employees db)
    /\ tasks db' = filter (fun t => negb (t_employeeId t =? id)) (tasks db)
    /\ (forall e, In e (getAllEmployees db') -> e_id e <> id)
    /\ (forall r, In r (getAllTasks None db') -> t_employeeId (tr_task r) <> id)
    /\ (forall t, In t (tasks db') ->
          exists e, In e (employees db') /\ e_id e = t_employeeId t).
Proof.
  intros Hreach.
  pose proof (reachable_consistent db Hreach) as Hc.
  split.
  - intros t Ht. apply has_employee_In. now apply (fk_tasks db Hc).
  - intros id db'.
    assert (Hdb' : consistent db').
    { apply reachable_consistent. apply (reachable_call (DeleteEmployee id)), Hreach. }
    assert (He : employees db' = filter (fun e => negb (e_id e =? id)) (employees db)).
    { subst db'. unfold deleteEmployee, bind, delete_employee.
      destruct (has_employee db id) eqn:Hhas; simpl; [reflexivity|].
      symmetry. apply filter_all. intros e Hin.
      destruct (e_id e =? id) eqn:E; [|reflexivity].
      apply Z.eqb_eq in E.
      assert (has_employee db id = true) by (apply has_employee_In; eauto).
      congruence. }
    assert (Ht : tasks db' = filter (fun t => negb (t_employeeId t =? id)) (tasks db)).
    { subst db'. unfold deleteEmployee, bind, delete_employee.
      destruct (has_employee db id) eqn:Hhas; simpl; [reflexivity|].
      symmetry. apply filter_all. intros t Hin.
      destruct (t_employeeId t =? id) eqn:E; [|reflexivity].
      apply Z.eqb_eq in E. pose proof (fk_tasks db Hc t Hin). congruence. }
    repeat split.
    + unfold deleteEmployee, bind, delete_employee.
      destruct (has_employee db id); reflexivity.
    + exact He.
    + exact Ht.
    + intros e Hin. apply sort_by_In in Hin. rewrite He in Hin.
      apply filter_In in Hin. destruct Hin as [_ Hne].
      apply negb_true_iff, Z.eqb_neq in Hne. exact Hne.
    + intros r Hin. apply getAllTasks_In in Hin.
      destruct Hin as [t [e [-> [Hin _]]]]. simpl.
      rewrite Ht in Hin. apply filter_In in Hin. destruct Hin as [_ Hne].
      apply negb_true_iff, Z.eqb_neq in Hne. exact Hne.
    + intros t Hin. apply has_employee_In. now apply (fk_tasks db' Hdb').
Qed.

(** The seeded database is reachable; deleting employee 1 there removes the
    three tasks of that employee. *)
Lemma deleteEmployee_cascades_witness :
  reachable seeded_db /\
  List.length (tasks seeded_db) = 24%nat /\
  List.length (tasks (snd (deleteEmployee 1 seeded_db))) = 21%nat /\
  forall r, In r (getAllTasks None (snd (deleteEmployee 1 seeded_db))) ->
            t_employeeId (tr_task r) <> 1.
Proof.
  assert (H : reachable seeded_db).
  { exact (reachable_call (SeedDatabase "2025-01-01 00:00:00") empty_db
             reachable_empty). }
  split; [exact H|].
  split; [reflexivity|].
  split; [reflexivity|].
  exact (proj1 (proj2 (proj2 (proj2 (proj2
           (proj2 (deleteEmployee_cascades seeded_db H) 1)))))).
Defined.

(* ================================================================== *)
(** ** Unique emails *)
(* ================================================================== *)

Lemma email_taken db email :
  existsb (fun e => String.eqb (e_email e) email) (employees db) = true <->
  exists e, In e (employees db) /\ e_email e = email.
Proof.
  rewrite existsb_exists.
  split; intros [e [He Heq]]; exists e; split; trivial;
    now apply String.eqb_eq.
Qed.

Lemma find_snoc_fresh {Row} (key : Row -> Z) rows row :
  ~ In (key row) (map key rows) ->
  find (fun r => key r =? key row) (rows ++ [row]) = Some row.
Proof.
  induction rows as [|r rows IH]; simpl; intros Hfresh.
  - now rewrite Z.eqb_refl.
  - destruct (key r =? key row) eqn:E.
    + apply Z.eqb_eq in E. exfalso. apply Hfresh. now left.
    + apply IH. intros Hin. apply Hfresh. now right.
Qed.

Lemma createEmployee_inserts data now db :
  existsb (fun e => String.eqb (e_email e) (ie_email data)) (employees db) = false ->
  let row := mkEmployee (next_rowid (employees_seq db) (map e_id (employees db)))
               (ie_name data) (ie_email data) (ie_department data)
               (ie_position data) now in
  createEmployee data now db =
  (Return (Some row),
   mkDb (employees db ++ [row]) (e_id row) (tasks db) (tasks_seq db)).
Proof.
  intros Hfree row. unfold createEmployee, bind, insert_employee.
  rewrite Hfree. unfold query, getEmployeeById, select_employee. simpl.
  f_equal. f_equal.
  apply (find_snoc_fresh e_id (employees db) row).
  apply next_rowid_fresh.
Qed.

(** C2.  For a body that passes [insertEmployeeSchema]: when some employee
    already has exactly the email of the body, [createEmployee] raises the
    UNIQUE failure, the handler answers 400 "Email already exists" and the
    database is the one before the request; when no employee has that
    email, the row is appended and the answer is 201. *)
Theorem POST_employees_duplicate_email
    (email_format : string -> bool) (db : database) (body : Routes.json)
    (data : InsertEmployee) (now : string) :
  Routes.insertEmployeeSchema email_format body = Routes.Success data ->
  ((exists e, In e (employees db) /\ e_email e = ie_email data) ->
     createEmployee data now db = (Throw UNIQUE_employees_email, db) /\
     Routes.POST_employees email_format body now db =
       (Routes.error 400 "Email already exists", db))
  /\
  ((forall e, In e (employees db) -> e_email e <> ie_email data) ->
     exists row,
       Routes.POST_employees email_format body now db =
         (Routes.mkResponse 201 (Routes.EmployeeBody (Some row)),
          mkDb (employees db ++ [row]) (e_id row) (tasks db) (tasks_seq db)) /\
       e_email row = ie_email data).
Proof.
  intros Hparse. split.
  - intros Hdup. apply email_taken in Hdup.
    assert (Hthrow : createEmployee data now db = (Throw UNIQUE_employees_email, db)).
    { unfold createEmployee, bind, insert_employee. now rewrite Hdup. }
    split; [exact Hthrow|].
    unfold Routes.POST_employees, Routes.try_catch. rewrite Hparse.
    unfold bind. now rewrite Hthrow.
  - intros Hfree.
    assert (Hno : existsb (fun e => String.eqb (e_email e) (ie_email data))
                    (employees db) = false).
    { destruct (existsb _ _) eqn:E; [|reflexivity].
      apply email_taken in E. destruct E as [e [He Heq]].
      now destruct (Hfree e He). }
    eexists. split.
    + unfold Routes.POST_employees, Routes.try_catch. rewrite Hparse.
      unfold bind. rewrite (createEmployee_inserts data now db Hno).
      reflexivity.
    + reflexivity.
Qed.

(** A second "raj.patel@company.com" is refused on the seeded database. *)
Lemma POST_employees_duplicate_email_witness :
  Routes.POST_employees contains_at raj_again "2025-03-01 10:00:00" seeded_db =
  (Routes.error 400 "Email already exists", seeded_db).
Proof.
  refine (proj2 (proj1 (POST_employees_duplicate_email contains_at seeded_db
            raj_again
            (mkInsertEmployee "Raj P." "raj.patel@company.com" "Engineering" "Developer")
            "2025-03-01 10:00:00" eq_refl) _)).
  exists (mkEmployee 1 "Raj Patel" "raj.patel@company.com" "Engineering"
            "Senior Developer" "2025-01-01 00:00:00").
  split; [left; reflexivity|reflexivity].
Defined.

(** C10.  [updateEmployee] raises only for the UNIQUE failure on [email], it
    does so exactly when the employee exists and the supplied email is held
    by another employee, and the database it leaves is the one it was given:
    no row, of that employee or of any other, is modified. *)
Theorem updateEmployee_duplicate_email (db : database) (id : Z)
    (p : PartialInsertEmployee) :
  (forall err db',
     updateEmployee id p db = (Throw err, db') ->
     err = UNIQUE_employees_email /\ db' = db /\
     getEmployeeById id db' = getEmployeeById id db)
  /\
  (forall em,
     pe_email p = Some em ->
     (exists e, In e (employees db) /\ e_id e = id) ->
     (exists other, In other (employees db) /\ e_id other <> id /\ e_email other = em) ->
     updateEmployee id p db = (Throw UNIQUE_employees_email, db)).
Proof.
  split.
  - intros err db' H.
    assert (Hboth : err = UNIQUE_employees_email /\ db' = db).
    { revert H. unfold updateEmployee, bind, query.
      destruct (getEmployeeById id db) as [e|]; [|discriminate].
      destruct (no_employee_field p); [discriminate|].
      unfold update_employee.
      destruct (has_employee db id); [|discriminate].
      destruct (match pe_email p with Some _ => _ | None => _ end); [|discriminate].
      intros H. inversion H; subst. auto. }
    destruct Hboth as [-> ->]. auto.
  - intros em Hem Hex [other [Hin [Hne Heq]]].
    apply has_employee_In in Hex.
    unfold updateEmployee, bind, query, getEmployeeById, select_employee.
    destruct (find _ _) as [e|] eqn:Hfind.
    + unfold no_employee_field. rewrite Hem.
      destruct (pe_name p); unfold update_employee; rewrite Hex, Hem;
        (replace (existsb _ (employees db)) with true; [reflexivity|]);
        symmetry; apply existsb_exists; exists other; (split; [exact Hin|]);
        (apply andb_true_iff; split;
         [now apply negb_true_iff, Z.eqb_neq|now apply String.eqb_eq]).
    + unfold has_employee in Hex. apply existsb_exists in Hex.
      destruct Hex as [e [He Hid]].
      now rewrite (find_none _ _ Hfind e He) in Hid.
Qed.

(** Giving employee 2 the email of employee 1 is refused on the seeded
    database, which stays as it was. *)
Lemma updateEmployee_duplicate_email_witness :
  updateEmployee 2 (mkPartialInsertEmployee None (Some "raj.patel@company.com") None None)
    seeded_db = (Throw UNIQUE_employees_email, seeded_db).
Proof.
  refine (proj2 (updateEmployee_duplicate_email seeded_db 2
            (mkPartialInsertEmployee None (Some "raj.patel@company.com") None None))
            "raj.patel@company.com" eq_refl _ _).
  - exists (mkEmployee 2 "Priya Sharma" "priya.sharma@company.com" "Marketing"
              "Content Manager" "2025-01-01 00:00:00").
    split; [right; left; reflexivity|reflexivity].
  - exists (mkEmployee 1 "Raj Patel" "raj.patel@company.com" "Engineering"
              "Senior Developer" "2025-01-01 00:00:00").
    split; [left; reflexivity|]. split; [discriminate|reflexivity].
Defined.

(* ================================================================== *)
(** ** Tasks and the employee they reference *)
(* ================================================================== *)

Lemma getEmployeeById_None db id :
  getEmployeeById id db = None <-> has_employee db id = false.
Proof.
  unfold getEmployeeById, select_employee, has_employee. split; intros H.
  - destruct (existsb _ _) eqn:E; [|reflexivity].
    apply existsb_exists in E. destruct E as [e [He Hid]].
    now rewrite (find_none _ _ H e He) in Hid.
  - destruct (find _ _) as [e|] eqn:E; [|reflexivity].
    apply find_some in E.
    assert (existsb (fun e => e_id e =? id) (employees db) = true)
      by (apply existsb_exists; eauto).
    congruence.
Qed.

(** A validated [employeeId] is a positive integer. *)
Lemma employee_id_number_positive v eid :
  Routes.employee_id_number v = ([], Some eid) -> 0 < eid.
Proof.
  destruct v as [[| |num den| | |]|]; simpl; try discriminate.
  unfold Routes.with_checks, Routes.check.
  destruct (num mod Z.pos den =? 0) eqn:Hint; simpl;
    destruct (0 <? num) eqn:Hpos; simpl; try discriminate.
  intros H. inversion H; subst.
  apply Z.eqb_eq in Hint. apply Z.ltb_lt in Hpos.
  pose proof (Z.div_mod num (Z.pos den) ltac:(lia)) as Hdm.
  rewrite Hint in Hdm. nia.
Qed.

(** Closes the branches of a schema in which some property has an issue. *)
Ltac schema_failure :=
  repeat match goal with
         | |- context [match ?r with pair _ _ => _ end] => destruct r
         end;
  discriminate.

Ltac schema_property r :=
  destruct r as [[|] [|]]; try schema_failure.

Lemma partialTaskSchema_employeeId body p eid :
  Routes.partialTaskSchema body = Routes.Success p ->
  pt_employeeId p = Some eid -> 0 < eid.
Proof.
  unfold Routes.partialTaskSchema.
  destruct body as [| | | | |o]; try discriminate.
  schema_property (Routes.optional Routes.title_rule (Routes.prop o "title")).
  schema_property (Routes.description_rule (Routes.prop o "description")).
  schema_property (Routes.optional Routes.status_rule (Routes.prop o "status")).
  destruct (Routes.optional Routes.employee_id_number (Routes.prop o "employeeId"))
    as [[|] [e|]] eqn:He; try schema_failure.
  schema_property (Routes.due_date_rule (Routes.prop o "dueDate")).
  schema_property (Routes.optional Routes.priority_rule (Routes.prop o "priority")).
  intros H Heid. inversion H; subst. simpl in Heid. subst e.
  unfold Routes.optional in He.
  destruct (Routes.prop o "employeeId") as [v|]; [|discriminate].
  destruct (Routes.employee_id_number (Some v)) as [issues [z|]] eqn:Hrule;
    inversion He; subst.
  now apply (employee_id_number_positive (Some v)).
Qed.

Lemma PUT_tasks_id_unknown_employee db id_param patch p eid now :
  Routes.partialTaskSchema patch = Routes.Success p ->
  pt_employeeId p = Some eid ->
  getEmployeeById eid db = None ->
  Routes.res_status (fst (Routes.PUT_tasks_id id_param patch now db)) = 400
  /\ snd (Routes.PUT_tasks_id id_param patch now db) = db.
Proof.
  intros Hp Heid Hnone.
  pose proof (partialTaskSchema_employeeId patch p eid Hp Heid) as Hpos.
  unfold Routes.PUT_tasks_id, Routes.try_catch.
  destruct (Js.parseInt id_param); [|split; reflexivity].
  rewrite Hp. unfold bind, query, Routes.employee_missing.
  rewrite Heid, Hnone.
  destruct (eid =? 0) eqn:E; [apply Z.eqb_eq in E; lia|split; reflexivity].
Qed.

(** C6.  When the [employeeId] of the body of POST /api/tasks names no
    employee, the answer is 400 and the database is untouched: for a body
    that passes validation the answer is 400 "Employee not found" (and the
    INSERT itself would be refused by the foreign key); a body that fails
    validation is answered 400 as well.  PUT /api/tasks/:id answers 400 in
    the same way when the [employeeId] it is given names no employee. *)
Theorem POST_tasks_unknown_employee (db : database) (body : Routes.json)
    (now : string) :
  (forall data, Routes.insertTaskSchema body = Routes.Success data ->
                getEmployeeById (it_employeeId data) db = None) ->
  Routes.res_status (fst (Routes.POST_tasks body now db)) = 400
  /\ snd (Routes.POST_tasks body now db) = db
  /\ (forall data, Routes.insertTaskSchema body = Routes.Success data ->
        Routes.POST_tasks body now db = (Routes.error 400 "Employee not found", db)
        /\ createTask data now db = (Throw FOREIGN_KEY, db))
  /\ (forall id_param patch p eid,
        Routes.partialTaskSchema patch = Routes.Success p ->
        pt_employeeId p = Some eid ->
        getEmployeeById eid db = None ->
        Routes.res_status (fst (Routes.PUT_tasks_id id_param patch now db)) = 400
        /\ snd (Routes.PUT_tasks_id id_param patch now db) = db).
Proof.
  intros Hmissing.
  assert (Hvalid : forall data,
            Routes.insertTaskSchema body = Routes.Success data ->
            Routes.POST_tasks body now db = (Routes.error 400 "Employee not found", db)
            /\ createTask data now db = (Throw FOREIGN_KEY, db)).
  { intros data Hparse. specialize (Hmissing data Hparse). split.
    - unfold Routes.POST_tasks, Routes.try_catch. rewrite Hparse.
      unfold bind, query. now rewrite Hmissing.
    - apply getEmployeeById_None in Hmissing.
      unfold createTask, bind, insert_task. now rewrite Hmissing. }
  assert (Hput : forall id_param patch p eid,
            Routes.partialTaskSchema patch = Routes.Success p ->
            pt_employeeId p = Some eid ->
            getEmployeeById eid db = None ->
            Routes.res_status (fst (Routes.PUT_tasks_id id_param patch now db)) = 400
            /\ snd (Routes.PUT_tasks_id id_param patch now db) = db).
  { intros. eapply PUT_tasks_id_unknown_employee; eauto. }
  destruct (Routes.insertTaskSchema body) as [data|errors] eqn:Hparse.
  - destruct (Hvalid data eq_refl) as [Hpost Hcreate].
    rewrite Hpost. simpl. split; [reflexivity|]. split; [reflexivity|].
    split; [|exact Hput]. intros data' Heq. inversion Heq; subst.
    split; [reflexivity|exact Hcreate].
  - assert (Hpost : Routes.POST_tasks body now db =
                    (Routes.validation_error errors, db)).
    { unfold Routes.POST_tasks, Routes.try_catch. now rewrite Hparse. }
    rewrite Hpost. simpl. split; [reflexivity|]. split; [reflexivity|].
    split; [|exact Hput]. intros data Heq. discriminate.
Qed.

(** No employee 99 exists in the seeded database: the request is answered
    400 and nothing is written. *)
Lemma POST_tasks_unknown_employee_witness :
  Routes.POST_tasks task_for_99 "2025-03-01 10:00:00" seeded_db =
  (Routes.error 400 "Employee not found", seeded_db).
Proof.
  assert (Hmissing : forall data,
            Routes.insertTaskSchema task_for_99 = Routes.Success data ->
            getEmployeeById (it_employeeId data) seeded_db = None).
  { intros data H. vm_compute in H. inversion H; subst. reflexivity. }
  exact (proj1 (proj1 (proj2 (proj2
           (POST_tasks_unknown_employee seeded_db task_for_99
              "2025-03-01 10:00:00" Hmissing)))
           (mkInsertTask "Audit the archive" None (Some PENDING) 99 None
              (Some MEDIUM)) eq_refl)).
Defined.

(* ================================================================== *)
(** ** Creating a task *)
(* ================================================================== *)

Lemma or_null_spec v : text_or_null v (or_null v).
Proof.
  destruct v as [[s|]|]; simpl; trivial.
  destruct (string_dec s "") as [->|Hne]; [reflexivity|].
  destruct (String.eqb s "") eqn:E; [|reflexivity].
  apply String.eqb_eq in E. contradiction.
Qed.

(** A due date that passed validation is never the empty string. *)
Lemma insertTaskSchema_dueDate body data :
  Routes.insertTaskSchema body = Routes.Success data ->
  it_dueDate data <> Some (Some "").
Proof.
  unfold Routes.insertTaskSchema.
  destruct body as [| | | | |o]; try discriminate.
  schema_property (Routes.title_rule (Routes.prop o "title")).
  schema_property (Routes.description_rule (Routes.prop o "description")).
  schema_property (Routes.with_default Routes.status_rule PENDING (Routes.prop o "status")).
  schema_property (Routes.employee_id_number (Routes.prop o "employeeId")).
  destruct (Routes.due_date_rule (Routes.prop o "dueDate")) as [[|] [dd|]] eqn:Hdd;
    try schema_failure.
  schema_property (Routes.with_default Routes.priority_rule MEDIUM (Routes.prop o "priority")).
  intros H. inversion H; subst. simpl. intros ->.
  unfold Routes.due_date_rule, Routes.nullable_string in Hdd.
  destruct (Routes.prop o "dueDate") as [[| | |due| |]|]; try discriminate.
  destruct due; [discriminate|].
  unfold Routes.with_checks, Routes.check in Hdd.
  destruct (Routes.due_date_format _); simpl in Hdd; inversion Hdd.
Qed.

(** C7, amended.  For a payload whose [employeeId] names an employee,
    [createTask] appends one row and returns it; the row has the next id,
    the title and employeeId of the payload, the status supplied or
    [pending], the priority supplied or [medium], both timestamps [now], and
    for [description] and [dueDate] the string supplied when it is not empty,
    NULL otherwise.  For a payload produced by [insertTaskSchema] the due
    date is never empty, so it is stored exactly as supplied. *)
Theorem createTask_defaults (db : database) (task : InsertTask) (now : string) :
  has_employee db (it_employeeId task) = true ->
  exists row,
    createTask task now db =
      (Return (Some row),
       mkDb (employees db) (employees_seq db) (tasks db ++ [row]) (t_id row))
    /\ t_id row = next_rowid (tasks_seq db) (map t_id (tasks db))
    /\ ~ In (t_id row) (map t_id (tasks db))
    /\ t_title row = it_title task
    /\ t_employeeId row = it_employeeId task
    /\ supplied_or (it_status task) PENDING (t_status row)
    /\ supplied_or (it_priority task) MEDIUM (t_priority row)
    /\ text_or_null (it_description task) (t_description row)
    /\ text_or_null (it_dueDate task) (t_dueDate row)
    /\ (forall body, Routes.insertTaskSchema body = Routes.Success task ->
          t_dueDate row = match it_dueDate task with
                          | Some d => d
                          | None => None
                          end)
    /\ t_createdAt row = now
    /\ t_updatedAt row = now.
Proof.
  intros Hemp.
  set (row := mkTask (next_rowid (tasks_seq db) (map t_id (tasks db)))
                (it_title task) (or_null (it_description task))
                (match it_status task with Some s => s | None => PENDING end)
                (it_employeeId task) (or_null (it_dueDate task))
                (match it_priority task with Some p => p | None => MEDIUM end)
                now now).
  assert (Hfresh : ~ In (t_id row) (map t_id (tasks db)))
    by apply next_rowid_fresh.
  exists row. split.
  - unfold createTask, bind, insert_task. rewrite Hemp.
    unfold query, select_task. cbn [tasks lastInsertRowid].
    fold row. change (next_rowid (tasks_seq db) (map t_id (tasks db))) with (t_id row).
    now rewrite (find_snoc_fresh t_id (tasks db) row Hfresh).
  - cbn [t_id t_title t_employeeId t_status t_priority t_description t_dueDate
         t_createdAt t_updatedAt].
    repeat match goal with |- _ /\ _ => split end; trivial.
    + destruct (it_status task); reflexivity.
    + destruct (it_priority task); reflexivity.
    + apply or_null_spec.
    + apply or_null_spec.
    + intros body Hbody. apply insertTaskSchema_dueDate in Hbody.
      destruct (it_dueDate task) as [[s|]|]; simpl; trivial.
      destruct (String.eqb s "") eqn:E; [|reflexivity].
      apply String.eqb_eq in E. subst. contradiction.
Qed.

(** C7 as stated fails: a body whose description is the empty string passes
    validation, and the row created for it has a NULL description, not the
    empty string that was supplied. *)
Lemma createTask_defaults_counterexample :
  exists data row db',
    Routes.insertTaskSchema call_with_empty_description = Routes.Success data
    /\ it_description data = Some (Some "")
    /\ createTask data "2025-03-01 10:00:00" seeded_db = (Return (Some row), db')
    /\ t_description row = None
    /\ t_description row <> Some "".
Proof.
  eexists. eexists. eexists.
  split; [vm_compute; reflexivity|].
  split; [reflexivity|].
  split; [vm_compute; reflexivity|].
  split; [reflexivity|discriminate].
Qed.

(** A task for employee 1 of the seeded database, with nothing but a title:
    it is stored as a pending task of medium priority. *)
Lemma createTask_defaults_witness :
  exists row,
    fst (createTask (mkInsertTask "Call the client" None None 1 None None)
           "2025-03-01 10:00:00" seeded_db) = Return (Some row)
    /\ t_status row = PENDING /\ t_priority row = MEDIUM
    /\ t_description row = None /\ t_dueDate row = None.
Proof.
  destruct (createTask_defaults seeded_db
              (mkInsertTask "Call the client" None None 1 None None)
              "2025-03-01 10:00:00" eq_refl)
    as [row [Hrun [_ [_ [_ [_ [Hs [Hp [Hd [Hdd _]]]]]]]]]].
  exists row. rewrite Hrun. simpl in *. auto.
Defined.

(* ================================================================== *)
(** ** Updating a task *)
(* ================================================================== *)

Lemma find_map_update {Row} (key : Row -> Z) (f : Row -> Row) id rows :
  (forall r, key (f r) = key r) ->
  find (fun r => key r =? id) (map (fun r => if key r =? id then f r else r) rows)
  = option_map f (find (fun r => key r =? id) rows).
Proof.
  intros Hkey. induction rows as [|r rows IH]; simpl; [reflexivity|].
  destruct (key r =? id) eqn:E.
  - now rewrite Hkey, E.
  - now rewrite E.
Qed.

Lemma select_task_exists db id old :
  select_task id db = Some old ->
  existsb (fun t => t_id t =? id) (tasks db) = true /\ t_id old = id.
Proof.
  unfold select_task. intros H. apply find_some in H. destruct H as [Hin Hid].
  split; [|now apply Z.eqb_eq].
  apply existsb_exists. eauto.
Qed.

Lemma select_task_missing db id :
  select_task id db = None ->
  existsb (fun t => t_id t =? id) (tasks db) = false.
Proof.
  unfold select_task. intros H.
  destruct (existsb _ _) eqn:E; [|reflexivity].
  apply existsb_exists in E. destruct E as [t [Ht Hid]].
  now rewrite (find_none _ _ H t Ht) in Hid.
Qed.

(** C5, amended.  [updateTask] answers "not found" ([None]) for an id that
    has no row and changes nothing.  For an existing id, and a patch whose
    [employeeId], if any, names an employee, it writes exactly the supplied
    columns, sets [updated_at] to [now] whatever the patch holds, keeps [id]
    and [created_at], leaves the employees and every other task alone, and
    returns the row as written.  With the empty patch the row returned is
    the old one with [updated_at] replaced by [now].  For an existing id and
    a patch whose [employeeId] names no employee, the UPDATE is refused by
    the foreign key: [updateTask] throws and the database is the one it was
    given, so the row keeps every column, [updated_at] included. *)
Theorem updateTask_patch (db : database) (id : Z) (p : PartialInsertTask)
    (now : string) :
  (select_task id db = None -> updateTask id p now db = (Return None, db))
  /\
  (forall old,
     select_task id db = Some old ->
     (forall eid, pt_employeeId p = Some eid -> has_employee db eid = true) ->
     exists new db',
       updateTask id p now db = (Return (Some new), db')
       /\ select_task id db' = Some new
       /\ t_updatedAt new = now
       /\ t_id new = t_id old
       /\ t_createdAt new = t_createdAt old
       /\ supplied_or (pt_title p) (t_title old) (t_title new)
       /\ supplied_or (pt_description p) (t_description old) (t_description new)
       /\ supplied_or (pt_status p) (t_status old) (t_status new)
       /\ supplied_or (pt_employeeId p) (t_employeeId old) (t_employeeId new)
       /\ supplied_or (pt_dueDate p) (t_dueDate old) (t_dueDate new)
       /\ supplied_or (pt_priority p) (t_priority old) (t_priority new)
       /\ employees db' = employees db
       /\ (forall t, In t (tasks db) -> t_id t <> id -> In t (tasks db')))
  /\
  (forall old,
     select_task id db = Some old ->
     fst (updateTask id empty_task_patch now db) =
     Return (Some (mkTask (t_id old) (t_title old) (t_description old)
                     (t_status old) (t_employeeId old) (t_dueDate old)
                     (t_priority old) (t_createdAt old) now)))
  /\
  (forall old eid,
     select_task id db = Some old ->
     pt_employeeId p = Some eid ->
     has_employee db eid = false ->
     updateTask id p now db = (Throw FOREIGN_KEY, db)
     /\ select_task id (snd (updateTask id p now db)) = Some old).
Proof.
  split; [|split; [|split]].
  - intros Hnone. unfold updateTask, bind, query. now rewrite Hnone.
  - intros old Hold Hfk.
    destruct (select_task_exists db id old Hold) as [Hex Hid].
    exists (apply_task_sets p now old).
    eexists. split.
    + unfold updateTask, bind, query. rewrite Hold.
      unfold update_task. rewrite Hex.
      assert (Horphan : match pt_employeeId p with
                        | Some eid => negb (has_employee db eid)
                        | None => false
                        end = false).
      { destruct (pt_employeeId p) as [eid|]; [|reflexivity].
        now rewrite (Hfk eid eq_refl). }
      rewrite Horphan. unfold select_task at 1. cbn [tasks].
      rewrite (find_map_update t_id (apply_task_sets p now) id (tasks db))
        by reflexivity.
      unfold select_task in Hold. rewrite Hold. reflexivity.
    + cbn [tasks employees].
      split.
      { unfold select_task. cbn [tasks].
        rewrite (find_map_update t_id (apply_task_sets p now) id (tasks db))
          by reflexivity.
        unfold select_task in Hold. now rewrite Hold. }
      unfold apply_task_sets, supplied_or, set_or_keep. simpl.
      repeat match goal with |- _ /\ _ => split end; trivial;
        try match goal with
            | |- match ?x with Some _ => _ | None => _ end => now destruct x
            end.
      intros t Hin Hne. apply in_map_iff. exists t. split; trivial.
      destruct (t_id t =? id) eqn:E; [|reflexivity].
      apply Z.eqb_eq in E. contradiction.
  - intros old Hold.
    destruct (select_task_exists db id old Hold) as [Hex Hid].
    unfold updateTask, bind, query. rewrite Hold.
    unfold update_task. rewrite Hex. cbn [empty_task_patch pt_employeeId fst].
    unfold select_task at 1. cbn [tasks].
    rewrite (find_map_update t_id (apply_task_sets empty_task_patch now) id (tasks db))
      by reflexivity.
    unfold select_task in Hold. rewrite Hold. reflexivity.
  - intros old eid Hold Heid Hno.
    destruct (select_task_exists db id old Hold) as [Hex _].
    assert (Hthrow : updateTask id p now db = (Throw FOREIGN_KEY, db)).
    { unfold updateTask, bind, query. rewrite Hold.
      unfold update_task. rewrite Hex, Heid, Hno. reflexivity. }
    split; [exact Hthrow|]. rewrite Hthrow. exact Hold.
Qed.

(** C5 as stated fails: a patch that moves task 1 to an employee who does
    not exist is refused by the foreign key, and [updated_at] keeps the value
    it had. *)
Lemma updateTask_patch_counterexample :
  updateTask 1 (mkPartialInsertTask None None None (Some 999) None None)
    "2025-06-01 12:00:00" seeded_db = (Throw FOREIGN_KEY, seeded_db)
  /\ option_map t_updatedAt (select_task 1 seeded_db) = Some "2025-01-01 00:00:00".
Proof. split; vm_compute; reflexivity. Qed.

(** Marking task 1 of the seeded database completed changes [status] and
    [updated_at] and nothing else. *)
Lemma updateTask_patch_witness :
  exists new,
    fst (updateTask 1 (mkPartialInsertTask None None (Some COMPLETED) None None None)
           "2025-06-01 12:00:00" seeded_db) = Return (Some new)
    /\ t_updatedAt new = "2025-06-01 12:00:00"
    /\ t_status new = COMPLETED
    /\ t_title new = "Fix login authentication bug"
    /\ t_employeeId new = 1
    /\ t_createdAt new = "2025-01-01 00:00:00".
Proof.
  destruct (proj1 (proj2 (updateTask_patch seeded_db 1
              (mkPartialInsertTask None None (Some COMPLETED) None None None)
              "2025-06-01 12:00:00"))
              (mkTask 1 "Fix login authentication bug"
                 (Some "Users cannot login with special characters in password")
                 IN_PROGRESS 1 (Some "2025-02-01") HIGH
                 "2025-01-01 00:00:00" "2025-01-01 00:00:00")
              eq_refl ltac:(discriminate))
    as [new [db' [Hrun [_ [Hup [_ [Hcr [Htitle [_ [Hst [Hemp _]]]]]]]]]]].
  exists new. rewrite Hrun. simpl in *. repeat split; assumption.
Defined.

(* ================================================================== *)
(** ** Listing tasks *)
(* ================================================================== *)

(** On the seeded database [{ employeeId: 0 }] lists all 24 tasks, not none. *)
Example getAllTasks_employeeId_0 :
  List.length (getAllTasks (Some (mkFilters None (Some 0))) seeded_db) = 24%nat.
Proof. reflexivity. Qed.

Lemma filter_none {Row} (keep : Row -> bool) rows :
  (forall r, In r rows -> keep r = false) -> filter keep rows = [].
Proof.
  induction rows as [|r rows IH]; simpl; intros H; [reflexivity|].
  rewrite (H r (or_introl eq_refl)). apply IH. auto.
Qed.

Lemma filter_unique_key {Row} (key : Row -> Z) rows r :
  NoDup (map key rows) -> In r rows ->
  filter (fun r' => key r =? key r') rows = [r].
Proof.
  induction rows as [|r0 rows IH]; simpl; intros Hnd Hin; [contradiction|].
  apply NoDup_cons_iff in Hnd. destruct Hnd as [Hfresh Hnd].
  destruct Hin as [->|Hin].
  - rewrite Z.eqb_refl. f_equal.
    apply filter_none.
    intros r' Hr'. apply Z.eqb_neq. intros Heq. apply Hfresh.
    rewrite Heq. now apply in_map.
  - destruct (key r =? key r0) eqn:E; [|now apply IH].
    apply Z.eqb_eq in E. exfalso. apply Hfresh. rewrite <- E. now apply in_map.
Qed.

Lemma find_unique_key {Row} (key : Row -> Z) rows r :
  NoDup (map key rows) -> In r rows ->
  find (fun r' => key r' =? key r) rows = Some r.
Proof.
  induction rows as [|r0 rows IH]; simpl; intros Hnd Hin; [contradiction|].
  apply NoDup_cons_iff in Hnd. destruct Hnd as [Hfresh Hnd].
  destruct Hin as [->|Hin].
  - now rewrite Z.eqb_refl.
  - destruct (key r0 =? key r) eqn:E; [|now apply IH].
    apply Z.eqb_eq in E. exfalso. apply Hfresh. rewrite E. now apply in_map.
Qed.

(** With unique employee ids and no orphan task, the join yields each task
    exactly once. *)
Lemma join_employees_tasks db ts (keep : Task -> bool) :
  NoDup (map e_id (employees db)) ->
  (forall t, In t ts -> has_employee db (t_employeeId t) = true) ->
  map fst (filter (fun te => keep (fst te)) (join_employees db ts)) = filter keep ts.
Proof.
  intros Hpk. induction ts as [|t ts IH]; intros Hfk; [reflexivity|].
  unfold join_employees in *. simpl.
  assert (Hemp : has_employee db (t_employeeId t) = true) by (apply Hfk; now left).
  apply has_employee_In in Hemp. destruct Hemp as [e [He Hid]].
  assert (Hone : filter (fun e' => t_employeeId t =? e_id e') (employees db) = [e]).
  { rewrite <- Hid. now apply (filter_unique_key e_id). }
  rewrite Hone. simpl.
  destruct (keep t); simpl; [f_equal|]; apply IH; intros t' Ht'; apply Hfk;
    now right.
Qed.

Lemma Sorted_map {X Y} (f : X -> Y) (R : Y -> Y -> Prop) (l : list X) :
  Sorted (fun a b => R (f a) (f b)) l -> Sorted R (map f l).
Proof.
  induction 1 as [|a l Hs IH Hhd]; simpl; constructor; trivial.
  destruct Hhd; simpl; constructor; trivial.
Qed.

Lemma status_condition_passes status employeeId t :
  status <> Some "" -> employeeId <> Some 0 ->
  status_condition status t && employee_condition employeeId t =
  passes status employeeId t.
Proof.
  intros Hs He. unfold status_condition, employee_condition, passes.
  f_equal.
  - destruct status as [s|]; [|reflexivity].
    destruct (String.eqb s "") eqn:E; [|reflexivity].
    apply String.eqb_eq in E. congruence.
  - destruct employeeId as [i|]; [|reflexivity].
    destruct (i =? 0) eqn:E; [|reflexivity].
    apply Z.eqb_eq in E. congruence.
Qed.

(** C4, amended.  In a consistent database, for a filter whose status is not
    the empty string and whose employeeId is not 0, [getAllTasks] returns
    exactly the tasks that satisfy every condition given (each of them once),
    each with the name of the employee it belongs to, newest [created_at]
    first; with no condition at all these are all the tasks. *)
Theorem getAllTasks_filtered (db : database) (status : option string)
    (employeeId : option Z) :
  consistent db ->
  status <> Some "" ->
  employeeId <> Some 0 ->
  let rows := getAllTasks (Some (mkFilters status employeeId)) db in
  Permutation (map tr_task rows) (filter (passes status employeeId) (tasks db))
  /\ (forall r, In r rows ->
        option_map e_name (getEmployeeById (t_employeeId (tr_task r)) db)
        = Some (tr_employeeName r))
  /\ Sorted (fun a b => String.leb (t_createdAt (tr_task b))
                                   (t_createdAt (tr_task a)) = true) rows
  /\ (status = None -> employeeId = None ->
        getAllTasks None db = rows /\ Permutation (map tr_task rows) (tasks db)).
Proof.
  intros [Hpk _ _ Hfk] Hs He rows.
  assert (Hperm : Permutation (map tr_task rows)
                    (filter (passes status employeeId) (tasks db))).
  { subst rows. unfold getAllTasks. cbn [f_status f_employeeId].
    rewrite map_map. cbn [tr_task].
    erewrite <- (join_employees_tasks db (tasks db) (passes status employeeId) Hpk Hfk).
    apply Permutation_map. apply Permutation_sym.
    erewrite filter_ext; [apply sort_by_perm|].
    intros [t e]. simpl. symmetry. now apply status_condition_passes. }
  split; [exact Hperm|]. split; [|split].
  - intros r Hin. apply getAllTasks_In in Hin.
    destruct Hin as [t [e [-> [Ht [Hin [Hid _]]]]]]. simpl.
    unfold getEmployeeById, select_employee. rewrite Hid.
    now rewrite (find_unique_key e_id (employees db) e Hpk Hin).
  - subst rows. unfold getAllTasks.
    apply (Sorted_map (fun te => mkTaskRow (fst te) (e_name (snd te)))
             (fun a b => String.leb (t_createdAt (tr_task b))
                                    (t_createdAt (tr_task a)) = true)).
    simpl. apply (sort_by_sorted (fun a b => newest_first (fst a) (fst b))).
    intros a b. unfold newest_first. apply String.leb_total.
  - intros -> ->. split; [reflexivity|].
    eapply perm_trans; [exact Hperm|].
    rewrite filter_all; [apply Permutation_refl|reflexivity].
Qed.

(** C4 as stated fails: no task of the seeded database has status
    "completed" and employeeId 0, yet that filter lists the 8 completed
    tasks of all the employees. *)
Lemma getAllTasks_filtered_counterexample :
  filter (passes (Some "completed") (Some 0)) (tasks seeded_db) = []
  /\ List.length (getAllTasks (Some (mkFilters (Some "completed") (Some 0)))
                    seeded_db) = 8%nat.
Proof. split; reflexivity. Qed.

Lemma seeded_db_consistent : consistent seeded_db.
Proof.
  apply reachable_consistent.
  exact (reachable_call (SeedDatabase "2025-01-01 00:00:00") empty_db
           reachable_empty).
Defined.

(** [{ status: "completed", employeeId: 5 }] on the seeded database. *)
Lemma getAllTasks_filtered_witness :
  Permutation
    (map tr_task (getAllTasks (Some (mkFilters (Some "completed") (Some 5)))
                    seeded_db))
    (filter (passes (Some "completed") (Some 5)) (tasks seeded_db)).
Proof.
  exact (proj1 (getAllTasks_filtered seeded_db (Some "completed") (Some 5)
                  seeded_db_consistent ltac:(discriminate) ltac:(discriminate))).
Defined.

(** The listing holds each task the two conditions of the code let
    through, once. *)
Lemma getAllTasks_selects db status employeeId :
  consistent db ->
  Permutation
    (map tr_task (getAllTasks (Some (mkFilters status employeeId)) db))
    (filter (fun t => status_condition status t
                      && employee_condition employeeId t) (tasks db)).
Proof.
  intros [Hpk _ _ Hfk]. unfold getAllTasks. cbn [f_status f_employeeId].
  rewrite map_map. cbn [tr_task].
  erewrite <- (join_employees_tasks db (tasks db)
                 (fun t => status_condition status t
                           && employee_condition employeeId t) Hpk Hfk).
  apply Permutation_map. apply Permutation_sym. apply sort_by_perm.
Qed.

(** C9.  A falsy filter value adds no condition.  A filter whose
    [employeeId] is 0 gives the listing of the same filter without
    [employeeId], and a filter whose [status] is the empty string gives the
    listing of the same filter without [status].  That listing is not cut
    down to the rows matching the falsy value: in a consistent database,
    with [employeeId] 0 it holds exactly the tasks that have the status
    given (every task when none is given), each once, whoever they belong
    to; with [status] "" exactly the tasks of the employee given, whatever
    their status; and with both, as with no filter, every task of the
    table. *)
Theorem getAllTasks_falsy_filter (db : database) (status : option string)
    (employeeId : option Z) :
  getAllTasks (Some (mkFilters status (Some 0))) db =
  getAllTasks (Some (mkFilters status None)) db
  /\
  getAllTasks (Some (mkFilters (Some "") employeeId)) db =
  getAllTasks (Some (mkFilters None employeeId)) db
  /\
  getAllTasks (Some (mkFilters (Some "") (Some 0))) db = getAllTasks None db
  /\
  (consistent db ->
   (status <> Some "" ->
    Permutation
      (map tr_task (getAllTasks (Some (mkFilters status (Some 0))) db))
      (filter (passes status None) (tasks db)))
   /\
   (employeeId <> Some 0 ->
    Permutation
      (map tr_task (getAllTasks (Some (mkFilters (Some "") employeeId)) db))
      (filter (passes None employeeId) (tasks db)))
   /\
   Permutation
     (map tr_task (getAllTasks (Some (mkFilters (Some "") (Some 0))) db))
     (tasks db)
   /\
   Permutation (map tr_task (getAllTasks None db)) (tasks db)
   /\
   List.length (getAllTasks (Some (mkFilters (Some "") (Some 0))) db)
   = List.length (tasks db)).
Proof.
  split; [reflexivity|]. split; [reflexivity|]. split; [reflexivity|].
  intros Hdb.
  assert (Hall : Permutation
                   (map tr_task
                      (getAllTasks (Some (mkFilters (Some "") (Some 0))) db))
                   (tasks db)).
  { eapply perm_trans; [apply (getAllTasks_selects db _ _ Hdb)|].
    rewrite filter_all; [apply Permutation_refl|reflexivity]. }
  split; [|split; [|split; [exact Hall|split; [exact Hall|]]]].
  - intros Hs.
    eapply perm_trans; [apply (getAllTasks_selects db _ _ Hdb)|].
    erewrite filter_ext; [apply Permutation_refl|].
    intros t.
    exact (status_condition_passes status None t Hs ltac:(discriminate)).
  - intros He.
    eapply perm_trans; [apply (getAllTasks_selects db _ _ Hdb)|].
    erewrite filter_ext; [apply Permutation_refl|].
    intros t.
    exact (status_condition_passes None employeeId t ltac:(discriminate) He).
  - rewrite <- (length_map tr_task). now apply Permutation_length.
Qed.

(** [{ status: "completed", employeeId: 0 }] on the seeded database lists
    the completed tasks of every employee, and [{ status: "", employeeId: 0 }]
    all 24 tasks. *)
Lemma getAllTasks_falsy_filter_witness :
  Permutation
    (map tr_task
       (getAllTasks (Some (mkFilters (Some "completed") (Some 0))) seeded_db))
    (filter (passes (Some "completed") None) (tasks seeded_db))
  /\ List.length
       (getAllTasks (Some (mkFilters (Some "") (Some 0))) seeded_db)
     = 24%nat.
Proof.
  pose proof (proj2 (proj2 (proj2
                (getAllTasks_falsy_filter seeded_db (Some "completed") None)))
                seeded_db_consistent) as H.
  split.
  - exact (proj1 H ltac:(discriminate)).
  - exact (proj2 (proj2 (proj2 (proj2 H)))).
Defined.

(* ================================================================== *)
(** ** Identifiers in paths and query strings *)
(* ================================================================== *)

Lemma digits_prefix_started radix s a : Js.digits_prefix radix s (Some a) <> None.
Proof.
  revert a. induction s as [|c s IH]; simpl; intros a; [discriminate|].
  destruct (Js.digit_value c) as [d|]; [|discriminate].
  destruct (d <? radix); [apply IH|discriminate].
Qed.

Lemma digits_prefix_NaN radix s :
  Js.digits_prefix radix s None = None <-> first_is_digit radix s = false.
Proof.
  destruct s as [|c s]; simpl; [tauto|].
  unfold Js.is_digit.
  destruct (Js.digit_value c) as [d|]; [|tauto].
  destruct (d <? radix); [|tauto].
  split; [|discriminate].
  intros H. now apply digits_prefix_started in H.
Qed.

Lemma parseInt_NaN s : Js.parseInt s = None <-> integer_prefix s = false.
Proof.
  unfold Js.parseInt, integer_prefix.
  destruct (Js.strip_sign (Js.trim_start s)) as [sign s1].
  destruct (Js.strip_hex_prefix s1) as [radix s2].
  rewrite <- digits_prefix_NaN.
  destruct (Js.digits_prefix radix s2 None); simpl; split; congruence.
Qed.

(** C8, amended.  An id that has no integer prefix is answered 400 by each of
    the six [:id] handlers, and so is a non-empty [employee_id] query value
    without one; nothing is read from or written to the database.  An id
    that has an integer prefix is read as that integer, whatever follows the
    digits, and is not rejected. *)
Theorem invalid_id_rejected (s : string) :
  (integer_prefix s = false ->
   forall email_format db body now,
     Routes.GET_employees_id s db = (Routes.error 400 "Invalid employee ID", db)
     /\ Routes.PUT_employees_id email_format s body db
          = (Routes.error 400 "Invalid employee ID", db)
     /\ Routes.DELETE_employees_id s db
          = (Routes.error 400 "Invalid employee ID", db)
     /\ Routes.GET_tasks_id s db = (Routes.error 400 "Invalid task ID", db)
     /\ Routes.PUT_tasks_id s body now db = (Routes.error 400 "Invalid task ID", db)
     /\ Routes.DELETE_tasks_id s db = (Routes.error 400 "Invalid task ID", db)
     /\ (s <> "" ->
         forall status,
           Routes.res_status (fst (Routes.GET_tasks status (Some s) db)) = 400
           /\ snd (Routes.GET_tasks status (Some s) db) = db))
  /\
  (integer_prefix s = true ->
   exists id,
     Js.parseInt s = Some id
     /\ forall db,
          Routes.GET_employees_id s db =
          match getEmployeeWithTasks id db with
          | Some (e, ts) =>
              (Routes.mkResponse 200 (Routes.EmployeeWithTasksBody e ts), db)
          | None => (Routes.error 404 "Employee not found", db)
          end).
Proof.
  split.
  - intros Hnone email_format db body now.
    apply parseInt_NaN in Hnone.
    unfold Routes.GET_employees_id, Routes.PUT_employees_id,
      Routes.DELETE_employees_id, Routes.GET_tasks_id, Routes.PUT_tasks_id,
      Routes.DELETE_tasks_id, Routes.try_catch.
    rewrite Hnone. repeat (split; [reflexivity|]).
    intros Hne status.
    unfold Routes.GET_tasks, Routes.try_catch, Routes.truthy.
    assert (Hs : String.eqb s "" = false) by now apply String.eqb_neq.
    rewrite Hs, Hnone. simpl.
    match goal with
    | |- context [if ?c then _ else _] => destruct c
    end; split; reflexivity.
  - intros Hsome.
    destruct (Js.parseInt s) as [id|] eqn:Hparse.
    + exists id. split; [reflexivity|]. intros db.
      unfold Routes.GET_employees_id, Routes.try_catch. rewrite Hparse.
      unfold bind, query.
      destruct (getEmployeeWithTasks id db) as [[e ts]|]; reflexivity.
    + apply parseInt_NaN in Hparse. congruence.
Qed.

(** C8 as stated fails: "2abc" is not a numeric value, yet it is read as 2
    and GET /api/employees/2abc answers 200 with employee 2; and the empty
    [employee_id] is not numeric either, yet GET /api/tasks?employee_id=
    answers 200 with the unfiltered list. *)
Lemma invalid_id_rejected_counterexample :
  numeric_string "2abc" = false
  /\ Js.parseInt "2abc" = Some 2
  /\ Routes.res_status (fst (Routes.GET_employees_id "2abc" seeded_db)) = 200
  /\ numeric_string "" = false
  /\ Routes.res_status (fst (Routes.GET_tasks None (Some "") seeded_db)) = 200.
Proof. repeat split; vm_compute; reflexivity. Qed.

(** "abc" has no integer prefix: 400, while "2abc" reads as 2. *)
Lemma invalid_id_rejected_witness :
  Routes.GET_employees_id "abc" seeded_db
    = (Routes.error 400 "Invalid employee ID", seeded_db)
  /\ exists id, Js.parseInt "2abc" = Some id.
Proof.
  split.
  - exact (proj1 (proj1 (invalid_id_rejected "abc") eq_refl contains_at seeded_db
                    Routes.JNull "")).
  - destruct (proj2 (invalid_id_rejected "2abc") eq_refl) as [id [Hid _]].
    exists id. exact Hid.
Defined.

(* ================================================================== *)
(** ** Rounding of binary64 numbers *)
(* ================================================================== *)

Lemma digits2_pos_bounds p :
  2 ^ (Z.pos (digits2_pos p) - 1) <= Z.pos p < 2 ^ Z.pos (digits2_pos p).
Proof.
  induction p as [p IH|p IH|]; simpl digits2_pos.
  - rewrite Pos2Z.inj_succ.
    replace (Z.succ (Z.pos (digits2_pos p)) - 1) with (Z.succ (Z.pos (digits2_pos p) - 1)) by lia.
    rewrite !Z.pow_succ_r by lia. lia.
  - rewrite Pos2Z.inj_succ.
    replace (Z.succ (Z.pos (digits2_pos p)) - 1) with (Z.succ (Z.pos (digits2_pos p) - 1)) by lia.
    rewrite !Z.pow_succ_r by lia. lia.
  - simpl. lia.
Qed.

(** The number of binary digits is determined by the bounds. *)
Lemma digits2_pos_unique p k :
  2 ^ (k - 1) <= Z.pos p < 2 ^ k -> Z.pos (digits2_pos p) = k.
Proof.
  intros [Hlo Hhi].
  pose proof (digits2_pos_bounds p) as [Hlo' Hhi'].
  assert (0 < k).
  { destruct (Z.ltb_spec 0 k); trivial.
    rewrite (Z.pow_neg_r 2 (k - 1)) in Hlo by lia.
    assert (2 ^ k <= 1); [|lia].
    destruct (Z.eq_dec k 0) as [->|]; [simpl; lia|].
    rewrite Z.pow_neg_r by lia. lia. }
  set (d := Z.pos (digits2_pos p)) in *.
  assert (d - 1 < k).
  { apply (Z.pow_lt_mono_r_iff 2); lia. }
  assert (k - 1 < d).
  { apply (Z.pow_lt_mono_r_iff 2); lia. }
  lia.
Qed.

Lemma iter_pos_nat {A} (f : A -> A) p x :
  iter_pos f p x = Nat.iter (Pos.to_nat p) f x.
Proof.
  revert x. induction p as [p IH|p IH|]; intros x; cbn [iter_pos].
  - rewrite !IH, Pos2Nat.inj_xI, Nat.iter_succ_r.
    replace (2 * Pos.to_nat p)%nat with (Pos.to_nat p + Pos.to_nat p)%nat by lia.
    now rewrite Nat.iter_add.
  - rewrite !IH, Pos2Nat.inj_xO.
    replace (2 * Pos.to_nat p)%nat with (Pos.to_nat p + Pos.to_nat p)%nat by lia.
    now rewrite Nat.iter_add.
  - reflexivity.
Qed.

Lemma shr_1_tracks mrs D R :
  tracks mrs D R ->
  tracks (shr_1 mrs) (2 * D) ((shr_m mrs) mod 2 * D + R)
  /\ shr_m (shr_1 mrs) = shr_m mrs / 2.
Proof.
  destruct mrs as [m r s]. unfold tracks, location_of.
  cbn [shr_m loc_of_shr_record].
  intros [Hm [HR Hloc]].
  assert (Hs : orb r s = negb (R =? 0)).
  { destruct (R =? 0); destruct r, s; simpl in *; congruence. }
  assert (Hcase : m = 2 * (m / 2) \/ m = 2 * (m / 2) + 1).
  { pose proof (Z.div_mod m 2 ltac:(lia)).
    pose proof (Z.mod_pos_bound m 2 ltac:(lia)). lia. }
  assert (Hshift : shr_1 (Build_shr_record m r s) =
                   Build_shr_record (m / 2) (Z.odd m) (orb r s)).
  { destruct m as [|[p|p|]|p]; try lia; try reflexivity; cbn [shr_1 Z.odd].
    - f_equal. apply (Z.div_unique _ 2 _ 1); lia.
    - f_equal. apply (Z.div_unique _ 2 _ 0); lia. }
  rewrite Hshift, Hs. cbn [shr_m loc_of_shr_record].
  split; [|reflexivity].
  split; [apply Z.div_pos; lia|].
  rewrite Zmod_odd.
  destruct (Z.odd m) eqn:Hodd.
  - split; [lia|].
    destruct (Z.eqb_spec (1 * D + R) 0); [lia|].
    destruct (Z.eqb_spec R 0); cbn [negb]; f_equal; symmetry.
    + apply Z.compare_eq_iff. lia.
    + apply Z.compare_gt_iff. lia.
  - split; [lia|].
    replace (0 * D + R) with R by lia.
    destruct (Z.eqb_spec R 0); cbn [negb]; [reflexivity|].
    f_equal. symmetry. apply Z.compare_lt_iff. lia.
Qed.

(** [k] right shifts divide the integer part by [2 ^ k] and keep the number
    that the record stands for. *)
Lemma shr_iter_tracks (k : nat) mrs D R :
  tracks mrs D R ->
  exists R',
    tracks (Nat.iter k shr_1 mrs) (D * 2 ^ Z.of_nat k) R'
    /\ shr_m (Nat.iter k shr_1 mrs) * (D * 2 ^ Z.of_nat k) + R' = shr_m mrs * D + R
    /\ shr_m (Nat.iter k shr_1 mrs) = shr_m mrs / 2 ^ Z.of_nat k.
Proof.
  intros H. induction k as [|k IH].
  - exists R. simpl. rewrite Z.mul_1_r, Z.div_1_r. auto.
  - destruct IH as [R1 [Ht [Hval Hm]]].
    destruct (shr_1_tracks _ _ _ Ht) as [Ht' Hm'].
    exists (shr_m (Nat.iter k shr_1 mrs) mod 2 * (D * 2 ^ Z.of_nat k) + R1).
    rewrite Nat2Z.inj_succ, Z.pow_succ_r by lia. simpl Nat.iter.
    replace (D * (2 * 2 ^ Z.of_nat k)) with (2 * (D * 2 ^ Z.of_nat k)) by lia.
    split; [exact Ht'|]. split.
    + rewrite Hm'. rewrite <- Hval.
      pose proof (Z.div_mod (shr_m (Nat.iter k shr_1 mrs)) 2 ltac:(lia)). nia.
    + rewrite Hm', Hm. rewrite Z.div_div by lia.
      f_equal. lia.
Qed.

Lemma loc_of_shr_record_of_loc m l :
  loc_of_shr_record (shr_record_of_loc m l) = l
  /\ shr_m (shr_record_of_loc m l) = m.
Proof. destruct l as [|[]]; split; reflexivity. Qed.

Lemma tracks_of_loc m R D :
  0 <= m -> 0 <= R < D -> tracks (shr_record_of_loc m (location_of R D)) D R.
Proof.
  intros Hm HR. unfold tracks.
  destruct (loc_of_shr_record_of_loc m (location_of R D)) as [-> ->]. auto.
Qed.

(** Rounding to nearest moves the integer part by at most half a unit. *)
Lemma round_nearest_even_near m R D :
  0 <= R < D ->
  (round_nearest_even m (location_of R D) = m
   \/ round_nearest_even m (location_of R D) = m + 1)
  /\ 2 * Z.abs (round_nearest_even m (location_of R D) * D - (m * D + R)) <= D.
Proof.
  intros HR. unfold location_of.
  destruct (Z.eqb_spec R 0) as [->|Hne]; cbn [round_nearest_even].
  - split; [now left|]. rewrite Z.add_0_r, Z.sub_diag. simpl. lia.
  - destruct (Z.compare_spec (2 * R) D) as [Heq|Hlt|Hgt];
      cbn [round_nearest_even].
    + destruct (Z.even m); [split; [now left|]|split; [now right|]]; lia.
    + split; [now left|]. lia.
    + split; [now right|]. lia.
Qed.

Lemma fexp_normal e : -1074 <= e - 53 -> fexp 53 1024 e = e - 53.
Proof. unfold fexp, emin. lia. Qed.

Lemma Zdigits2_bounds m :
  0 < m -> 2 ^ (Zdigits2 m - 1) <= m < 2 ^ Zdigits2 m.
Proof.
  destruct m as [|p|p]; try lia. intros _. apply digits2_pos_bounds.
Qed.

Lemma Zdigits2_unique m k :
  2 ^ (k - 1) <= m < 2 ^ k -> 0 < m -> Zdigits2 m = k.
Proof.
  destruct m as [|p|p]; try lia. intros H _. now apply digits2_pos_unique.
Qed.

(** The first shift of [binary_round_aux] in the normal range: the mantissa
    is cut down to 53 bits and the bits removed are kept as a fraction. *)
Lemma shr_fexp_normal m e R D :
  2 ^ 52 <= m -> 0 <= R < D ->
  -1074 <= Zdigits2 m + e - 53 ->
  exists mrs R',
    shr_fexp 53 1024 m e (location_of R D) = (mrs, e + (Zdigits2 m - 53))
    /\ 0 <= Zdigits2 m - 53
    /\ tracks mrs (D * 2 ^ (Zdigits2 m - 53)) R'
    /\ shr_m mrs * (D * 2 ^ (Zdigits2 m - 53)) + R' = m * D + R
    /\ 2 ^ 52 <= shr_m mrs < 2 ^ 53
    /\ 2 ^ (52 + (Zdigits2 m - 53)) <= m.
Proof.
  intros Hm HR Hnormal.
  pose proof (Zdigits2_bounds m ltac:(lia)) as [Hlo Hhi].
  set (d := Zdigits2 m) in *.
  assert (Hd : 53 <= d).
  { destruct (Z.le_gt_cases 53 d); trivial.
    assert (2 ^ d <= 2 ^ 52) by (apply Z.pow_le_mono_r; lia). lia. }
  unfold shr_fexp. fold d. rewrite fexp_normal by lia.
  replace (d + e - 53 - e) with (d - 53) by lia.
  pose proof (tracks_of_loc m R D ltac:(lia) HR) as Ht.
  destruct (loc_of_shr_record_of_loc m (location_of R D)) as [_ Hm0].
  destruct (d - 53) as [|n|n] eqn:Hn; try lia.
  - exists (shr_record_of_loc m (location_of R D)), R.
    cbn [shr]. rewrite Z.add_0_r, Z.pow_0_r, Z.mul_1_r, Hm0.
    replace d with 53 in Hhi by lia.
    split; [reflexivity|]. split; [lia|]. split; [exact Ht|].
    split; [reflexivity|]. split; lia.
  - cbn [shr]. rewrite iter_pos_nat.
    destruct (shr_iter_tracks (Pos.to_nat n) _ D R Ht) as [R' [Ht' [Hval Hdiv]]].
    rewrite positive_nat_Z in *.
    exists (Nat.iter (Pos.to_nat n) shr_1 (shr_record_of_loc m (location_of R D))), R'.
    rewrite Hm0 in *.
    assert (Hpow : 2 ^ (d - 1) = 2 ^ 52 * 2 ^ Z.pos n).
    { rewrite <- Z.pow_add_r by lia. f_equal. lia. }
    assert (Hpow' : 2 ^ d = 2 ^ 53 * 2 ^ Z.pos n).
    { rewrite <- Z.pow_add_r by lia. f_equal. lia. }
    assert (Hp : 0 < 2 ^ Z.pos n) by (apply Z.pow_pos_nonneg; lia).
    split; [reflexivity|]. split; [lia|]. split; [exact Ht'|].
    split; [exact Hval|]. split; [split|].
    + rewrite Hdiv. apply Z.div_le_lower_bound; lia.
    + rewrite Hdiv. apply Z.div_lt_upper_bound; lia.
    + rewrite Z.pow_add_r by lia. lia.
Qed.

(** Rounding in the normal range.  The number [(mx + R / D) * 2 ^ ex],
    whose integer part has [53 + n0] bits, is rounded to [m * 2 ^ (ex + n)]:
    a 53-bit mantissa, at most half a unit of weight [2 ^ (ex + n0)] away;
    [n] is [n0], or [n0 + 1] when rounding carries into a new bit. *)
Lemma binary_round_aux_normal mx ex R D :
  2 ^ 52 <= mx -> 0 <= R < D ->
  -1074 <= Zdigits2 mx + ex - 53 ->
  Zdigits2 mx + ex <= 1023 ->
  exists m n,
    binary_round_aux 53 1024 false mx ex (location_of R D)
      = S754_finite false m (ex + n)
    /\ (n = Zdigits2 mx - 53 \/ n = Zdigits2 mx - 53 + 1)
    /\ 0 <= Zdigits2 mx - 53
    /\ 2 ^ 52 <= Z.pos m < 2 ^ 53
    /\ 2 * (Z.pos m * 2 ^ n * D) <= 2 * (mx * D + R) + 2 ^ (Zdigits2 mx - 53) * D
    /\ 2 * (mx * D + R) <= 2 * (Z.pos m * 2 ^ n * D) + 2 ^ (Zdigits2 mx - 53) * D.
Proof.
  intros Hmx HR Hlow Hhigh.
  destruct (shr_fexp_normal mx ex R D Hmx HR Hlow)
    as [mrs [R' [Hshr [Hn [Ht [Hval [Hm1 Hpow]]]]]]].
  set (n := Zdigits2 mx - 53) in *.
  unfold binary_round_aux. rewrite Hshr.
  destruct Ht as [_ [HR' Hloc]]. rewrite Hloc.
  destruct (round_nearest_even_near (shr_m mrs) R' (D * 2 ^ n) HR')
    as [Hcases Hnear].
  set (m2 := round_nearest_even (shr_m mrs) (location_of R' (D * 2 ^ n))) in *.
  assert (Hm2 : 2 ^ 52 <= m2 <= 2 ^ 53) by lia.
  assert (HP : 0 < 2 ^ n) by (apply Z.pow_pos_nonneg; lia).
  rewrite Hval in Hnear.
  destruct (Z.eq_dec m2 (2 ^ 53)) as [Hcarry|Hnocarry].
  - exists 4503599627370496%positive, (n + 1).
    rewrite Hcarry in *. unfold shr_fexp.
    change (Zdigits2 (2 ^ 53)) with 54.
    rewrite fexp_normal by lia.
    replace (54 + (ex + n) - 53 - (ex + n)) with 1 by lia.
    change (2 ^ 53) with 9007199254740992 in *.
    cbn [shr shr_record_of_loc iter_pos shr_1 shr_m].
    replace (ex + n + 1 <=? 1024 - 53) with true by (symmetry; apply Z.leb_le; lia).
    replace (ex + n + 1) with (ex + (n + 1)) by lia.
    split; [reflexivity|]. split; [now right|]. split; [lia|].
    split; [simpl; lia|].
    rewrite (Z.pow_add_r 2 n 1) by lia. change (2 ^ 1) with 2.
    replace (Z.pos 4503599627370496 * (2 ^ n * 2) * D)
      with (9007199254740992 * (D * 2 ^ n)) by lia.
    lia.
  - assert (Hdig : Zdigits2 m2 = 53).
    { apply Zdigits2_unique; [|lia]. change (53 - 1) with 52. lia. }
    destruct m2 as [|m|m] eqn:Em2; try lia.
    exists m, n.
    unfold shr_fexp. rewrite Hdig.
    rewrite fexp_normal by lia.
    replace (53 + (ex + n) - 53 - (ex + n)) with 0 by lia.
    cbn [shr shr_record_of_loc shr_m].
    replace (ex + n <=? 1024 - 53) with true by (symmetry; apply Z.leb_le; lia).
    split; [reflexivity|]. split; [now left|]. split; [lia|].
    split; [lia|].
    replace (Z.pos m * 2 ^ n * D) with (Z.pos m * (D * 2 ^ n)) by lia.
    lia.
Qed.

Lemma Zdigits2_le m k : 0 < m < 2 ^ k -> Zdigits2 m <= k.
Proof.
  intros [Hpos Hlt].
  pose proof (Zdigits2_bounds m Hpos) as [Hlo _].
  destruct (Z.le_gt_cases (Zdigits2 m) k) as [|Hgt]; trivial.
  assert (2 ^ k <= 2 ^ (Zdigits2 m - 1)) by (apply Z.pow_le_mono_r; lia).
  lia.
Qed.

Lemma Zdigits2_gt m k : 0 <= k -> 2 ^ k <= m -> k < Zdigits2 m.
Proof.
  intros Hk Hle.
  assert (0 < 2 ^ k) by (apply Z.pow_pos_nonneg; lia).
  pose proof (Zdigits2_bounds m ltac:(lia)) as [_ Hhi].
  apply (Z.pow_lt_mono_r_iff 2); try lia.
  destruct m as [|p|p]; simpl; lia.
Qed.

Lemma Pos_iter_xO p k : Z.pos (Pos.iter xO p k) = Z.pos p * 2 ^ Z.pos k.
Proof.
  induction k as [|k IH] using Pos.peano_ind.
  - simpl. lia.
  - rewrite Pos.iter_succ, Pos2Z.inj_succ, Z.pow_succ_r by lia.
    rewrite Pos2Z.inj_xO, IH. lia.
Qed.

(** An integer below [2 ^ 53] is a Number: [of_int] only aligns it. *)
Lemma of_int_exact z :
  0 < z < 2 ^ 53 ->
  exists m e,
    Js.of_int z = S754_finite false m e
    /\ -52 <= e <= 0
    /\ Z.pos m = z * 2 ^ (- e)
    /\ 2 ^ 52 <= Z.pos m < 2 ^ 53.
Proof.
  intros [Hpos Hlt]. destruct z as [|p|p]; try lia.
  pose proof (digits2_pos_bounds p) as [Hlo Hhi].
  set (d := Z.pos (digits2_pos p)) in *.
  assert (Hd : 1 <= d <= 53).
  { split; [subst d; lia|]. apply (Zdigits2_le (Z.pos p) 53). lia. }
  unfold Js.of_int, binary_normalize, binary_round, Js.prec, Js.emax.
  fold d. rewrite fexp_normal by lia.
  assert (Haligned : exists mz,
            shl_align p 0 (d + 0 - 53) = (mz, d - 53)
            /\ Z.pos mz = Z.pos p * 2 ^ (53 - d)).
  { unfold shl_align.
    destruct (d + 0 - 53 - 0) as [|k|k] eqn:Hk; try lia.
    - exists p. replace (d - 53) with 0 by lia.
      replace (53 - d) with 0 by lia. split; [reflexivity|simpl; lia].
    - exists (Pos.iter xO p k). split; [f_equal; lia|].
      rewrite Pos_iter_xO. f_equal. f_equal. lia. }
  destruct Haligned as [mz [-> Hmz]].
  assert (Hrange : 2 ^ 52 <= Z.pos mz < 2 ^ 53).
  { rewrite Hmz.
    assert (0 < 2 ^ (53 - d)) by (apply Z.pow_pos_nonneg; lia).
    assert (2 ^ 52 = 2 ^ (d - 1) * 2 ^ (53 - d)).
    { rewrite <- Z.pow_add_r by lia. f_equal. lia. }
    assert (2 ^ 53 = 2 ^ d * 2 ^ (53 - d)).
    { rewrite <- Z.pow_add_r by lia. f_equal. lia. }
    nia. }
  assert (Hdig : Zdigits2 (Z.pos mz) = 53).
  { apply Zdigits2_unique; [|lia]. change (53 - 1) with 52. lia. }
  change loc_Exact with (location_of 0 1).
  destruct (binary_round_aux_normal (Z.pos mz) (d - 53) 0 1)
    as [m [n [Hres [Hn [_ [Hm [Hup Hdown]]]]]]]; try lia.
  rewrite Hdig in *. change (2 ^ (53 - 53)) with 1 in *.
  assert (Hn0 : n = 0).
  { destruct Hn as [->| ->]; [reflexivity|]. change (2 ^ (53 - 53 + 1)) with 2 in *. lia. }
  subst n. change (2 ^ 0) with 1 in *.
  assert (m = mz) by lia. subst m.
  exists mz, (d - 53). rewrite Hres.
  split; [f_equal; lia|]. split; [lia|]. split; [|exact Hrange].
  rewrite Hmz. f_equal. f_equal. lia.
Qed.

(** The same, as a relative error: the result is within [2 ^ -53] of itself
    from the number rounded. *)
Lemma binary_round_aux_relative mx ex R D :
  2 ^ 52 <= mx -> 0 <= R < D ->
  -1074 <= Zdigits2 mx + ex - 53 ->
  Zdigits2 mx + ex <= 1023 ->
  exists m n,
    binary_round_aux 53 1024 false mx ex (location_of R D)
      = S754_finite false m (ex + n)
    /\ 0 <= n <= Zdigits2 mx - 52
    /\ 2 ^ 52 <= Z.pos m < 2 ^ 53
    /\ (2 ^ 53 - 1) * (Z.pos m * 2 ^ n * D) <= 2 ^ 53 * (mx * D + R)
    /\ 2 ^ 53 * (mx * D + R) <= (2 ^ 53 + 1) * (Z.pos m * 2 ^ n * D).
Proof.
  intros Hmx HR Hlow Hhigh.
  destruct (binary_round_aux_normal mx ex R D Hmx HR Hlow Hhigh)
    as [m [n [Hres [Hn [Hn0 [Hm [Hup Hdown]]]]]]].
  exists m, n. split; [exact Hres|]. split; [lia|]. split; [exact Hm|].
  set (n0 := Zdigits2 mx - 53) in *.
  assert (HP0 : 0 < 2 ^ n0) by (apply Z.pow_pos_nonneg; lia).
  assert (Hweight : 2 ^ 52 * (2 ^ n0 * D) <= Z.pos m * 2 ^ n * D).
  { assert (Hpow : 2 ^ n0 <= 2 ^ n) by (apply Z.pow_le_mono_r; lia).
    assert (2 ^ 52 * 2 ^ n0 <= Z.pos m * 2 ^ n).
    { apply Z.mul_le_mono_nonneg; lia. }
    rewrite Z.mul_assoc. apply Z.mul_le_mono_nonneg_r; lia. }
  change (2 ^ 53) with 9007199254740992 in *.
  change (2 ^ 52) with 4503599627370496 in *.
  split; lia.
Qed.

Lemma new_location_of D R :
  0 < D -> 0 <= R < D -> new_location D R = location_of R D.
Proof.
  intros HD HR. unfold new_location, new_location_even, new_location_odd, location_of.
  destruct (Z.even D) eqn:Heven; destruct (R =? 0); trivial.
  f_equal.
  assert (Hodd : Z.odd D = true) by (rewrite <- Z.negb_even, Heven; reflexivity).
  apply Z.odd_spec in Hodd. destruct Hodd as [k ->].
  destruct (Z.compare_spec (2 * R + 1) (2 * k + 1));
    symmetry; [apply Z.compare_lt_iff|apply Z.compare_lt_iff|apply Z.compare_gt_iff];
    lia.
Qed.

(** Division of two aligned integers. *)
Lemma div_relative mc ec mt et :
  2 ^ 52 <= Z.pos mc < 2 ^ 53 -> 2 ^ 52 <= Z.pos mt < 2 ^ 53 ->
  -52 <= ec <= 0 -> -52 <= et <= 0 ->
  exists mq n,
    Js.div (S754_finite false mc ec) (S754_finite false mt et)
      = S754_finite false mq (ec - et - 53 + n)
    /\ 0 <= n <= 2
    /\ 2 ^ 52 <= Z.pos mq < 2 ^ 53
    /\ (2 ^ 53 - 1) * (Z.pos mq * 2 ^ n * Z.pos mt) <= 2 ^ 53 * (Z.pos mc * 2 ^ 53)
    /\ 2 ^ 53 * (Z.pos mc * 2 ^ 53) <= (2 ^ 53 + 1) * (Z.pos mq * 2 ^ n * Z.pos mt).
Proof.
  intros Hmc Hmt Hec Het.
  unfold Js.div, SFdiv, SFdiv_core_binary, Js.prec, Js.emax.
  assert (Hdc : Zdigits2 (Z.pos mc) = 53).
  { apply Zdigits2_unique; [|lia]. change (53 - 1) with 52. lia. }
  assert (Hdt : Zdigits2 (Z.pos mt) = 53).
  { apply Zdigits2_unique; [|lia]. change (53 - 1) with 52. lia. }
  rewrite Hdc, Hdt. rewrite fexp_normal by lia.
  replace (Z.min (53 + ec - (53 + et) - 53) (ec - et)) with (ec - et - 53) by lia.
  replace (ec - et - (ec - et - 53)) with 53 by lia.
  rewrite Z.shiftl_mul_pow2 by lia.
  pose proof (Z_div_mod (Z.pos mc * 2 ^ 53) (Z.pos mt) ltac:(lia)) as Hdm.
  destruct (Z.div_eucl (Z.pos mc * 2 ^ 53) (Z.pos mt)) as [q r].
  destruct Hdm as [Hq Hr].
  rewrite new_location_of by lia.
  change (2 ^ 53) with 9007199254740992 in *.
  change (2 ^ 52) with 4503599627370496 in *.
  assert (Hqlo : 4503599627370496 <= q) by nia.
  assert (Hqhi : q < 2 ^ 54) by (change (2 ^ 54) with 18014398509481984; nia).
  assert (Hdq : 53 <= Zdigits2 q <= 54).
  { split.
    - apply Z.lt_succ_r. change (Z.succ (Zdigits2 q)) with (Zdigits2 q + 1).
      pose proof (Zdigits2_gt q 52 ltac:(lia)). change (2 ^ 52) with 4503599627370496 in *. lia.
    - apply Zdigits2_le. lia. }
  destruct (binary_round_aux_relative q (ec - et - 53) r (Z.pos mt))
    as [mq [n [Hres [Hn [Hmq [Hlo Hhi]]]]]];
    try (change (2 ^ 52) with 4503599627370496); try lia.
  exists mq, n. cbn [xorb]. rewrite Hres.
  change (2 ^ 53) with 9007199254740992 in *.
  change (2 ^ 52) with 4503599627370496 in *.
  split; [reflexivity|]. split; [lia|]. split; [exact Hmq|].
  replace (q * Z.pos mt + r) with (Z.pos mc * 9007199254740992) in * by lia.
  split; assumption.
Qed.

(** Multiplication by the Number 100. *)
Lemma mul_100_relative mq eq :
  2 ^ 52 <= Z.pos mq < 2 ^ 53 -> -200 <= eq <= 100 ->
  exists mp n,
    Js.mul (S754_finite false mq eq) (Js.of_int 100)
      = S754_finite false mp (eq - 46 + n)
    /\ 0 <= n
    /\ 2 ^ 52 <= Z.pos mp < 2 ^ 53
    /\ (2 ^ 53 - 1) * (Z.pos mp * 2 ^ n) <= 2 ^ 53 * (Z.pos mq * (100 * 2 ^ 46))
    /\ 2 ^ 53 * (Z.pos mq * (100 * 2 ^ 46)) <= (2 ^ 53 + 1) * (Z.pos mp * 2 ^ n).
Proof.
  intros Hmq Heq.
  change (Js.of_int 100) with (S754_finite false 7036874417766400 (-46)).
  unfold Js.mul, SFmul, Js.prec, Js.emax. cbn [xorb].
  rewrite Pos2Z.inj_mul.
  change (2 ^ 53) with 9007199254740992 in *.
  change (2 ^ 52) with 4503599627370496 in *.
  assert (Hlo : 2 ^ 98 <= Z.pos mq * 7036874417766400).
  { change (2 ^ 98) with 316912650057057350374175801344. lia. }
  assert (Hhi : Z.pos mq * 7036874417766400 < 2 ^ 106).
  { change (2 ^ 106) with 81129638414606681695789005144064. lia. }
  assert (Hd : 99 <= Zdigits2 (Z.pos mq * 7036874417766400) <= 106).
  { split.
    - pose proof (Zdigits2_gt _ 98 ltac:(lia) Hlo). lia.
    - apply Zdigits2_le. lia. }
  change loc_Exact with (location_of 0 1).
  destruct (binary_round_aux_relative (Z.pos mq * 7036874417766400) (eq + -46) 0 1)
    as [mp [n [Hres [Hn [Hmp [Hdown Hup]]]]]]; try lia.
  exists mp, n. rewrite Hres.
  change (2 ^ 53) with 9007199254740992 in *.
  change (2 ^ 52) with 4503599627370496 in *.
  change (100 * 2 ^ 46) with 7036874417766400.
  split; [f_equal; lia|]. split; [lia|]. split; [exact Hmp|].
  split; lia.
Qed.

(** The linear core of the error analysis.  [w], [g] and [a] stand for the
    computed product, the computed quotient times 100 and the exact
    percentage, all scaled by [t * k]; [k] is the scale of one unit. *)
Lemma nearest_from_relative (w g ck tk rtk k : Z) :
  0 < k -> 0 <= ck -> ck <= 2 ^ 44 * k ->
  (2 ^ 53 - 1) * g <= 2 ^ 53 * (100 * ck) ->
  2 ^ 53 * (100 * ck) <= (2 ^ 53 + 1) * g ->
  (2 ^ 53 - 1) * w <= 2 ^ 53 * g ->
  2 ^ 53 * g <= (2 ^ 53 + 1) * w ->
  2 * rtk <= 2 * w + tk ->
  2 * w + tk < 2 * rtk + 2 * tk ->
  ~ (2 * rtk + tk + k <= 200 * ck) /\ ~ (200 * ck + tk + k <= 2 * rtk).
Proof.
  change (2 ^ 53) with 9007199254740992.
  change (2 ^ 44) with 17592186044416.
  intros. split; lia.
Qed.

(** [Math.round((c / t) * 100)] is an integer nearest to [100 * c / t]. *)
Lemma percentage_nearest c t :
  0 <= c <= t -> 0 < t <= 2 ^ 44 ->
  exists r, percentage c t = Some r /\ 2 * Z.abs (r * t - 100 * c) <= t.
Proof.
  intros Hc Ht.
  assert (H44 : 2 ^ 44 < 2 ^ 53) by (apply Z.pow_lt_mono_r; lia).
  destruct (of_int_exact t ltac:(lia)) as [mt [et [Hoft [Het [Hmt Hmtr]]]]].
  unfold percentage. rewrite Hoft.
  destruct (Z.eq_dec c 0) as [->|Hc0].
  - exists 0. split; [reflexivity|]. simpl. lia.
  - destruct (of_int_exact c ltac:(lia)) as [mc [ec [Hofc [Hec [Hmc Hmcr]]]]].
    rewrite Hofc.
    destruct (div_relative mc ec mt et Hmcr Hmtr Hec Het)
      as [mq [n1 [Hdiv [Hn1 [Hmq [Hdlo Hdhi]]]]]].
    rewrite Hdiv.
    destruct (mul_100_relative mq (ec - et - 53 + n1) Hmq ltac:(lia))
      as [mp [n2 [Hmul [Hn2 [Hmp [Hmlo Hmhi]]]]]].
    rewrite Hmul.
    set (ep := ec - et - 53 + n1 - 46 + n2) in *.
    set (A := 2 ^ (- ec)) in *. set (B := 2 ^ (- et)) in *.
    set (N1 := 2 ^ n1) in *. set (N2 := 2 ^ n2) in *.
    assert (HA : 0 < A) by (apply Z.pow_pos_nonneg; lia).
    assert (HB : 0 < B) by (apply Z.pow_pos_nonneg; lia).
    assert (HN1 : 0 < N1) by (apply Z.pow_pos_nonneg; lia).
    assert (HN2 : 0 < N2) by (apply Z.pow_pos_nonneg; lia).
    set (k := A * 2 ^ 99).
    assert (Hk : 0 < k) by (subst k; change (2 ^ 99) with 633825300114114700748351602688; lia).
    (* the quotient *)
    set (g := 100 * 2 ^ 46 * (Z.pos mq * N1 * Z.pos mt)).
    assert (Hg_lo : (2 ^ 53 - 1) * g <= 2 ^ 53 * (100 * (c * k))).
    { subst g k. rewrite Hmc in Hdlo.
      change (2 ^ 99) with (2 ^ 46 * 2 ^ 53).
      change (2 ^ 53) with 9007199254740992 in *.
      change (2 ^ 46) with 70368744177664 in *. lia. }
    assert (Hg_hi : 2 ^ 53 * (100 * (c * k)) <= (2 ^ 53 + 1) * g).
    { subst g k. rewrite Hmc in Hdhi.
      change (2 ^ 99) with (2 ^ 46 * 2 ^ 53).
      change (2 ^ 53) with 9007199254740992 in *.
      change (2 ^ 46) with 70368744177664 in *. lia. }
    (* the product *)
    set (w := Z.pos mp * N2 * (N1 * Z.pos mt)).
    assert (Hscale : 0 <= N1 * Z.pos mt) by lia.
    assert (Hw_lo : (2 ^ 53 - 1) * w <= 2 ^ 53 * g).
    { pose proof (Z.mul_le_mono_nonneg_r _ _ _ Hscale Hmlo). subst w g. lia. }
    assert (Hw_hi : 2 ^ 53 * g <= (2 ^ 53 + 1) * w).
    { pose proof (Z.mul_le_mono_nonneg_r _ _ _ Hscale Hmhi). subst w g. lia. }
    assert (Hck : c * k <= 2 ^ 44 * k) by (apply Z.mul_le_mono_nonneg_r; lia).
    assert (Hck0 : 0 <= c * k) by lia.
    unfold Js.Math_round.
    replace (ec - et - 53 + n1 - 46 + n2) with ep by reflexivity.
    destruct (Z.leb_spec 0 ep) as [Hep|Hep].
    + (* the product would be at least 2^52 *)
      exfalso.
      assert (Hpow : N1 * N2 * B = k * 2 ^ ep).
      { subst N1 N2 B k A. change (2 ^ 99) with (2 ^ 99).
        rewrite <- !Z.pow_add_r by lia. f_equal. subst ep. lia. }
      assert (Hone : 1 <= 2 ^ ep)
        by (pose proof (Z.pow_pos_nonneg 2 ep ltac:(lia) Hep); lia).
      assert (Hw : w = Z.pos mp * (t * (k * 2 ^ ep))).
      { subst w. rewrite Hmt. fold B. rewrite <- Hpow. lia. }
      assert (Hbig : 2 ^ 52 * (t * k) <= w).
      { rewrite Hw. apply Z.mul_le_mono_nonneg; try lia.
        apply Z.mul_le_mono_nonneg_l; [lia|]. nia. }
      assert (Htk : c * k <= t * k) by (apply Z.mul_le_mono_nonneg_r; lia).
      assert (Htk0 : 0 < t * k) by lia.
      change (2 ^ 53) with 9007199254740992 in *.
      change (2 ^ 52) with 4503599627370496 in *.
      lia.
    + set (P := 2 ^ (- ep)).
      assert (HP : 0 < P) by (apply Z.pow_pos_nonneg; lia).
      replace (2 ^ (- ep + 1)) with (2 * P)
        by (subst P; rewrite Z.pow_add_r by lia; change (2 ^ 1) with 2; lia).
      set (r := (2 * Z.pos mp + P) / (2 * P)).
      exists r. split; [reflexivity|].
      pose proof (Z.mul_div_le (2 * Z.pos mp + P) (2 * P) ltac:(lia)) as Hr_lo.
      pose proof (Z.mul_succ_div_gt (2 * Z.pos mp + P) (2 * P) ltac:(lia)) as Hr_hi.
      fold r in Hr_lo, Hr_hi.
      assert (Hpow : P * N1 * N2 * B = k).
      { subst P N1 N2 B k A.
        rewrite <- !Z.pow_add_r by lia. f_equal. subst ep. lia. }
      set (s := N2 * N1 * (t * B)).
      assert (Hs : 0 <= s) by (subst s; nia).
      assert (HPs : P * s = t * k) by (subst s; rewrite <- Hpow; lia).
      assert (Hws : w = Z.pos mp * s) by (subst w s; rewrite Hmt; fold B; lia).
      assert (Hround_lo : 2 * (r * (t * k)) <= 2 * w + t * k).
      { pose proof (Z.mul_le_mono_nonneg_r _ _ _ Hs Hr_lo) as H.
        rewrite Hws, <- HPs. lia. }
      assert (Hround_hi : 2 * w + t * k < 2 * (r * (t * k)) + 2 * (t * k)).
      { assert (Hs' : 0 < s) by (subst s; nia).
        pose proof (proj1 (Z.mul_lt_mono_pos_r s _ _ Hs') Hr_hi) as H.
        rewrite Hws, <- HPs. lia. }
      destruct (nearest_from_relative w g (c * k) (t * k) (r * (t * k)) k
                  Hk Hck0 Hck Hg_lo Hg_hi Hw_lo Hw_hi Hround_lo Hround_hi)
        as [Hupper Hlower].
      assert (Hgap_u : ~ (2 * (r * t) + t + 1 <= 200 * c)).
      { intros H. apply Hupper.
        pose proof (Z.mul_le_mono_nonneg_r _ _ k ltac:(lia) H). lia. }
      assert (Hgap_l : ~ (200 * c + t + 1 <= 2 * (r * t))).
      { intros H. apply Hlower.
        pose proof (Z.mul_le_mono_nonneg_r _ _ k ltac:(lia) H). lia. }
      lia.
Qed.

(* ================================================================== *)
(** ** Dashboard statistics *)
(* ================================================================== *)

Lemma count_status_total db :
  count_status PENDING db + count_status IN_PROGRESS db + count_status COMPLETED db
  = Z.of_nat (List.length (tasks db)).
Proof.
  unfold count_status. induction (tasks db) as [|t ts IH]; [reflexivity|].
  cbn [filter List.length]. destruct (t_status t); cbn [status_eqb List.length]; lia.
Qed.

Lemma count_status_le s db :
  0 <= count_status s db <= Z.of_nat (List.length (tasks db)).
Proof.
  unfold count_status. split; [lia|].
  apply Nat2Z.inj_le. apply filter_length_le.
Qed.

Lemma Sorted_weaken {X} (R R' : X -> X -> Prop) (l : list X) :
  (forall a b, R a b -> R' a b) -> Sorted R l -> Sorted R' l.
Proof.
  intros Himp. induction 1 as [|a l Hs IH Hhd]; constructor; trivial.
  destruct Hhd; constructor; auto.
Qed.

Lemma reachable_run_all calls db : reachable db -> reachable (run_all calls db).
Proof.
  revert db. induction calls as [|c calls IH]; intros db H; [exact H|].
  apply IH. now apply reachable_call.
Qed.

(** C3, amended.  [getDashboardStats] returns the number of tasks, the
    number of completed tasks, the three counts by status (which add up to
    the total), and one entry per employee, with or without tasks, carrying
    the number of tasks of that employee, largest count first.
    [completionRate] is 0 when there is no task; otherwise (for up to 2^44
    tasks) it is an integer between 0 and 100 at most one half away from
    [100 * completed / total]. *)
Theorem getDashboardStats_counts (db : database) :
  let stats := getDashboardStats db in
  let total := Z.of_nat (List.length (tasks db)) in
  let completed :=
    Z.of_nat (List.length (filter (fun t => status_eqb (t_status t) COMPLETED)
                             (tasks db))) in
  totalTasks stats = total
  /\ completedTasks stats = completed
  /\ s_completed (tasksByStatus stats) = completed
  /\ s_pending (tasksByStatus stats) =
       Z.of_nat (List.length (filter (fun t => status_eqb (t_status t) PENDING)
                                (tasks db)))
  /\ s_in_progress (tasksByStatus stats) =
       Z.of_nat (List.length (filter (fun t => status_eqb (t_status t) IN_PROGRESS)
                                (tasks db)))
  /\ s_pending (tasksByStatus stats) + s_in_progress (tasksByStatus stats)
       + s_completed (tasksByStatus stats) = total
  /\ (total = 0 -> completionRate stats = Some 0)
  /\ (0 < total <= 2 ^ 44 ->
       exists rate,
         completionRate stats = Some rate
         /\ 0 <= rate <= 100
         /\ 2 * Z.abs (rate * total - 100 * completed) <= total)
  /\ Permutation (tasksByEmployee stats)
       (map (fun e => mkCount (e_id e) (e_name e)
                        (Z.of_nat (List.length
                           (filter (fun t => e_id e =? t_employeeId t) (tasks db)))))
            (employees db))
  /\ Sorted (fun a b => c_taskCount b <= c_taskCount a) (tasksByEmployee stats).
Proof.
  intros stats total completed.
  pose proof (count_status_le COMPLETED db) as Hle.
  fold total in Hle. change (count_status COMPLETED db) with completed in Hle.
  split; [reflexivity|]. split; [reflexivity|]. split; [reflexivity|].
  split; [reflexivity|]. split; [reflexivity|].
  split; [apply count_status_total|].
  split; [|split; [|split]].
  - intros H0. subst stats. unfold getDashboardStats. cbn [completionRate].
    fold total. now rewrite H0.
  - intros Htotal. subst stats. unfold getDashboardStats. cbn [completionRate].
    fold total. change (count_status COMPLETED db) with completed.
    replace (0 <? total) with true by (symmetry; apply Z.ltb_lt; lia).
    destruct (percentage_nearest completed total ltac:(lia) Htotal)
      as [rate [Hrate Hnear]].
    exists rate. split; [exact Hrate|]. split; [nia|exact Hnear].
  - subst stats. unfold getDashboardStats. cbn [tasksByEmployee].
    apply Permutation_sym. apply sort_by_perm.
  - subst stats. unfold getDashboardStats. cbn [tasksByEmployee].
    apply (Sorted_weaken (fun a b => most_tasks_first a b = true)).
    + intros a b. unfold most_tasks_first. apply Z.leb_le.
    + apply (sort_by_sorted most_tasks_first).
      intros a b. unfold most_tasks_first.
      destruct (Z.leb_spec (c_taskCount b) (c_taskCount a)); [now left|right].
      apply Z.leb_le. lia.
Qed.

(** C3 as stated fails.  With 200 tasks of which 29 are completed the exact
    percentage is 14.5 and [round] of it is 15, but the quotient and the
    product are computed in binary64, the product comes out just below 14.5,
    and [completionRate] is 14.  The direction at an exact half is not
    fixed: 1 completed task out of 200 (0.5) gives 1. *)
Lemma getDashboardStats_counts_counterexample :
  reachable busy_db
  /\ totalTasks (getDashboardStats busy_db) = 200
  /\ completedTasks (getDashboardStats busy_db) = 29
  /\ completionRate (getDashboardStats busy_db) = Some 14
  /\ round_half_up (100 * 29) 200 = 15
  /\ percentage 1 200 = Some 1.
Proof.
  split.
  - exact (reachable_run_all busy_calls empty_db reachable_empty).
  - repeat split; vm_compute; reflexivity.
Qed.

(** On the seeded database: 24 tasks, 8 of them completed, rate 33. *)
Lemma getDashboardStats_counts_witness :
  exists rate,
    completionRate (getDashboardStats seeded_db) = Some rate
    /\ 0 <= rate <= 100
    /\ 2 * Z.abs (rate * 24 - 100 * 8) <= 24.
Proof.
  assert (Hsmall : 0 < 24 <= 2 ^ 44) by lia.
  exact (proj1 (proj2 (proj2 (proj2 (proj2 (proj2 (proj2 (proj2
           (getDashboardStats_counts seeded_db)))))))) Hsmall).
Defined.

(** The two examples of the specification: 3 of 10 is 30, and the empty
    database has rate 0. *)
Example completionRate_3_of_10 : percentage 3 10 = Some 30.
Proof. reflexivity. Qed.

Example completionRate_empty :
  completionRate (getDashboardStats empty_db) = Some 0.
Proof. reflexivity. Qed.

(* ================================================================== *)
(** * Further properties of the storage layer *)
(* ================================================================== *)

(** X1.  [getAllEmployees] lists every employee row exactly once, in
    ascending bytewise order of [name]. *)
Theorem getAllEmployees_sorted (db : database) :
  Permutation (getAllEmployees db) (employees db)
  /\ Sorted (fun a b => String.leb (e_name a) (e_name b) = true)
            (getAllEmployees db).
Proof.
  split.
  - apply Permutation_sym. apply sort_by_perm.
  - apply (sort_by_sorted by_name).
    intros a b. unfold by_name. apply String.leb_total.
Qed.

Lemma find_snoc_other {Row} (key : Row -> Z) rows row id :
  id <> key row ->
  find (fun r => key r =? id) (rows ++ [row]) = find (fun r => key r =? id) rows.
Proof.
  intros Hne. induction rows as [|r rows IH]; simpl.
  - destruct (Z.eqb_spec (key row) id); [congruence|reflexivity].
  - destruct (key r =? id); [reflexivity|exact IH].
Qed.

(** X2.  When no employee holds the email, [createEmployee] appends one row
    and returns it: its id is larger than every id in the table and than the
    AUTOINCREMENT counter, so it was never used; it carries the fields given
    and [now]; [getEmployeeById] finds it under its id and finds what it found
    before under any other id; the tasks are untouched. *)
Theorem createEmployee_fresh_id (db : database) (employee : InsertEmployee)
    (now : string) :
  (forall e, In e (employees db) -> e_email e <> ie_email employee) ->
  exists row db',
    createEmployee employee now db = (Return (Some row), db')
    /\ employees db' = employees db ++ [row]
    /\ tasks db' = tasks db
    /\ (forall e, In e (employees db) -> e_id e < e_id row)
    /\ employees_seq db < e_id row
    /\ employees_seq db' = e_id row
    /\ e_name row = ie_name employee
    /\ e_email row = ie_email employee
    /\ e_department row = ie_department employee
    /\ e_position row = ie_position employee
    /\ e_createdAt row = now
    /\ getEmployeeById (e_id row) db' = Some row
    /\ (forall id, id <> e_id row ->
          getEmployeeById id db' = getEmployeeById id db).
Proof.
  intros Hfree.
  assert (Hno : existsb (fun e => String.eqb (e_email e) (ie_email employee))
                  (employees db) = false).
  { destruct (existsb _ _) eqn:E; [|reflexivity].
    apply email_taken in E. destruct E as [e [He Heq]].
    now destruct (Hfree e He). }
  pose proof (createEmployee_inserts employee now db Hno) as Hrun.
  cbv zeta in Hrun.
  set (row := mkEmployee (next_rowid (employees_seq db) (map e_id (employees db)))
                (ie_name employee) (ie_email employee) (ie_department employee)
                (ie_position employee) now) in *.
  exists row. eexists. split; [exact Hrun|].
  cbn [employees tasks employees_seq].
  assert (Hbig : forall e, In e (employees db) -> e_id e < e_id row).
  { intros e He. subst row. cbn [e_id]. unfold next_rowid.
    pose proof (max_rowid_ge (map e_id (employees db)) (e_id e) (in_map e_id _ _ He)).
    lia. }
  repeat match goal with |- _ /\ _ => split end; trivial.
  - subst row. cbn [e_id]. unfold next_rowid. lia.
  - unfold getEmployeeById, select_employee. cbn [employees].
    apply (find_snoc_fresh e_id). intros Hin. apply in_map_iff in Hin.
    destruct Hin as [e [Heq He]]. specialize (Hbig e He). lia.
  - intros id Hne. unfold getEmployeeById, select_employee. cbn [employees].
    now apply (find_snoc_other e_id).
Qed.

(** A first employee in the empty database gets id 1. *)
Lemma createEmployee_fresh_id_witness :
  exists row db',
    createEmployee (mkInsertEmployee "Asha Rao" "asha.rao@company.com" "Support" "Agent")
      "2025-01-01 00:00:00" empty_db = (Return (Some row), db')
    /\ getEmployeeById (e_id row) db' = Some row
    /\ employees_seq empty_db < e_id row.
Proof.
  destruct (createEmployee_fresh_id empty_db
              (mkInsertEmployee "Asha Rao" "asha.rao@company.com" "Support" "Agent")
              "2025-01-01 00:00:00" (fun e (H : In e []) => match H with end))
    as [row [db' [Hrun [_ [_ [_ [Hseq [_ [_ [_ [_ [_ [_ [Hget _]]]]]]]]]]]]]].
  exists row, db'. auto.
Defined.

(** X3.  [updateEmployee] returns [None] and changes nothing for an id that
    has no row; with no field supplied it returns the row as it is and writes
    nothing; otherwise, when the email supplied (if any) is held by no other
    employee, it writes exactly the supplied fields of that row, keeps its id
    and [created_at], leaves every other employee and all tasks alone, and
    returns the row as written, which is the row [getEmployeeById] finds
    afterwards. *)
Theorem updateEmployee_patch (db : database) (id : Z) (p : PartialInsertEmployee) :
  (getEmployeeById id db = None -> updateEmployee id p db = (Return None, db))
  /\
  (forall old, getEmployeeById id db = Some old -> no_employee_field p = true ->
     updateEmployee id p db = (Return (Some old), db))
  /\
  (forall old,
     getEmployeeById id db = Some old ->
     (forall em, pe_email p = Some em ->
        forall e, In e (employees db) -> e_id e <> id -> e_email e <> em) ->
     exists new db',
       updateEmployee id p db = (Return (Some new), db')
       /\ e_id new = e_id old
       /\ e_createdAt new = e_createdAt old
       /\ supplied_or (pe_name p) (e_name old) (e_name new)
       /\ supplied_or (pe_email p) (e_email old) (e_email new)
       /\ supplied_or (pe_department p) (e_department old) (e_department new)
       /\ supplied_or (pe_position p) (e_position old) (e_position new)
       /\ tasks db' = tasks db
       /\ employees_seq db' = employees_seq db
       /\ (forall e, In e (employees db) -> e_id e <> id -> In e (employees db'))
       /\ List.length (employees db') = List.length (employees db)
       /\ getEmployeeById id db' = Some new).
Proof.
  split; [|split].
  - intros Hnone. unfold updateEmployee, bind, query. now rewrite Hnone.
  - intros old Hold Hnof. unfold updateEmployee, bind, query.
    now rewrite Hold, Hnof.
  - intros old Hold Hfree.
    assert (Hex : has_employee db id = true).
    { destruct (has_employee db id) eqn:E; [reflexivity|].
      apply getEmployeeById_None in E. congruence. }
    assert (Hspec : e_id (apply_employee_sets p old) = e_id old
            /\ e_createdAt (apply_employee_sets p old) = e_createdAt old
            /\ supplied_or (pe_name p) (e_name old) (e_name (apply_employee_sets p old))
            /\ supplied_or (pe_email p) (e_email old) (e_email (apply_employee_sets p old))
            /\ supplied_or (pe_department p) (e_department old)
                 (e_department (apply_employee_sets p old))
            /\ supplied_or (pe_position p) (e_position old)
                 (e_position (apply_employee_sets p old))).
    { unfold apply_employee_sets, supplied_or, set_or_keep. simpl.
      repeat split;
        match goal with
        | |- match ?x with Some _ => _ | None => _ end => now destruct x
        end. }
    destruct (no_employee_field p) eqn:Hnof.
    + exists old, db. split.
      { unfold updateEmployee, bind, query. now rewrite Hold, Hnof. }
      unfold no_employee_field in Hnof.
      destruct (pe_name p), (pe_email p), (pe_department p), (pe_position p);
        try discriminate.
      simpl. repeat split; auto.
    + exists (apply_employee_sets p old). eexists. split.
      { unfold updateEmployee, bind, query. rewrite Hold, Hnof.
        unfold update_employee. rewrite Hex.
        assert (Hclash : match pe_email p with
                         | Some em =>
                             existsb (fun e => negb (e_id e =? id)
                                               && String.eqb (e_email e) em)
                                     (employees db)
                         | None => false
                         end = false).
        { destruct (pe_email p) as [em|]; [|reflexivity].
          destruct (existsb _ _) eqn:E; [|reflexivity].
          apply existsb_exists in E. destruct E as [e [He Hc]].
          apply andb_true_iff in Hc. destruct Hc as [Hne Heq].
          apply negb_true_iff, Z.eqb_neq in Hne. apply String.eqb_eq in Heq.
          now destruct (Hfree em eq_refl e He Hne). }
        rewrite Hclash. unfold getEmployeeById, select_employee. cbn [employees].
        rewrite (find_map_update e_id (apply_employee_sets p) id (employees db))
          by reflexivity.
        unfold getEmployeeById, select_employee in Hold. rewrite Hold. reflexivity. }
      cbn [tasks employees employees_seq].
      destruct Hspec as [H1 [H2 [H3 [H4 [H5 H6]]]]].
      repeat match goal with |- _ /\ _ => split end; trivial.
      * intros e He Hne. apply in_map_iff. exists e. split; trivial.
        destruct (Z.eqb_spec (e_id e) id); [contradiction|reflexivity].
      * apply length_map.
      * unfold getEmployeeById, select_employee. cbn [employees].
        rewrite (find_map_update e_id (apply_employee_sets p) id (employees db))
          by reflexivity.
        unfold getEmployeeById, select_employee in Hold. now rewrite Hold.
Qed.

(** Renaming employee 2 of the seeded database. *)
Lemma updateEmployee_patch_witness :
  exists new db',
    updateEmployee 2 (mkPartialInsertEmployee (Some "Priya S.") None None None)
      seeded_db = (Return (Some new), db')
    /\ e_name new = "Priya S."
    /\ e_email new = "priya.sharma@company.com"
    /\ tasks db' = tasks seeded_db.
Proof.
  destruct (proj2 (proj2 (updateEmployee_patch seeded_db 2
              (mkPartialInsertEmployee (Some "Priya S.") None None None)))
              (mkEmployee 2 "Priya Sharma" "priya.sharma@company.com" "Marketing"
                 "Content Manager" "2025-01-01 00:00:00")
              eq_refl ltac:(discriminate))
    as [new [db' [Hrun [_ [_ [Hname [Hemail [_ [_ [Ht _]]]]]]]]]].
  exists new, db'. simpl in *. auto.
Defined.

Lemma find_filter_other {Row} (key : Row -> Z) rows id id' :
  id' <> id ->
  find (fun r => key r =? id') (filter (fun r => negb (key r =? id)) rows)
  = find (fun r => key r =? id') rows.
Proof.
  intros Hne. induction rows as [|r rows IH]; simpl; [reflexivity|].
  destruct (Z.eqb_spec (key r) id) as [Heq|Hneq]; simpl.
  - destruct (Z.eqb_spec (key r) id'); [congruence|exact IH].
  - destruct (key r =? id'); [reflexivity|exact IH].
Qed.

Lemma find_filter_same {Row} (key : Row -> Z) rows id :
  find (fun r => key r =? id) (filter (fun r => negb (key r =? id)) rows) = None.
Proof.
  induction rows as [|r rows IH]; simpl; [reflexivity|].
  destruct (key r =? id) eqn:E; simpl; [exact IH|]. now rewrite E.
Qed.

(** X4.  [deleteTask] returns whether a task had the id; afterwards no task
    has it, every other task is found as before, the employees are untouched,
    and deleting the same id again returns [false] and changes nothing. *)
Theorem deleteTask_removes (db : database) (id : Z) :
  let db' := snd (deleteTask id db) in
  fst (deleteTask id db) = Return (existsb (fun t => t_id t =? id) (tasks db))
  /\ tasks db' = filter (fun t => negb (t_id t =? id)) (tasks db)
  /\ employees db' = employees db
  /\ select_task id db' = None
  /\ (forall id', id' <> id -> select_task id' db' = select_task id' db)
  /\ deleteTask id db' = (Return false, db').
Proof.
  intros db'.
  assert (Ht : tasks db' = filter (fun t => negb (t_id t =? id)) (tasks db)).
  { subst db'. unfold deleteTask, bind, delete_task.
    destruct (existsb _ (tasks db)) eqn:Hex; simpl; [reflexivity|].
    symmetry. apply filter_all. intros t Hin.
    destruct (t_id t =? id) eqn:E; [|reflexivity].
    assert (existsb (fun t => t_id t =? id) (tasks db) = true)
      by (apply existsb_exists; eauto).
    congruence. }
  assert (Hnone : select_task id db' = None).
  { unfold select_task. rewrite Ht. apply (find_filter_same t_id). }
  split; [|split; [exact Ht|split; [|split; [exact Hnone|split]]]].
  - unfold deleteTask, bind, delete_task.
    destruct (existsb _ (tasks db)); reflexivity.
  - subst db'. unfold deleteTask, bind, delete_task.
    destruct (existsb _ (tasks db)); reflexivity.
  - intros id' Hne. unfold select_task. rewrite Ht.
    now apply (find_filter_other t_id).
  - apply select_task_missing in Hnone.
    unfold deleteTask, bind, delete_task. now rewrite Hnone.
Qed.

(** X5.  [getEmployeeWithTasks] returns [None] exactly when no employee has
    the id; otherwise it returns that employee with precisely the tasks whose
    [employee_id] is the id, each once, newest [created_at] first. *)
Theorem getEmployeeWithTasks_lists (db : database) (id : Z) :
  (getEmployeeById id db = None -> getEmployeeWithTasks id db = None)
  /\
  (forall e, getEmployeeById id db = Some e ->
     e_id e = id
     /\ exists ts,
          getEmployeeWithTasks id db = Some (e, ts)
          /\ Permutation ts (filter (fun t => t_employeeId t =? id) (tasks db))
          /\ (forall t, In t ts <-> In t (tasks db) /\ t_employeeId t = id)
          /\ Sorted (fun a b => String.leb (t_createdAt b) (t_createdAt a) = true) ts).
Proof.
  split.
  - intros H. unfold getEmployeeWithTasks. now rewrite H.
  - intros e He. split.
    + unfold getEmployeeById, select_employee in He.
      apply find_some in He. now apply Z.eqb_eq.
    + eexists. split; [unfold getEmployeeWithTasks; rewrite He; reflexivity|].
      split; [apply Permutation_sym, sort_by_perm|]. split.
      * intros t. rewrite sort_by_In, filter_In, Z.eqb_eq. tauto.
      * apply (sort_by_sorted newest_first).
        intros a b. unfold newest_first. apply String.leb_total.
Qed.

Lemma filter_key_first {Row} (key : Row -> Z) rows id r :
  find (fun r' => key r' =? id) rows = Some r ->
  exists rest, filter (fun r' => key r' =? id) rows = r :: rest.
Proof.
  induction rows as [|r0 rows IH]; simpl; [discriminate|].
  destruct (key r0 =? id).
  - intros H. inversion H; subst. eauto.
  - exact IH.
Qed.

(** X6.  In a consistent database [getTaskById] returns [None] exactly when
    no task has the id, and otherwise the task together with the name and
    the email of the employee its [employee_id] refers to. *)
Theorem getTaskById_joins (db : database) (id : Z) :
  consistent db ->
  (select_task id db = None -> getTaskById id db = None)
  /\
  (forall t, select_task id db = Some t ->
     exists e,
       getEmployeeById (t_employeeId t) db = Some e
       /\ getTaskById id db = Some (mkTaskDetail t (e_name e) (e_email e))).
Proof.
  intros [Hpk _ _ Hfk]. split.
  - intros Hnone. unfold getTaskById.
    rewrite (filter_none (fun t => t_id t =? id) (tasks db)); [reflexivity|].
    intros t Ht. unfold select_task in Hnone.
    apply (find_none _ _ Hnone t Ht).
  - intros t Ht.
    pose proof Ht as Hfound. unfold select_task in Hfound.
    apply find_some in Hfound. destruct Hfound as [Hin _].
    pose proof (Hfk t Hin) as Hemp. apply has_employee_In in Hemp.
    destruct Hemp as [e [He Hid]].
    exists e. split.
    + unfold getEmployeeById, select_employee. rewrite <- Hid.
      now apply (find_unique_key e_id).
    + unfold getTaskById.
      destruct (filter_key_first t_id (tasks db) id t Ht) as [rest ->].
      unfold join_employees. cbn [flat_map].
      assert (Hone : filter (fun e' => t_employeeId t =? e_id e') (employees db) = [e]).
      { rewrite <- Hid. now apply (filter_unique_key e_id). }
      rewrite Hone. reflexivity.
Qed.

(** Task 4 of the seeded database belongs to employee 2. *)
Lemma getTaskById_joins_witness :
  exists e,
    getEmployeeById 2 seeded_db = Some e
    /\ option_map td_employeeEmail (getTaskById 4 seeded_db) = Some (e_email e).
Proof.
  destruct (proj2 (getTaskById_joins seeded_db 4 seeded_db_consistent)
              (mkTask 4 "Create Q1 marketing campaign"
                 (Some "Design and launch Q1 digital marketing campaign")
                 IN_PROGRESS 2 (Some "2025-02-28") HIGH
                 "2025-01-01 00:00:00" "2025-01-01 00:00:00") eq_refl)
    as [e [He Hget]].
  exists e. split; [exact He|]. now rewrite Hget.
Defined.

(* ================================================================== *)
(** ** More on the dashboard *)
(* ================================================================== *)

Lemma total_count_perm rows rows' :
  Permutation rows rows' -> total_count rows = total_count rows'.
Proof.
  induction 1; simpl; lia.
Qed.

(** Number of the employees that a task refers to, summed over the tasks. *)
Lemma task_counts_by_task db ts :
  total_count (map (fun e => mkCount (e_id e) (e_name e)
                               (Z.of_nat (List.length
                                  (filter (fun t => e_id e =? t_employeeId t) ts))))
                   (employees db))
  = fold_right (fun t acc =>
                  Z.of_nat (List.length
                     (filter (fun e => e_id e =? t_employeeId t) (employees db))) + acc)
               0 ts.
Proof.
  induction ts as [|t ts IH]; simpl.
  - induction (employees db) as [|e es IHe]; simpl; [reflexivity|]. now rewrite IHe.
  - rewrite <- IH. clear IH.
    induction (employees db) as [|e es IHe]; simpl; [reflexivity|].
    destruct (e_id e =? t_employeeId t); simpl List.length; lia.
Qed.

(** X7.  In a consistent database the per-employee task counts of the
    dashboard add up to [totalTasks]: every task is counted for exactly one
    employee. *)
Theorem getDashboardStats_counts_add_up (db : database) :
  consistent db ->
  total_count (tasksByEmployee (getDashboardStats db))
  = totalTasks (getDashboardStats db).
Proof.
  intros [Hpk _ _ Hfk].
  unfold getDashboardStats. cbn [tasksByEmployee totalTasks].
  rewrite <- (total_count_perm _ _ (sort_by_perm most_tasks_first _)).
  unfold task_count. rewrite task_counts_by_task.
  assert (Hall : forall ts, (forall t, In t ts -> In t (tasks db)) ->
            fold_right (fun t acc =>
                Z.of_nat (List.length
                   (filter (fun e => e_id e =? t_employeeId t) (employees db))) + acc)
              0 ts = Z.of_nat (List.length ts)).
  { induction ts as [|t ts IH]; intros Hsub; [reflexivity|].
    cbn [fold_right List.length]. rewrite IH by (intros; apply Hsub; now right).
    pose proof (Hfk t (Hsub t (or_introl eq_refl))) as Hemp.
    apply has_employee_In in Hemp. destruct Hemp as [e [He Hid]].
    erewrite filter_ext; [|intros e'; apply Z.eqb_sym].
    rewrite <- Hid, (filter_unique_key e_id (employees db) e Hpk He).
    simpl List.length. lia. }
  apply Hall. auto.
Qed.

(** On the seeded database the counts add up to 24. *)
Lemma getDashboardStats_counts_add_up_witness :
  total_count (tasksByEmployee (getDashboardStats seeded_db)) = 24.
Proof.
  exact (getDashboardStats_counts_add_up seeded_db seeded_db_consistent).
Defined.

(** X8.  With at least one task (and at most 2^44), [completionRate] is
    exactly 100 when every task is completed and exactly 0 when none is. *)
Theorem completionRate_extremes (db : database) :
  tasks db <> [] ->
  Z.of_nat (List.length (tasks db)) <= 2 ^ 44 ->
  ((forall t, In t (tasks db) -> t_status t = COMPLETED) ->
     completionRate (getDashboardStats db) = Some 100)
  /\
  ((forall t, In t (tasks db) -> t_status t <> COMPLETED) ->
     completionRate (getDashboardStats db) = Some 0).
Proof.
  intros Hne Hsmall.
  set (total := Z.of_nat (List.length (tasks db))) in *.
  assert (Hpos : 0 < total).
  { subst total. destruct (tasks db); [contradiction|simpl; lia]. }
  unfold getDashboardStats. cbn [completionRate]. fold total.
  replace (0 <? total) with true by (symmetry; apply Z.ltb_lt; lia).
  split; intros Hall.
  - assert (Hc : count_status COMPLETED db = total).
    { unfold count_status. rewrite filter_all; [reflexivity|].
      intros t Ht. now rewrite (Hall t Ht). }
    rewrite Hc.
    destruct (percentage_nearest total total ltac:(lia) ltac:(lia)) as [r [Hr Hnear]].
    rewrite Hr. f_equal. nia.
  - assert (Hc : count_status COMPLETED db = 0).
    { unfold count_status. rewrite filter_none; [reflexivity|].
      intros t Ht. specialize (Hall t Ht). now destruct (t_status t). }
    rewrite Hc.
    destruct (percentage_nearest 0 total ltac:(lia) ltac:(lia)) as [r [Hr Hnear]].
    rewrite Hr. f_equal. nia.
Qed.

(** Only the completed ticket of [finished_db]: rate 100. *)
Lemma completionRate_extremes_witness :
  completionRate (getDashboardStats finished_db) = Some 100.
Proof.
  refine (proj1 (completionRate_extremes finished_db _ _) _).
  - discriminate.
  - simpl. lia.
  - intros t [<-|[]]. reflexivity.
Defined.

(* ================================================================== *)
(** ** Row ids *)
(* ================================================================== *)

Lemma advances_refl db : advances db db.
Proof.
  split; [|auto]. unfold grows. repeat split; try lia; intros x Hx; left; eauto.
Qed.

Lemma advances_trans db1 db2 db3 :
  advances db1 db2 -> advances db2 db3 -> advances db1 db3.
Proof.
  intros [[He1 [Ht1 [Hemp1 Htask1]]] Hr1] [[He2 [Ht2 [Hemp2 Htask2]]] Hr2].
  split; [|auto]. unfold grows. repeat split; try lia.
  - intros e He. destruct (Hemp2 e He) as [[e1 [He1' Hid]]|Hnew]; [|right; lia].
    destruct (Hemp1 e1 He1') as [[e0 [He0 Hid0]]|Hnew]; [left|right; lia].
    exists e0. split; [exact He0|congruence].
  - intros t Ht. destruct (Htask2 t Ht) as [[t1 [Ht1' Hid]]|Hnew]; [|right; lia].
    destruct (Htask1 t1 Ht1') as [[t0 [Ht0 Hid0]]|Hnew]; [left|right; lia].
    exists t0. split; [exact Ht0|congruence].
Qed.

Lemma steps_ret {A} (a : A) : steps advances (ret a).
Proof. intros db. apply advances_refl. Qed.

Lemma steps_query {A} (q : database -> A) : steps advances (query q).
Proof. intros db. apply advances_refl. Qed.

Lemma steps_bind {A B} (m : M A) (k : A -> M B) :
  steps advances m -> (forall a, steps advances (k a)) ->
  steps advances (bind m k).
Proof.
  intros Hm Hk db. unfold bind. specialize (Hm db).
  destruct (m db) as [[a|e] db1]; simpl in *; [|exact Hm].
  eapply advances_trans; [exact Hm|apply Hk].
Qed.

Lemma next_rowid_above seq ids :
  seq < next_rowid seq ids /\ forall i, In i ids -> i < next_rowid seq ids.
Proof.
  unfold next_rowid. split; [lia|].
  intros i Hi. apply max_rowid_ge in Hi. lia.
Qed.

Lemma steps_insert_employee name email department position now :
  steps advances (insert_employee name email department position now).
Proof.
  intros db. unfold insert_employee.
  destruct (existsb _ _); [apply advances_refl|].
  destruct (next_rowid_above (employees_seq db) (map e_id (employees db)))
    as [Hseq Hids].
  cbn [snd]. split.
  - unfold grows. cbn [employees employees_seq tasks tasks_seq].
    repeat split; try lia.
    + intros e He. apply in_app_or in He. destruct He as [He|[<-|[]]].
      * left. eauto.
      * right. exact Hseq.
    + intros t Ht. left. eauto.
  - intros [Hemp [Htask [Hs1 Hs2]]]. unfold rowids_assigned.
    cbn [employees employees_seq tasks tasks_seq].
    split; [|split; [exact Htask|lia]].
    intros e He. apply in_app_or in He. destruct He as [He|[<-|[]]].
    + specialize (Hemp e He). lia.
    + cbn [e_id]. lia.
Qed.

Lemma steps_insert_task title description status employee_id due_date priority now :
  steps advances
    (insert_task title description status employee_id due_date priority now).
Proof.
  intros db. unfold insert_task.
  destruct (has_employee db employee_id); [|apply advances_refl].
  destruct (next_rowid_above (tasks_seq db) (map t_id (tasks db))) as [Hseq Hids].
  cbn [snd]. split.
  - unfold grows. cbn [employees employees_seq tasks tasks_seq].
    repeat split; try lia.
    + intros e He. left. eauto.
    + intros t Ht. apply in_app_or in Ht. destruct Ht as [Ht|[<-|[]]].
      * left. eauto.
      * right. exact Hseq.
  - intros [Hemp [Htask [Hs1 Hs2]]]. unfold rowids_assigned.
    cbn [employees employees_seq tasks tasks_seq].
    split; [exact Hemp|split; [|lia]].
    intros t Ht. apply in_app_or in Ht. destruct Ht as [Ht|[<-|[]]].
    + specialize (Htask t Ht). lia.
    + cbn [t_id]. lia.
Qed.

(** A statement that keeps the counters and only rewrites or removes rows. *)
Lemma advances_same_ids db es ts :
  (forall e, In e es -> exists e0, In e0 (employees db) /\ e_id e0 = e_id e) ->
  (forall t, In t ts -> exists t0, In t0 (tasks db) /\ t_id t0 = t_id t) ->
  advances db (mkDb es (employees_seq db) ts (tasks_seq db)).
Proof.
  intros Hes Hts. split.
  - unfold grows. cbn [employees employees_seq tasks tasks_seq].
    repeat split; try lia; intros x Hx; left; auto.
  - intros [Hemp [Htask [Hs1 Hs2]]]. unfold rowids_assigned.
    cbn [employees employees_seq tasks tasks_seq].
    split; [|split; [|split; assumption]].
    + intros e He. destruct (Hes e He) as [e0 [He0 <-]]. now apply Hemp.
    + intros t Ht. destruct (Hts t Ht) as [t0 [Ht0 <-]]. now apply Htask.
Qed.

Lemma steps_update_employee id p : steps advances (update_employee id p).
Proof.
  intros db. unfold update_employee.
  destruct (has_employee db id); [|apply advances_refl].
  destruct (match pe_email p with Some _ => _ | None => _ end);
    [apply advances_refl|].
  cbn [snd]. apply advances_same_ids.
  - intros e He. apply in_map_iff in He. destruct He as [e0 [<- He0]].
    exists e0. split; trivial. now destruct (e_id e0 =? id).
  - eauto.
Qed.

Lemma steps_delete_employee id : steps advances (delete_employee id).
Proof.
  intros db. unfold delete_employee.
  destruct (has_employee db id); [|apply advances_refl].
  cbn [snd]. apply advances_same_ids.
  - intros e He. apply filter_In in He. exists e. tauto.
  - intros t Ht. apply filter_In in Ht. exists t. tauto.
Qed.

Lemma steps_update_task id p now : steps advances (update_task id p now).
Proof.
  intros db. unfold update_task.
  destruct (existsb _ (tasks db)); [|apply advances_refl].
  destruct (match pt_employeeId p with Some _ => _ | None => _ end);
    [apply advances_refl|].
  cbn [snd]. apply advances_same_ids.
  - eauto.
  - intros t Ht. apply in_map_iff in Ht. destruct Ht as [t0 [<- Ht0]].
    exists t0. split; trivial. now destruct (t_id t0 =? id).
Qed.

Lemma steps_delete_task id : steps advances (delete_task id).
Proof.
  intros db. unfold delete_task.
  destruct (existsb _ (tasks db)); [|apply advances_refl].
  cbn [snd]. apply advances_same_ids.
  - eauto.
  - intros t Ht. apply filter_In in Ht. exists t. tauto.
Qed.

Create HintDb steps.
#[local] Hint Resolve steps_ret steps_query steps_insert_employee
  steps_insert_task steps_update_employee steps_delete_employee
  steps_update_task steps_delete_task : steps.

Lemma steps_for_of {A} (xs : list A) (run : A -> M RunResult) :
  (forall x, steps advances (run x)) -> steps advances (Seed.for_of xs run).
Proof.
  intros Hrun. induction xs as [|x xs IH]; simpl.
  - apply steps_ret.
  - apply steps_bind; [apply Hrun|]. intros _. exact IH.
Qed.

Lemma advances_run c db : advances db (run c db).
Proof.
  destruct c; simpl.
  - apply steps_bind; auto with steps.
  - apply steps_bind; auto with steps.
    intros [e|]; [|auto with steps].
    destruct (no_employee_field employee); auto with steps.
    apply steps_bind; auto with steps.
  - apply steps_bind; auto with steps.
  - apply steps_bind; auto with steps.
  - apply steps_bind; auto with steps.
    intros [t|]; [|auto with steps].
    apply steps_bind; auto with steps.
  - apply steps_bind; auto with steps.
  - unfold Seed.seedDatabase.
    apply steps_bind; [auto with steps|]. intros n.
    destruct (0 <? n); [auto with steps|].
    apply steps_bind.
    + apply steps_for_of. intros [[[? ?] ?] ?]. auto with steps.
    + intros _. apply steps_for_of. intros [[[[[? ?] ?] ?] ?] ?].
      auto with steps.
Qed.

Lemma advances_run_all calls db : advances db (run_all calls db).
Proof.
  revert db. induction calls as [|c calls IH]; intros db.
  - apply advances_refl.
  - simpl. eapply advances_trans; [apply advances_run|apply IH].
Qed.

Lemma NoDup_map_injective {Row K} (key : Row -> K) rows a b :
  NoDup (map key rows) -> In a rows -> In b rows -> key a = key b -> a = b.
Proof.
  induction rows as [|r rows IH]; simpl; intros Hnd Ha Hb Heq; [contradiction|].
  apply NoDup_cons_iff in Hnd. destruct Hnd as [Hfresh Hnd].
  destruct Ha as [->|Ha], Hb as [->|Hb]; trivial.
  - exfalso. apply Hfresh. rewrite Heq. now apply in_map.
  - exfalso. apply Hfresh. rewrite <- Heq. now apply in_map.
  - now apply IH.
Qed.

Lemma reachable_rowids db : reachable db -> rowids_assigned db.
Proof.
  induction 1 as [|c db _ IH].
  - unfold rowids_assigned. simpl.
    split; [intros x []|split; [intros x []|lia]].
  - now apply (advances_run c db).
Qed.

(** X9.  In every reachable state an employee is determined by its id and by
    its email, a task by its id, and every id is positive and at most the
    AUTOINCREMENT counter of its table; in particular no employee has id 0. *)
Theorem reachable_keys (db : database) :
  reachable db ->
  (forall a b, In a (employees db) -> In b (employees db) ->
     e_id a = e_id b -> a = b)
  /\ (forall a b, In a (employees db) -> In b (employees db) ->
        e_email a = e_email b -> a = b)
  /\ (forall a b, In a (tasks db) -> In b (tasks db) -> t_id a = t_id b -> a = b)
  /\ rowids_assigned db
  /\ getEmployeeById 0 db = None.
Proof.
  intros Hreach.
  destruct (reachable_consistent db Hreach) as [Hpk Hue Hpt _].
  pose proof (reachable_rowids db Hreach) as Hids.
  split; [intros a b; now apply NoDup_map_injective|].
  split; [intros a b; now apply NoDup_map_injective|].
  split; [intros a b; now apply NoDup_map_injective|].
  split; [exact Hids|].
  unfold getEmployeeById, select_employee.
  destruct (find _ _) as [e|] eqn:E; [|reflexivity].
  apply find_some in E. destruct E as [He Hid]. apply Z.eqb_eq in Hid.
  destruct Hids as [Hemp _]. specialize (Hemp e He). lia.
Qed.

(** The seeded database. *)
Lemma reachable_keys_witness :
  rowids_assigned seeded_db /\ getEmployeeById 0 seeded_db = None.
Proof.
  pose proof (reachable_keys seeded_db
                (reachable_call (SeedDatabase "2025-01-01 00:00:00") empty_db
                   reachable_empty)) as H.
  split; [exact (proj1 (proj2 (proj2 (proj2 H))))|exact (proj2 (proj2 (proj2 (proj2 H))))].
Defined.

(** X10.  Ids are never reused: once an employee of a reachable state is
    deleted, no sequence of calls gives that id to an employee again, and the
    same holds for a deleted task. *)
Theorem deleted_id_never_reused (db : database) (id : Z) (calls : list call) :
  reachable db ->
  (has_employee db id = true ->
     has_employee (run_all calls (snd (deleteEmployee id db))) id = false)
  /\
  (existsb (fun t => t_id t =? id) (tasks db) = true ->
     existsb (fun t => t_id t =? id)
       (tasks (run_all calls (snd (deleteTask id db)))) = false).
Proof.
  intros Hreach.
  pose proof (reachable_rowids db Hreach) as Hids.
  destruct Hids as [Hemp [Htask _]].
  split; intros Hex.
  - apply has_employee_In in Hex. destruct Hex as [e [He Hid]].
    pose proof (Hemp e He) as Hbound.
    set (db1 := snd (deleteEmployee id db)).
    assert (Hseq : employees_seq db1 = employees_seq db
                   /\ forall e', In e' (employees db1) -> e_id e' <> id).
    { subst db1. unfold deleteEmployee, bind, delete_employee.
      destruct (has_employee db id) eqn:Hhas; cbn [snd employees employees_seq].
      - split; [reflexivity|]. intros e' He'. apply filter_In in He'.
        destruct He' as [_ Hne]. now apply negb_true_iff, Z.eqb_neq in Hne.
      - assert (has_employee db id = true) by (apply has_employee_In; eauto).
        congruence. }
    destruct Hseq as [Hseq Hgone].
    destruct (advances_run_all calls db1) as [[_ [_ [Hfrom _]]] _].
    destruct (has_employee (run_all calls db1) id) eqn:Hback; [|reflexivity].
    apply has_employee_In in Hback. destruct Hback as [e' [He' Hid']].
    destruct (Hfrom e' He') as [[e0 [He0 Hid0]]|Hnew].
    + exfalso. apply (Hgone e0 He0). congruence.
    + lia.
  - apply existsb_exists in Hex. destruct Hex as [t [Ht Hid]].
    apply Z.eqb_eq in Hid. pose proof (Htask t Ht) as Hbound.
    set (db1 := snd (deleteTask id db)).
    assert (Hseq : tasks_seq db1 = tasks_seq db
                   /\ forall t', In t' (tasks db1) -> t_id t' <> id).
    { subst db1. unfold deleteTask, bind, delete_task.
      destruct (existsb _ (tasks db)) eqn:Hhas; cbn [snd tasks tasks_seq].
      - split; [reflexivity|]. intros t' Ht'. apply filter_In in Ht'.
        destruct Ht' as [_ Hne]. now apply negb_true_iff, Z.eqb_neq in Hne.
      - assert (existsb (fun t => t_id t =? id) (tasks db) = true).
        { apply existsb_exists. exists t. split; trivial. now apply Z.eqb_eq. }
        congruence. }
    destruct Hseq as [Hseq Hgone].
    destruct (advances_run_all calls db1) as [[_ [_ [_ Hfrom]]] _].
    destruct (existsb _ (tasks (run_all calls db1))) eqn:Hback; [|reflexivity].
    apply existsb_exists in Hback. destruct Hback as [t' [Ht' Hid']].
    apply Z.eqb_eq in Hid'.
    destruct (Hfrom t' Ht') as [[t0 [Ht0 Hid0]]|Hnew].
    + exfalso. apply (Hgone t0 Ht0). congruence.
    + lia.
Qed.

(** Employee 8 of the seeded database is deleted and a new employee is
    hired: the newcomer is not employee 8. *)
Lemma deleted_id_never_reused_witness :
  has_employee
    (run_all [ CreateEmployee
                 (mkInsertEmployee "Asha Rao" "asha.rao@company.com" "Support" "Agent")
                 "2025-03-01 10:00:00" ]
             (snd (deleteEmployee 8 seeded_db))) 8 = false.
Proof.
  exact (proj1 (deleted_id_never_reused seeded_db 8 _
                  (reachable_call (SeedDatabase "2025-01-01 00:00:00") empty_db
                     reachable_empty)) eq_refl).
Defined.

(* ================================================================== *)
(** ** Seeding *)
(* ================================================================== *)

Lemma seedDatabase_loops now db :
  employees db = [] ->
  Seed.seedDatabase now db
  = bind (Seed.for_of Seed.employees (seed_employee now))
         (fun _ => Seed.for_of Seed.tasks (seed_task now)) db.
Proof.
  intros Hnone. unfold Seed.seedDatabase, bind at 1, query. rewrite Hnone.
  reflexivity.
Qed.

Lemma seedDatabase_skips now db :
  employees db <> [] -> Seed.seedDatabase now db = (Return tt, db).
Proof.
  intros Hsome. unfold Seed.seedDatabase, bind, query.
  destruct (employees db) as [|e es]; [congruence|]. reflexivity.
Qed.

(** Inserting rows with distinct emails, none of them taken, goes through. *)
Lemma for_of_seed_employee now rows : forall db,
  NoDup (map seed_email rows) ->
  (forall r, In r rows ->
     existsb (fun e => String.eqb (e_email e) (seed_email r)) (employees db)
     = false) ->
  fst (Seed.for_of rows (seed_employee now) db) = Return tt
  /\ map e_email (employees (snd (Seed.for_of rows (seed_employee now) db)))
     = map e_email (employees db) ++ map seed_email rows
  /\ tasks (snd (Seed.for_of rows (seed_employee now) db)) = tasks db.
Proof.
  induction rows as [|[[[name email] department] position] rows IH];
    intros db Hnd Hfree.
  - simpl. rewrite app_nil_r. auto.
  - cbn [map seed_email fst snd] in Hnd. apply NoDup_cons_iff in Hnd.
    destruct Hnd as [Hnew Hnd].
    pose proof (Hfree _ (or_introl eq_refl)) as Hfirst.
    cbn [seed_email fst snd] in Hfirst.
    cbn [Seed.for_of]. unfold bind.
    change (seed_employee now (name, email, department, position))
      with (insert_employee name email department position now).
    unfold insert_employee.
    rewrite Hfirst.
    match goal with
    | |- context [Seed.for_of rows _ ?d] => set (db1 := d)
    end.
    destruct (IH db1 Hnd) as [Hret [Hemails Htasks]].
    + intros r Hr. subst db1. cbn [employees].
      rewrite existsb_app, (Hfree r (or_intror Hr)). cbn [existsb e_email].
      rewrite orb_false_r. apply String.eqb_neq. intros ->.
      apply Hnew. now apply in_map.
    + split; [exact Hret|]. split; [|exact Htasks].
      rewrite Hemails. subst db1. cbn [employees].
      rewrite map_app, <- app_assoc. reflexivity.
Qed.

(** Inserting tasks for employees that exist goes through and leaves the
    employees alone. *)
Lemma for_of_seed_task now rows : forall db,
  (forall r, In r rows -> has_employee db (seed_employee_id r) = true) ->
  fst (Seed.for_of rows (seed_task now) db) = Return tt
  /\ employees (snd (Seed.for_of rows (seed_task now) db)) = employees db
  /\ List.length (tasks (snd (Seed.for_of rows (seed_task now) db)))
     = (List.length (tasks db) + List.length rows)%nat.
Proof.
  induction rows
    as [|[[[[[title description] status] employee_id] due_date] priority] rows IH];
    intros db Hall.
  - simpl. auto.
  - pose proof (Hall _ (or_introl eq_refl)) as Hfirst.
    cbn [seed_employee_id fst snd] in Hfirst.
    cbn [Seed.for_of]. unfold bind.
    change (seed_task now (title, description, status, employee_id, due_date, priority))
      with (insert_task title (Some description) status employee_id
              (Some due_date) priority now).
    unfold insert_task.
    rewrite Hfirst.
    match goal with
    | |- context [Seed.for_of rows _ ?d] => set (db1 := d)
    end.
    destruct (IH db1) as [Hret [Hemp Hlen]].
    + intros r Hr. exact (Hall r (or_intror Hr)).
    + split; [exact Hret|]. split; [exact Hemp|].
      rewrite Hlen. subst db1. cbn [tasks]. rewrite length_app. simpl. lia.
Qed.

(** The task loop never touches the employees, whether it stops or not. *)
Lemma for_of_seed_task_employees now rows : forall db,
  employees (snd (Seed.for_of rows (seed_task now) db)) = employees db.
Proof.
  induction rows
    as [|[[[[[title description] status] employee_id] due_date] priority] rows IH];
    intros db; [reflexivity|].
  cbn [Seed.for_of]. unfold bind.
  change (seed_task now (title, description, status, employee_id, due_date, priority))
    with (insert_task title (Some description) status employee_id
            (Some due_date) priority now).
  unfold insert_task.
  destruct (has_employee db employee_id); [|reflexivity].
  cbn [snd fst]. rewrite IH. reflexivity.
Qed.

Lemma seed_emails_distinct : NoDup (map seed_email Seed.employees).
Proof.
  unfold Seed.employees. cbn [map seed_email fst snd].
  repeat (apply NoDup_cons; [cbn [In]; intuition discriminate|]).
  apply NoDup_nil.
Qed.

(** X11.  Seeding is idempotent, whatever the database holds: after
    [seedDatabase] has run once (to the end or not) the employees table is
    not empty, so a second run returns at once and changes nothing. *)
Theorem seedDatabase_idempotent (db : database) (now now' : string) :
  employees (snd (Seed.seedDatabase now db)) <> []
  /\ Seed.seedDatabase now' (snd (Seed.seedDatabase now db))
     = (Return tt, snd (Seed.seedDatabase now db)).
Proof.
  assert (Hsome : employees (snd (Seed.seedDatabase now db)) <> []).
  { destruct (employees db) as [|e es] eqn:Hemp.
    - rewrite (seedDatabase_loops now db Hemp). unfold bind.
      destruct (for_of_seed_employee now Seed.employees db seed_emails_distinct)
        as [Hret [Hemails _]].
      { intros r _. rewrite Hemp. reflexivity. }
      destruct (Seed.for_of Seed.employees (seed_employee now) db)
        as [[[]|err] db1]; [|discriminate].
      cbn [snd] in *. rewrite for_of_seed_task_employees.
      intros Hnone. rewrite Hnone, Hemp in Hemails. discriminate.
    - assert (Hne : employees db <> []) by (rewrite Hemp; discriminate).
      rewrite (seedDatabase_skips now db Hne). exact Hne. }
  split; [exact Hsome|]. now apply seedDatabase_skips.
Qed.

(** X12.  Seeding an empty employees table works only the first time.  With
    the AUTOINCREMENT counter at 0 the eight employees get the ids 1 to 8
    and the twenty-four tasks are inserted.  Once an employee was ever
    created and all are deleted, the counter is at least 1: the eight
    employees are inserted with ids above it, the first task, for employee 1,
    violates the foreign key, and [seedDatabase] throws with the eight
    employees in place and no task inserted. *)
Theorem seedDatabase_after_wipe (db : database) (now : string) :
  employees db = [] ->
  (employees_seq db = 0 ->
     fst (Seed.seedDatabase now db) = Return tt
     /\ map e_id (employees (snd (Seed.seedDatabase now db)))
        = [1; 2; 3; 4; 5; 6; 7; 8]
     /\ List.length (tasks (snd (Seed.seedDatabase now db)))
        = (List.length (tasks db) + 24)%nat)
  /\
  (1 <= employees_seq db ->
     fst (Seed.seedDatabase now db) = Throw FOREIGN_KEY
     /\ List.length (employees (snd (Seed.seedDatabase now db))) = 8%nat
     /\ tasks (snd (Seed.seedDatabase now db)) = tasks db).
Proof.
  intros Hemp. rewrite (seedDatabase_loops now db Hemp). unfold bind.
  split; intros Hseq.
  - destruct db as [es s ts tseq]. cbn [employees employees_seq] in *.
    subst es s.
    destruct (Seed.for_of Seed.employees (seed_employee now) (mkDb [] 0 ts tseq))
      as [o db1] eqn:E.
    vm_compute in E. injection E as <- <-.
    match goal with
    | |- context [Seed.for_of Seed.tasks _ ?d] =>
        destruct (for_of_seed_task now Seed.tasks d) as [Hret [Hsame Hlen]]
    end.
    { unfold Seed.tasks. intros r Hr. cbn [In] in Hr.
      repeat (destruct Hr as [<-|Hr]; [reflexivity|]). contradiction. }
    split; [exact Hret|]. split; [rewrite Hsame; reflexivity|].
    rewrite Hlen. reflexivity.
  - destruct (for_of_seed_employee now Seed.employees db seed_emails_distinct)
      as [Hret [Hemails Htasks]].
    { intros r _. rewrite Hemp. reflexivity. }
    pose proof (steps_for_of Seed.employees (seed_employee now)) as Hadv.
    specialize (Hadv (fun '(name, email, department, position) =>
                        steps_insert_employee name email department position now)
                     db).
    destruct (Seed.for_of Seed.employees (seed_employee now) db)
      as [[[]|err] db1]; [|discriminate].
    cbn [fst snd] in *. destruct Hadv as [[_ [_ [Hfrom _]]] _].
    assert (Hno : has_employee db1 1 = false).
    { destruct (has_employee db1 1) eqn:Hhas; [|reflexivity].
      apply has_employee_In in Hhas. destruct Hhas as [e [He Hid]].
      destruct (Hfrom e He) as [[e0 [He0 _]]|Hnew].
      - rewrite Hemp in He0. contradiction.
      - lia. }
    unfold Seed.tasks. cbn [Seed.for_of]. unfold bind.
    match goal with
    | |- context [seed_task now (?a, ?b, ?c, ?d, ?e, ?f) db1] =>
        change (seed_task now (a, b, c, d, e, f))
          with (insert_task a (Some b) c d (Some e) f now)
    end.
    unfold insert_task. rewrite Hno. cbn [fst snd].
    split; [reflexivity|]. split; [|exact Htasks].
    rewrite <- (length_map e_email), Hemails, Hemp. reflexivity.
Qed.

(** The first employee of [wiped_db] was deleted: its table is empty and
    its counter is 1, and seeding fails. *)
Lemma seedDatabase_after_wipe_witness :
  fst (Seed.seedDatabase "2025-04-01 09:00:00" wiped_db) = Throw FOREIGN_KEY.
Proof.
  refine (proj1 (proj2 (seedDatabase_after_wipe wiped_db _ eq_refl) _)).
  simpl. lia.
Defined.

(* ================================================================== *)
(** ** The routes *)
(* ================================================================== *)

(** What each storage method can do to the database. *)
Lemma createEmployee_cases data now db :
  (exists e, createEmployee data now db
             = (Return e, snd (createEmployee data now db)))
  \/ createEmployee data now db = (Throw UNIQUE_employees_email, db).
Proof.
  unfold createEmployee, bind, insert_employee, query.
  destruct (existsb _ _); [right; reflexivity|left; eauto].
Qed.

Lemma updateEmployee_cases id p db :
  updateEmployee id p db = (Return None, db)
  \/ (exists e, updateEmployee id p db
                = (Return (Some e), snd (updateEmployee id p db)))
  \/ updateEmployee id p db = (Throw UNIQUE_employees_email, db).
Proof.
  unfold updateEmployee, bind, query.
  destruct (getEmployeeById id db) as [e|] eqn:Hget; [|left; reflexivity].
  destruct (no_employee_field p); [right; left; exists e; reflexivity|].
  assert (Hhas : has_employee db id = true).
  { destruct (has_employee db id) eqn:E; [reflexivity|].
    apply getEmployeeById_None in E. congruence. }
  unfold update_employee. rewrite Hhas.
  destruct (match pe_email p with Some _ => _ | None => _ end);
    [right; right; reflexivity|].
  right; left. cbn [fst snd]. unfold getEmployeeById, select_employee.
  cbn [employees].
  rewrite (find_map_update e_id (apply_employee_sets p) id) by reflexivity.
  unfold getEmployeeById, select_employee in Hget. rewrite Hget. simpl. eauto.
Qed.

Lemma deleteEmployee_cases id db :
  deleteEmployee id db = (Return true, snd (deleteEmployee id db))
  \/ deleteEmployee id db = (Return false, db).
Proof.
  unfold deleteEmployee, bind, delete_employee, ret.
  destruct (has_employee db id); [left|right]; reflexivity.
Qed.

Lemma createTask_cases data now db :
  (exists t, createTask data now db = (Return t, snd (createTask data now db)))
  \/ (createTask data now db = (Throw FOREIGN_KEY, db)
      /\ has_employee db (it_employeeId data) = false).
Proof.
  unfold createTask, bind, insert_task, query.
  destruct (has_employee db (it_employeeId data)); [left; eauto|right; auto].
Qed.

Lemma updateTask_cases id p now db :
  updateTask id p now db = (Return None, db)
  \/ (exists t, updateTask id p now db
                = (Return (Some t), snd (updateTask id p now db)))
  \/ (updateTask id p now db = (Throw FOREIGN_KEY, db)
      /\ exists eid, pt_employeeId p = Some eid /\ has_employee db eid = false).
Proof.
  unfold updateTask, bind, query.
  destruct (select_task id db) as [old|] eqn:Hget; [|left; reflexivity].
  destruct (select_task_exists db id old Hget) as [Hex _].
  unfold update_task. rewrite Hex.
  destruct (pt_employeeId p) as [eid|] eqn:Heid.
  - destruct (has_employee db eid) eqn:Hhas; cbn [negb].
    + right; left. cbn [fst snd]. unfold select_task. cbn [tasks].
      rewrite (find_map_update t_id (apply_task_sets p now) id) by reflexivity.
      unfold select_task in Hget. rewrite Hget. simpl. eauto.
    + right; right. split; [reflexivity|eauto].
  - right; left. cbn [fst snd]. unfold select_task. cbn [tasks].
    rewrite (find_map_update t_id (apply_task_sets p now) id) by reflexivity.
    unfold select_task in Hget. rewrite Hget. simpl. eauto.
Qed.

Lemma deleteTask_cases id db :
  deleteTask id db = (Return true, snd (deleteTask id db))
  \/ deleteTask id db = (Return false, db).
Proof.
  unfold deleteTask, bind, delete_task, ret.
  destruct (existsb _ (tasks db)); [left|right]; reflexivity.
Qed.

Ltac unchanged := left; split; [simpl; tauto|reflexivity].

Lemma handle_served email_format r db : served db (handle email_format r db).
Proof.
  destruct r; unfold handle.
  - unchanged.
  - unfold Routes.GET_employees_id, Routes.try_catch, bind, query, ret.
    destruct (Js.parseInt id); [|unchanged].
    destruct (getEmployeeWithTasks z db) as [[e ts]|]; unchanged.
  - unfold Routes.POST_employees, Routes.try_catch, bind, ret.
    destruct (Routes.insertEmployeeSchema email_format body); [|unchanged].
    destruct (createEmployee_cases data now db) as [[e H]|H]; rewrite H.
    + right. split; [simpl; tauto|]. exists (CreateEmployee data now).
      reflexivity.
    + unchanged.
  - unfold Routes.PUT_employees_id, Routes.try_catch, bind, ret.
    destruct (Js.parseInt id); [|unchanged].
    destruct (Routes.partialEmployeeSchema email_format body); [|unchanged].
    destruct (updateEmployee_cases z data db) as [H|[[e H]|H]]; rewrite H.
    + unchanged.
    + right. split; [simpl; tauto|]. exists (UpdateEmployee z data).
      reflexivity.
    + unchanged.
  - unfold Routes.DELETE_employees_id, Routes.try_catch, bind, ret.
    destruct (Js.parseInt id); [|unchanged].
    destruct (deleteEmployee_cases z db) as [H|H]; rewrite H.
    + right. split; [simpl; tauto|]. exists (DeleteEmployee z). reflexivity.
    + unchanged.
  - unfold Routes.GET_tasks, Routes.try_catch, bind, query, ret.
    destruct (_ && _); [unchanged|].
    destruct employee_id as [s|]; [|unchanged].
    destruct (Routes.truthy (Some s)); [|unchanged].
    destruct (Js.parseInt s); unchanged.
  - unfold Routes.GET_tasks_id, Routes.try_catch, bind, query, ret.
    destruct (Js.parseInt id); [|unchanged].
    destruct (getTaskById z db); unchanged.
  - unfold Routes.POST_tasks, Routes.try_catch, bind, query, ret.
    destruct (Routes.insertTaskSchema body); [|unchanged].
    destruct (getEmployeeById (it_employeeId data) db) eqn:Hget; [|unchanged].
    destruct (createTask_cases data now db) as [[t H]|[H Hno]]; rewrite H.
    + right. split; [simpl; tauto|]. exists (CreateTask data now). reflexivity.
    + apply getEmployeeById_None in Hno. congruence.
  - unfold Routes.PUT_tasks_id, Routes.try_catch, bind, query, ret.
    destruct (Js.parseInt id); [|unchanged].
    destruct (Routes.partialTaskSchema body) eqn:Hbody; [|unchanged].
    destruct (Routes.employee_missing (pt_employeeId data) db) eqn:Hmiss;
      [unchanged|].
    destruct (updateTask_cases z data now db) as [H|[[t H]|[H [eid [Heid Hno]]]]];
      rewrite H.
    + unchanged.
    + right. split; [simpl; tauto|]. exists (UpdateTask z data now).
      reflexivity.
    + exfalso.
      pose proof (partialTaskSchema_employeeId body data eid Hbody Heid) as Hpos.
      unfold Routes.employee_missing in Hmiss. rewrite Heid in Hmiss.
      destruct (Z.eqb_spec eid 0); [lia|].
      apply getEmployeeById_None in Hno. rewrite Hno in Hmiss. discriminate.
  - unfold Routes.DELETE_tasks_id, Routes.try_catch, bind, ret.
    destruct (Js.parseInt id); [|unchanged].
    destruct (deleteTask_cases z db) as [H|H]; rewrite H.
    + right. split; [simpl; tauto|]. exists (DeleteTask z). reflexivity.
    + unchanged.
  - unchanged.
Qed.

(** X13.  No request breaks the schema's constraints: after any sequence of
    requests on a consistent database, ids and emails are still unique and
    every task still belongs to an employee that exists. *)
Theorem serve_consistent (email_format : string -> bool)
    (rs : list request) (db : database) :
  consistent db -> consistent (serve email_format rs db).
Proof.
  revert db. induction rs as [|r rs IH]; intros db Hdb; [exact Hdb|].
  unfold serve. cbn [fold_left]. apply IH.
  destruct (handle_served email_format r db) as [[_ ->]|[_ [c ->]]];
    [exact Hdb|].
  now apply preserves_run.
Qed.

(** X14.  No constraint of the schema surfaces as a 500: every request is
    answered 200, 201, 400 or 404, since a duplicate email is answered 400
    and the foreign key cannot be violated, the employee being looked up
    first.  A request answered 400 or 404 leaves the database as it was. *)
Theorem handle_status (email_format : string -> bool)
    (r : request) (db : database) :
  In (Routes.res_status (fst (handle email_format r db))) [200; 201; 400; 404]
  /\ (400 <= Routes.res_status (fst (handle email_format r db)) ->
      snd (handle email_format r db) = db).
Proof.
  destruct (handle_served email_format r db) as [[Hst Hdb]|[Hst _]].
  - split; [|intros _; exact Hdb]. simpl in *. tauto.
  - split; [simpl in *; tauto|]. simpl in Hst. lia.
Qed.

(** A new employee is posted and employee 1 is deleted on the seeded
    database. *)
Lemma serve_consistent_witness :
  consistent
    (serve contains_at
       [ ReqPostEmployee
           (Routes.JObject [ ("name", Routes.JString "Asha Rao");
                             ("email", Routes.JString "asha.rao@company.com");
                             ("department", Routes.JString "Support");
                             ("position", Routes.JString "Agent") ])
           "2025-03-01 10:00:00";
         ReqDeleteEmployee "1" ]
       seeded_db).
Proof.
  apply serve_consistent. exact seeded_db_consistent.
Defined.

(** Deleting employee 99 of the seeded database is answered 404 and changes
    nothing. *)
Lemma handle_status_witness :
  snd (handle contains_at (ReqDeleteEmployee "99") seeded_db) = seeded_db.
Proof.
  apply (proj2 (handle_status contains_at (ReqDeleteEmployee "99") seeded_db)).
  vm_compute. discriminate.
Defined.

Lemma deleteEmployee_gone z db :
  has_employee (snd (deleteEmployee z db)) z = false.
Proof.
  unfold deleteEmployee, bind, delete_employee, ret.
  destruct (has_employee db z) eqn:Hhas; cbn [fst snd]; [|exact Hhas].
  match goal with |- ?b = false => destruct b eqn:E; [|reflexivity] end.
  apply has_employee_In in E. destruct E as [e [He Hid]]. cbn [employees] in He.
  apply filter_In in He. destruct He as [_ Hne].
  apply Z.eqb_eq in Hid. now rewrite Hid in Hne.
Qed.

Lemma deleteTask_gone z db :
  existsb (fun t => t_id t =? z) (tasks (snd (deleteTask z db))) = false.
Proof.
  unfold deleteTask, bind, delete_task, ret.
  destruct (existsb _ (tasks db)) eqn:Hhas; cbn [fst snd]; [|exact Hhas].
  match goal with |- ?b = false => destruct b eqn:E; [|reflexivity] end.
  apply existsb_exists in E. destruct E as [t [Ht Hid]]. cbn [tasks] in Ht.
  apply filter_In in Ht. destruct Ht as [_ Hne]. now rewrite Hid in Hne.
Qed.

Lemma getTaskById_absent z db :
  existsb (fun t => t_id t =? z) (tasks db) = false -> getTaskById z db = None.
Proof.
  intros Hno. unfold getTaskById.
  rewrite (filter_none (fun t => t_id t =? z) (tasks db)); [reflexivity|].
  intros t Ht. destruct (t_id t =? z) eqn:E; [|reflexivity].
  assert (existsb (fun t => t_id t =? z) (tasks db) = true)
    by (apply existsb_exists; eauto).
  congruence.
Qed.

(** X15.  Once DELETE /api/employees/:id has been answered 200, GET and
    DELETE on the same path are answered 404 and change nothing; the same
    holds for /api/tasks/:id. *)
Theorem DELETE_then_404 (db : database) (id : string) :
  (Routes.res_status (fst (Routes.DELETE_employees_id id db)) = 200 ->
   Routes.GET_employees_id id (snd (Routes.DELETE_employees_id id db))
   = (Routes.error 404 "Employee not found",
      snd (Routes.DELETE_employees_id id db))
   /\ Routes.DELETE_employees_id id (snd (Routes.DELETE_employees_id id db))
      = (Routes.error 404 "Employee not found",
         snd (Routes.DELETE_employees_id id db)))
  /\
  (Routes.res_status (fst (Routes.DELETE_tasks_id id db)) = 200 ->
   Routes.GET_tasks_id id (snd (Routes.DELETE_tasks_id id db))
   = (Routes.error 404 "Task not found", snd (Routes.DELETE_tasks_id id db))
   /\ Routes.DELETE_tasks_id id (snd (Routes.DELETE_tasks_id id db))
      = (Routes.error 404 "Task not found", snd (Routes.DELETE_tasks_id id db))).
Proof.
  split.
  - unfold Routes.DELETE_employees_id, Routes.GET_employees_id, Routes.try_catch,
      bind, query, ret.
    destruct (Js.parseInt id) as [z|]; [|discriminate].
    pose proof (deleteEmployee_gone z db) as Hgone.
    destruct (deleteEmployee_cases z db) as [H|H]; rewrite H;
      [|discriminate].
    intros _. cbn [fst snd].
    set (db1 := snd (deleteEmployee z db)) in *.
    unfold getEmployeeWithTasks.
    rewrite (proj2 (getEmployeeById_None db1 z) Hgone).
    unfold deleteEmployee, bind, delete_employee, ret. rewrite Hgone.
    split; reflexivity.
  - unfold Routes.DELETE_tasks_id, Routes.GET_tasks_id, Routes.try_catch,
      bind, query, ret.
    destruct (Js.parseInt id) as [z|]; [|discriminate].
    pose proof (deleteTask_gone z db) as Hgone.
    destruct (deleteTask_cases z db) as [H|H]; rewrite H; [|discriminate].
    intros _. cbn [fst snd].
    set (db1 := snd (deleteTask z db)) in *.
    rewrite (getTaskById_absent z db1 Hgone).
    unfold deleteTask, bind, delete_task, ret. rewrite Hgone.
    split; reflexivity.
Qed.

(** DELETE /api/employees/8 on the seeded database, then GET on the same
    path. *)
Lemma DELETE_then_404_witness :
  Routes.GET_employees_id "8" (snd (Routes.DELETE_employees_id "8" seeded_db))
  = (Routes.error 404 "Employee not found",
     snd (Routes.DELETE_employees_id "8" seeded_db)).
Proof.
  exact (proj1 (proj1 (DELETE_then_404 seeded_db "8") eq_refl)).
Defined.

(* ================================================================== *)
(** ** Validation *)
(* ================================================================== *)

Lemma required_string_valid required max v s :
  Routes.required_string required max v = ([], Some s)
  <-> v = Some (Routes.JString s)
      /\ (1 <= Js.length s)%nat
      /\ match max with
         | Some (n, _) => (Js.length s <= n)%nat
         | None => True
         end.
Proof.
  unfold Routes.required_string, Routes.with_checks, Routes.check,
    Routes.issue, Routes.valid.
  destruct v as [[| | |s'| |]|];
    try (split; [discriminate|intros [H _]; discriminate]).
  destruct (Nat.leb_spec 1 (Js.length s')) as [Hmin|Hmin]; cbn [app].
  - destruct max as [[n too_long]|].
    + destruct (Nat.leb_spec (Js.length s') n) as [Hmax|Hmax].
      * split; [intros H; inversion H; subst; auto|].
        intros [H _]. inversion H. reflexivity.
      * split; [discriminate|]. intros [H [_ Hle]]. inversion H; subst. lia.
    + split; [intros H; inversion H; subst; auto|].
      intros [H _]. inversion H. reflexivity.
  - split; [discriminate|]. intros [H [Hle _]]. inversion H; subst. lia.
Qed.

Lemma email_string_valid email_format v s :
  Routes.email_string email_format v = ([], Some s)
  <-> v = Some (Routes.JString s)
      /\ (1 <= Js.length s)%nat /\ email_format s = true.
Proof.
  unfold Routes.email_string, Routes.with_checks, Routes.check,
    Routes.issue, Routes.valid.
  destruct v as [[| | |s'| |]|];
    try (split; [discriminate|intros [H _]; discriminate]).
  destruct (Nat.leb_spec 1 (Js.length s')) as [Hmin|Hmin]; cbn [app].
  - destruct (email_format s') eqn:Hfmt.
    + split; [intros H; inversion H; subst; auto|].
      intros [H _]. inversion H. reflexivity.
    + split; [discriminate|]. intros [H [_ Hok]]. inversion H; subst.
      congruence.
  - split; [discriminate|]. intros [H [Hle _]]. inversion H; subst. lia.
Qed.

(** X16.  [insertEmployeeSchema] accepts exactly the objects whose [name],
    [email], [department] and [position] are strings of at least one UTF-16
    unit, with a name of at most 100 units (100 included) and an email that
    matches the pattern; the data it returns are those four strings, and
    any other property of the body is dropped. *)
Theorem insertEmployeeSchema_accepts (email_format : string -> bool)
    (body : Routes.json) (data : InsertEmployee) :
  Routes.insertEmployeeSchema email_format body = Routes.Success data
  <-> exists o,
        body = Routes.JObject o
        /\ Routes.prop o "name" = Some (Routes.JString (ie_name data))
        /\ (1 <= Js.length (ie_name data) <= 100)%nat
        /\ Routes.prop o "email" = Some (Routes.JString (ie_email data))
        /\ (1 <= Js.length (ie_email data))%nat
        /\ email_format (ie_email data) = true
        /\ Routes.prop o "department"
           = Some (Routes.JString (ie_department data))
        /\ (1 <= Js.length (ie_department data))%nat
        /\ Routes.prop o "position" = Some (Routes.JString (ie_position data))
        /\ (1 <= Js.length (ie_position data))%nat.
Proof.
  split.
  - unfold Routes.insertEmployeeSchema.
    destruct body as [| | | | |o]; try discriminate.
    destruct (Routes.name_rule (Routes.prop o "name")) as [[|] [n|]] eqn:Hn;
      try schema_failure.
    destruct (Routes.email_string email_format (Routes.prop o "email"))
      as [[|] [e|]] eqn:He; try schema_failure.
    destruct (Routes.department_rule (Routes.prop o "department"))
      as [[|] [d|]] eqn:Hd; try schema_failure.
    destruct (Routes.position_rule (Routes.prop o "position"))
      as [[|] [p|]] eqn:Hp; try schema_failure.
    intros H. inversion H; subst. cbn [ie_name ie_email ie_department ie_position].
    apply required_string_valid in Hn, Hd, Hp. apply email_string_valid in He.
    exists o. tauto.
  - intros [o [-> [Hn [Hnlen [He [Helen [Hfmt [Hd [Hdlen [Hp Hplen]]]]]]]]]].
    unfold Routes.insertEmployeeSchema.
    assert (En : Routes.name_rule (Routes.prop o "name") = ([], Some (ie_name data)))
      by (apply required_string_valid; repeat split; trivial; lia).
    assert (Ee : Routes.email_string email_format (Routes.prop o "email")
                 = ([], Some (ie_email data)))
      by (apply email_string_valid; auto).
    assert (Ed : Routes.department_rule (Routes.prop o "department")
                 = ([], Some (ie_department data)))
      by (apply required_string_valid; auto).
    assert (Ep : Routes.position_rule (Routes.prop o "position")
                 = ([], Some (ie_position data)))
      by (apply required_string_valid; auto).
    rewrite En, Ee, Ed, Ep. destruct data; reflexivity.
Qed.

(** A rule either gives a value and no issue, or issues and no value. *)
Lemma required_string_shape required max v i r :
  Routes.required_string required max v = (i, r) ->
  (i = [] /\ r <> None) \/ (i <> [] /\ r = None).
Proof.
  unfold Routes.required_string, Routes.with_checks, Routes.check,
    Routes.issue, Routes.valid.
  destruct v as [[| | |s| |]|];
    try (intros H; inversion H; right; split; [discriminate|reflexivity]).
  destruct (1 <=? Js.length s)%nat; destruct max as [[n too_long]|];
    try destruct (Js.length s <=? n)%nat; cbn [app];
    intros H; inversion H;
    solve [ left; split; [reflexivity|discriminate]
          | right; split; [discriminate|reflexivity] ].
Qed.

Lemma email_string_shape email_format v i r :
  Routes.email_string email_format v = (i, r) ->
  (i = [] /\ r <> None) \/ (i <> [] /\ r = None).
Proof.
  unfold Routes.email_string, Routes.with_checks, Routes.check,
    Routes.issue, Routes.valid.
  destruct v as [[| | |s| |]|];
    try (intros H; inversion H; right; split; [discriminate|reflexivity]).
  destruct (1 <=? Js.length s)%nat; destruct (email_format s); cbn [app];
    intros H; inversion H;
    solve [ left; split; [reflexivity|discriminate]
          | right; split; [discriminate|reflexivity] ].
Qed.

(** X17.  A body that [insertEmployeeSchema] rejects gets at least one
    message, and every missing field is reported, not only the first: when
    the object has no [name] the errors hold "Name is required", whatever
    the other properties are, and so for [email], [department] and
    [position]. *)
Theorem insertEmployeeSchema_reports (email_format : string -> bool)
    (o : list (string * Routes.json)) (errors : list string) :
  Routes.insertEmployeeSchema email_format (Routes.JObject o)
  = Routes.Failure errors ->
  errors <> []
  /\ (Routes.prop o "name" = None -> In "Name is required" errors)
  /\ (Routes.prop o "email" = None -> In "Email is required" errors)
  /\ (Routes.prop o "department" = None -> In "Department is required" errors)
  /\ (Routes.prop o "position" = None -> In "Position is required" errors).
Proof.
  assert (Hreq : forall required max v i r,
            Routes.required_string required max v = (i, r) ->
            v = None -> In required i).
  { intros required max v i r H ->. inversion H. left. reflexivity. }
  assert (Hmail : forall v i r,
            Routes.email_string email_format v = (i, r) ->
            v = None -> In "Email is required" i).
  { intros v i r H ->. inversion H. left. reflexivity. }
  unfold Routes.insertEmployeeSchema.
  destruct (Routes.name_rule (Routes.prop o "name")) as [i1 r1] eqn:Hn.
  destruct (Routes.email_string email_format (Routes.prop o "email"))
    as [i2 r2] eqn:He.
  destruct (Routes.department_rule (Routes.prop o "department"))
    as [i3 r3] eqn:Hd.
  destruct (Routes.position_rule (Routes.prop o "position")) as [i4 r4] eqn:Hp.
  pose proof (Hreq _ _ _ _ _ Hn) as H1. pose proof (Hmail _ _ _ He) as H2.
  pose proof (Hreq _ _ _ _ _ Hd) as H3. pose proof (Hreq _ _ _ _ _ Hp) as H4.
  pose proof (required_string_shape _ _ _ _ _ Hn) as S1.
  pose proof (email_string_shape _ _ _ _ He) as S2.
  pose proof (required_string_shape _ _ _ _ _ Hd) as S3.
  pose proof (required_string_shape _ _ _ _ _ Hp) as S4.
  intros Hfail.
  assert (Herr : errors = i1 ++ i2 ++ i3 ++ i4).
  { destruct i1, r1, i2, r2, i3, r3, i4, r4; inversion Hfail; reflexivity. }
  split.
  - subst errors. intros Hnil.
    apply app_eq_nil in Hnil. destruct Hnil as [-> Hnil].
    apply app_eq_nil in Hnil. destruct Hnil as [-> Hnil].
    apply app_eq_nil in Hnil. destruct Hnil as [-> ->].
    destruct S1 as [[_ S1]|[S1 _]]; [|congruence].
    destruct S2 as [[_ S2]|[S2 _]]; [|congruence].
    destruct S3 as [[_ S3]|[S3 _]]; [|congruence].
    destruct S4 as [[_ S4]|[S4 _]]; [|congruence].
    destruct r1, r2, r3, r4; congruence.
  - subst errors. rewrite !in_app_iff. tauto.
Qed.

(** The empty object is rejected with the four "required" messages. *)
Lemma insertEmployeeSchema_reports_witness :
  In "Position is required"
     [ "Name is required"; "Email is required"; "Department is required";
       "Position is required" ].
Proof.
  exact (proj2 (proj2 (proj2 (proj2
           (insertEmployeeSchema_reports contains_at []
              [ "Name is required"; "Email is required";
                "Department is required"; "Position is required" ]
              eq_refl)))) eq_refl).
Defined.

Lemma nullable_string_valid ok msg v d :
  Routes.nullable_string ok msg v = ([], Some (Some (Some d))) -> ok d = true.
Proof.
  unfold Routes.nullable_string, Routes.with_checks, Routes.check,
    Routes.issue, Routes.valid.
  destruct v as [[| | |s| |]|]; try discriminate.
  destruct (ok s) eqn:E; [|discriminate]. intros H. inversion H; subst.
  exact E.
Qed.

(** Splits a character into its bits, dropping the values a pattern
    rules out. *)
Ltac bits a :=
  let b0 := fresh in let b1 := fresh in let b2 := fresh in let b3 := fresh in
  let b4 := fresh in let b5 := fresh in let b6 := fresh in let b7 := fresh in
  destruct a as [b0 b1 b2 b3 b4 b5 b6 b7];
  destruct b0; try discriminate; destruct b1; try discriminate;
  destruct b2; try discriminate; destruct b3; try discriminate;
  destruct b4; try discriminate; destruct b5; try discriminate;
  destruct b6; try discriminate; destruct b7; try discriminate.

Lemma due_date_format_length d :
  Routes.due_date_format d = true -> String.length d = 10%nat.
Proof.
  unfold Routes.due_date_format.
  destruct d as [|y1 d]; [discriminate|].
  destruct d as [|y2 d]; [discriminate|].
  destruct d as [|y3 d]; [discriminate|].
  destruct d as [|y4 d]; [discriminate|].
  destruct d as [|c5 d]; [discriminate|].
  destruct d as [|m1 d]; [bits c5|].
  destruct d as [|m2 d]; [bits c5|].
  destruct d as [|c8 d]; [bits c5|].
  destruct d as [|d1 d]; [bits c5; bits c8|].
  destruct d as [|d2 d]; [bits c5; bits c8|].
  destruct d as [|x d]; [reflexivity|].
  bits c5; bits c8.
Qed.

(** X18.  Task data that passed [insertTaskSchema] fit the columns they are
    written to: the title has 1 to 200 UTF-16 units, the employee id is
    positive, status and priority are set, a description has at most 1000
    units and a due date is ten characters of the form YYYY-MM-DD. *)
Theorem insertTaskSchema_sound (body : Routes.json) (data : InsertTask) :
  Routes.insertTaskSchema body = Routes.Success data ->
  (1 <= Js.length (it_title data) <= 200)%nat
  /\ 0 < it_employeeId data
  /\ it_status data <> None
  /\ it_priority data <> None
  /\ (forall d, it_description data = Some (Some d) ->
        (Js.length d <= 1000)%nat)
  /\ (forall d, it_dueDate data = Some (Some d) ->
        Routes.due_date_format d = true /\ String.length d = 10%nat).
Proof.
  unfold Routes.insertTaskSchema.
  destruct body as [| | | | |o]; try discriminate.
  destruct (Routes.title_rule (Routes.prop o "title")) as [[|] [t|]] eqn:Ht;
    try schema_failure.
  destruct (Routes.description_rule (Routes.prop o "description"))
    as [[|] [de|]] eqn:Hde; try schema_failure.
  schema_property (Routes.with_default Routes.status_rule PENDING (Routes.prop o "status")).
  destruct (Routes.employee_id_number (Routes.prop o "employeeId"))
    as [[|] [e|]] eqn:He; try schema_failure.
  destruct (Routes.due_date_rule (Routes.prop o "dueDate")) as [[|] [dd|]] eqn:Hdd;
    try schema_failure.
  schema_property (Routes.with_default Routes.priority_rule MEDIUM (Routes.prop o "priority")).
  intros H. inversion H; subst.
  cbn [it_title it_employeeId it_status it_priority it_description it_dueDate].
  apply required_string_valid in Ht. destruct Ht as [_ [Hmin Hmax]].
  split; [lia|].
  split; [exact (employee_id_number_positive _ _ He)|].
  split; [discriminate|]. split; [discriminate|].
  split.
  - intros d ->. apply nullable_string_valid in Hde.
    now apply Nat.leb_le in Hde.
  - intros d ->. apply nullable_string_valid in Hdd.
    split; [exact Hdd|now apply due_date_format_length].
Qed.

(** A task with a title, an employee and a due date. *)
Lemma insertTaskSchema_sound_witness :
  Routes.due_date_format "2025-06-30" = true
  /\ String.length "2025-06-30" = 10%nat.
Proof.
  exact (proj2 (proj2 (proj2 (proj2 (proj2
           (insertTaskSchema_sound
              (Routes.JObject [ ("title", Routes.JString "Audit the archive");
                                ("employeeId", Routes.JNumber 1 1);
                                ("dueDate", Routes.JString "2025-06-30") ])
              (mkInsertTask "Audit the archive" None (Some PENDING) 1
                 (Some (Some "2025-06-30")) (Some MEDIUM))
              eq_refl)))))
           "2025-06-30" eq_refl).
Defined.

(* ================================================================== *)
(** ** The client's requests *)
(* ================================================================== *)

Lemma one_digit m :
  0 <= m <= 9 ->
  m = 0 \/ m = 1 \/ m = 2 \/ m = 3 \/ m = 4 \/ m = 5 \/ m = 6 \/ m = 7
  \/ m = 8 \/ m = 9.
Proof. lia. Qed.

Ltac each_digit m H :=
  apply one_digit in H;
  repeat (destruct H as [H|H]; [subst m|]); [..|subst m].

Lemma digit_value_digit_char m :
  0 <= m <= 9 -> Js.digit_value (Client.digit_char m) = Some m.
Proof. intros H. each_digit m H; reflexivity. Qed.

Lemma decimal_digits_value fuel : forall n rest,
  (0 < fuel)%nat -> 0 <= n < 2 ^ Z.of_nat fuel ->
  Js.digits_prefix 10 (Client.decimal_digits fuel n rest) None
  = Js.digits_prefix 10 rest (Some n).
Proof.
  induction fuel as [|fuel IH]; intros n rest Hfuel Hn; [lia|].
  cbn [Client.decimal_digits].
  pose proof (Z.mod_pos_bound n 10 ltac:(lia)) as Hmod.
  pose proof (Z.div_mod n 10 ltac:(lia)) as Hdm.
  rewrite Nat2Z.inj_succ, Z.pow_succ_r in Hn by lia.
  destruct (Z.ltb_spec n 10) as [Hsmall|Hbig].
  - cbn [Js.digits_prefix]. rewrite digit_value_digit_char by lia.
    rewrite Z.mod_small by lia.
    replace (n <? 10) with true by (symmetry; apply Z.ltb_lt; lia).
    f_equal.
  - assert (Hpos : (0 < fuel)%nat).
    { destruct fuel; [simpl in Hn; lia|lia]. }
    rewrite IH; trivial.
    + cbn [Js.digits_prefix]. rewrite digit_value_digit_char by lia.
      replace (n mod 10 <? 10) with true by (symmetry; apply Z.ltb_lt; lia).
      f_equal. f_equal. lia.
    + split; [apply Z.div_pos; lia|].
      apply Z.div_lt_upper_bound; lia.
Qed.

Lemma decimal_digits_head fuel : forall n rest,
  (0 < fuel)%nat -> 1 <= n < 2 ^ Z.of_nat fuel ->
  exists m rest',
    1 <= m <= 9
    /\ Client.decimal_digits fuel n rest = String (Client.digit_char m) rest'.
Proof.
  induction fuel as [|fuel IH]; intros n rest Hfuel Hn; [lia|].
  cbn [Client.decimal_digits].
  rewrite Nat2Z.inj_succ, Z.pow_succ_r in Hn by lia.
  destruct (Z.ltb_spec n 10) as [Hsmall|Hbig].
  - exists n, rest. rewrite Z.mod_small by lia. split; [lia|reflexivity].
  - assert (Hpos : (0 < fuel)%nat).
    { destruct fuel; [simpl in Hn; lia|lia]. }
    apply IH; trivial. split.
    + apply Z.div_le_lower_bound; lia.
    + apply Z.div_lt_upper_bound; lia.
Qed.

(** A string that starts with a digit from 1 to 9 has no white space, sign
    or hexadecimal prefix to strip, also after a minus sign. *)
Lemma leading_digit_plain m rest :
  1 <= m <= 9 ->
  Js.trim_start (String (Client.digit_char m) rest)
  = String (Client.digit_char m) rest
  /\ Js.strip_sign (String (Client.digit_char m) rest)
     = (1, String (Client.digit_char m) rest)
  /\ Js.strip_hex_prefix (String (Client.digit_char m) rest)
     = (10, String (Client.digit_char m) rest)
  /\ Js.trim_start (String "-" (String (Client.digit_char m) rest))
     = String "-" (String (Client.digit_char m) rest).
Proof.
  intros H. assert (H' : 0 <= m <= 9) by lia.
  each_digit m H'; try lia;
    destruct rest as [|c2 [|c3 s3]]; repeat split; reflexivity.
Qed.

Lemma parseInt_positive n :
  1 <= n ->
  exists m rest,
    Client.Number_toString n = String (Client.digit_char m) rest
    /\ 1 <= m <= 9
    /\ Js.digits_prefix 10 (Client.Number_toString n) None = Some n.
Proof.
  intros Hn. unfold Client.Number_toString.
  replace (n <? 0) with false by (symmetry; apply Z.ltb_ge; lia).
  pose proof (Z.log2_spec n ltac:(lia)) as Hlog.
  pose proof (Z.log2_nonneg n) as Hlog0.
  assert (Hfuel : 1 <= n < 2 ^ Z.of_nat (S (Z.to_nat (Z.log2 n)))).
  { rewrite Nat2Z.inj_succ, Z2Nat.id by lia. lia. }
  destruct (decimal_digits_head (S (Z.to_nat (Z.log2 n))) n "" ltac:(lia) Hfuel)
    as [m [rest [Hm Hhead]]].
  exists m, rest. split; [exact Hhead|]. split; [exact Hm|].
  rewrite decimal_digits_value by lia. reflexivity.
Qed.

Lemma Number_toString_parses n :
  Js.parseInt (Client.Number_toString n) = Some n
  /\ Client.Number_toString n <> "".
Proof.
  destruct (Z.lt_trichotomy n 0) as [Hneg|[->|Hpos]].
  - destruct (parseInt_positive (- n) ltac:(lia)) as [m [rest [Hs [Hm Hval]]]].
    unfold Client.Number_toString in *.
    replace (n <? 0) with true by (symmetry; apply Z.ltb_lt; lia).
    replace (- n <? 0) with false in * by (symmetry; apply Z.ltb_ge; lia).
    split; [|discriminate].
    rewrite Hs in *.
    destruct (leading_digit_plain m rest Hm) as [_ [_ [Hhex Htrim]]].
    unfold Js.parseInt. rewrite Htrim. cbn [Js.strip_sign].
    rewrite Hhex, Hval. cbn [option_map]. f_equal. lia.
  - split; [reflexivity|discriminate].
  - destruct (parseInt_positive n ltac:(lia)) as [m [rest [Hs [Hm Hval]]]].
    rewrite Hs in *. split; [|discriminate].
    destruct (leading_digit_plain m rest Hm) as [Htrim [Hsign [Hhex _]]].
    unfold Js.parseInt. rewrite Htrim, Hsign, Hhex, Hval. cbn [option_map].
    f_equal. lia.
Qed.

(** X19.  The id the client writes into a path is the id the server reads
    there: [parseInt] of [String(id)] is [id], for every safe integer (of
    magnitude below 2^53).  So [employeeService.getById(id)] is answered
    with what [getEmployeeWithTasks id] finds, 200 or 404 and never 400, and
    [taskService.getById(id)] with what [getTaskById id] finds. *)
Theorem parseInt_Number_toString (id : Z) (db : database) :
  Z.abs id < 2 ^ 53 ->
  Js.parseInt (Client.Number_toString id) = Some id
  /\ Routes.GET_employees_id (Client.Number_toString id) db
     = (match getEmployeeWithTasks id db with
        | Some (e, ts) => Routes.mkResponse 200 (Routes.EmployeeWithTasksBody e ts)
        | None => Routes.error 404 "Employee not found"
        end, db)
  /\ Routes.GET_tasks_id (Client.Number_toString id) db
     = (match getTaskById id db with
        | Some t => Routes.mkResponse 200 (Routes.TaskDetailBody t)
        | None => Routes.error 404 "Task not found"
        end, db).
Proof.
  intros _. destruct (Number_toString_parses id) as [Hparse _].
  split; [exact Hparse|].
  unfold Routes.GET_employees_id, Routes.GET_tasks_id, Routes.try_catch,
    bind, query, ret.
  rewrite Hparse. split.
  - destruct (getEmployeeWithTasks id db) as [[e ts]|]; reflexivity.
  - destruct (getTaskById id db); reflexivity.
Qed.

(** Employee 1024. *)
Lemma parseInt_Number_toString_witness :
  Js.parseInt (Client.Number_toString 1024) = Some 1024.
Proof.
  refine (proj1 (parseInt_Number_toString 1024 empty_db _)). simpl. lia.
Defined.

(** X20.  For a filter whose [employeeId], if any, is a safe integer (of
    magnitude below 2^53), [taskService.getAll(filters)] is answered with
    the rows [getAllTasks filters] selects: the client leaves out an empty
    [status] and an [employeeId] of 0, which add no condition on the server
    either, and the server reads back the [employeeId] the client wrote.
    The one exception is a [status] outside the enumeration, answered 400. *)
Theorem taskService_getAll (filters : option TaskFilters) (db : database) :
  (forall f i, filters = Some f -> f_employeeId f = Some i ->
     Z.abs i < 2 ^ 53) ->
  Routes.GET_tasks (fst (Client.tasks_query filters))
                   (snd (Client.tasks_query filters)) db
  = if status_accepted
         (match filters with Some f => f_status f | None => None end)
    then (Routes.mkResponse 200 (Routes.TasksBody (getAllTasks filters db)), db)
    else (Routes.error 400 "Invalid status value", db).
Proof.
  intros _. destruct filters as [[st ei]|]; [|reflexivity].
  unfold Client.tasks_query, status_accepted. cbn [f_status f_employeeId fst snd].
  unfold Routes.GET_tasks, Routes.try_catch, bind, query, ret, Routes.truthy.
  destruct ei as [i|].
  - destruct (Z.eqb_spec i 0) as [->|Hnz].
    + destruct st as [s|]; [|reflexivity].
      destruct (String.eqb_spec s "") as [->|Hne]; [reflexivity|].
      apply String.eqb_neq in Hne. rewrite ?Hne.
      cbn [negb andb orb]. destruct (existsb _ _); reflexivity.
    + destruct (Number_toString_parses i) as [Hparse Hsome].
      apply String.eqb_neq in Hsome. rewrite Hsome, Hparse. cbn [negb].
      destruct st as [s|]; [|reflexivity].
      destruct (String.eqb_spec s "") as [->|Hne]; [reflexivity|].
      apply String.eqb_neq in Hne. rewrite ?Hne.
      cbn [negb andb orb]. destruct (existsb _ _); reflexivity.
  - destruct st as [s|]; [|reflexivity].
    destruct (String.eqb_spec s "") as [->|Hne]; [reflexivity|].
    apply String.eqb_neq in Hne. rewrite ?Hne.
    cbn [negb andb orb]. destruct (existsb _ _); reflexivity.
Qed.

(** The completed tasks of employee 5 of the seeded database. *)
Lemma taskService_getAll_witness :
  Routes.GET_tasks (Some "completed") (Some "5") seeded_db
  = (Routes.mkResponse 200
       (Routes.TasksBody
          (getAllTasks (Some (mkFilters (Some "completed") (Some 5)))
             seeded_db)),
     seeded_db).
Proof.
  refine (taskService_getAll (Some (mkFilters (Some "completed") (Some 5)))
            seeded_db _).
  intros f i Hf Hi. inversion Hf; subst. inversion Hi; subst. simpl. lia.
Defined.
